(** * Attendance state-diff and alerting engine of [index.js]

    A shallow embedding of the decision logic of the Azure timer function:
    the metric calculator [calculateAttendanceMessage] and the course loop
    of the exported entry point, which classifies every fetched course
    against the previous state, rebuilds the state and sends one Telegram
    message per changed course.

    Modelling conventions.
    - Lecture counters are integers ([Z]).
    - JavaScript evaluates the arithmetic of [calculateAttendanceMessage]
      on binary64 Numbers.  Module [Binary64] is that evaluation, built on
      the IEEE 754 operations of [SpecFloat]: it gives the alert block the
      code chooses and the count it prints.  [calculateAttendanceMessage]
      builds the whole message with the same expressions read in rational
      arithmetic ([Q]).  [calculate_exact] and [binary64_agrees] prove
      that, for counters of magnitude up to [2 ^ 48], the binary64
      evaluation chooses the block and prints the count of the rational
      one; beyond that bound rounding makes the code depart from the
      rational reading, on inputs that are exhibited.
    - [prevState] is the plain object read from the store, given by its
      own properties: a finite map [gmap string Entry.t].  The lookup
      [prevState[code]] also finds the members that every object inherits
      from [Object.prototype] ([oldValue]).
    - [newState] is an object that starts as [{}] and is written by
      property assignment ([JsObject]): assigning to ["__proto__"]
      replaces its prototype and adds no property.
    - The loop runs in a small state-and-exception monad: the state holds
      the local [newState], the lines written with [context.log] and the
      messages handed to [send_telegram]; reading a field of [undefined]
      throws a [TypeError].
    - The entry point [main] runs against [Services], which give the
      answers of the login endpoint, of the courses endpoint and of the
      state store; its [Outcome] lists the messages handed to
      [send_telegram] and the state handed to [saveAttendanceState].
      [process.env] is a finite map from variable names to strings. *)

From Stdlib Require Import ZArith QArith Qround Qpower Lia Lqa SpecFloat.
From stdpp Require Import gmap strings list fin_maps.

Local Open Scope Z_scope.

(** ** Data model *)

(** An entry [{ present, total }] of the attendance state. *)
Module Entry.
Record t : Type := mk { present : Z; total : Z }.

#[global] Instance eq_dec : EqDecision t.
Proof. solve_decision. Defined.

(** The literal [{ present: 0, total: 0 }] used for a course that the
    previous state does not know. *)
Definition zero : t := mk 0 0.
End Entry.

(** The [status] strings of the loop body ("Present", "Absent", "Unknown");
    [Unchanged] stands for the case in which the body's [if] is not entered
    and no status is computed. *)
Inductive ChangeStatus : Type := Unchanged | Present | Absent | Unknown.

#[global] Instance ChangeStatus_eq_dec : EqDecision ChangeStatus.
Proof. solve_decision. Defined.

(** The two alert blocks appended to the message. *)
Inductive Severity : Type := Critical | Secure.

#[global] Instance Severity_eq_dec : EqDecision Severity.
Proof. solve_decision. Defined.

(** The values interpolated into the message built by
    [calculateAttendanceMessage]: the course name, the status line, the
    [present/total] pair, the percentage, which alert block was appended
    and the number printed in it. *)
Record Message : Type := mkMessage {
  courseLabel : string;
  statusText : string;
  msgPresent : Z;
  msgTotal : Z;
  percentage : Q;
  severity : Severity;
  actionCount : Z
}.

(** One element of the [studentCourseCompDetails] array. *)
Record Comp : Type := mkComp { presentLecture : Z; totalLecture : Z }.

(** A course record as returned by [fetch_courses]. *)
Record Course : Type := mkCourse {
  courseCode : string;
  courseName : string;
  studentCourseCompDetails : list Comp
}.

(** ** Metric calculator *)

(** [statusMap[status] || "⚠️ UNKNOWN"]: the map has no key for a status
    other than the three below, so the fallback applies to it. *)
Definition statusMap (status : ChangeStatus) : option string :=
  match status with
  | Present => Some "✅ PRESENT"%string
  | Absent => Some "❌ ABSENT"%string
  | Unknown => Some "⚠️ UNKNOWN"%string
  | Unchanged => None
  end.

(** The expressions of the calculator, read in rational arithmetic. *)

(** [total > 0 ? (present / total * 100) : 0] *)
Definition percentageOf (present total : Z) : Q :=
  if 0 <? total then (inject_Z present / inject_Z total * 100)%Q else 0%Q.

(** [Math.ceil((0.75 * total - present) / 0.25)] *)
Definition lecturesNeeded (present total : Z) : Z :=
  Qceiling (((3 # 4) * inject_Z total - inject_Z present) / (1 # 4))%Q.

(** [Math.floor(present / 0.75 - total)] *)
Definition lecturesSkippable (present total : Z) : Z :=
  Qfloor (inject_Z present / (3 # 4) - inject_Z total)%Q.

(** [percentage < 75] *)
Definition belowThreshold (pct : Q) : bool :=
  match (pct ?= 75)%Q with Lt => true | _ => false end.

Definition calculateAttendanceMessage
    (course : string) (present total : Z) (status : ChangeStatus) : Message :=
  let percentage := percentageOf present total in
  let statusText := default "⚠️ UNKNOWN"%string (statusMap status) in
  if belowThreshold percentage then
    let x := lecturesNeeded present total in
    mkMessage course statusText present total percentage Critical (Z.max 0 x)
  else
    let y := lecturesSkippable present total in
    mkMessage course statusText present total percentage Secure (Z.max 0 y).

(** ** The calculator on binary64 Numbers *)

(** The arithmetic of [calculateAttendanceMessage] as JavaScript evaluates
    it: every Number is a binary64 float and every operation rounds to
    nearest, ties to even. *)
Module Binary64.
Definition prec : Z := 53.
Definition emax : Z := 1024.

(** The Number for an integer. *)
Definition ofZ (z : Z) : spec_float := binary_normalize prec emax z 0 false.

Definition mul : spec_float -> spec_float -> spec_float := SFmul prec emax.
Definition div : spec_float -> spec_float -> spec_float := SFdiv prec emax.
Definition sub : spec_float -> spec_float -> spec_float := SFsub prec emax.

(** The literals [0.75] and [0.25]; both are binary64 values. *)
Definition c075 : spec_float := S754_finite false 6755399441055744 (-53).
Definition c025 : spec_float := S754_finite false 4503599627370496 (-54).

(** [Math.floor] and [Math.ceil] of a finite Number; [None] for an
    infinity or NaN, which they return as it is. *)
Definition floor (x : spec_float) : option Z :=
  match x with
  | S754_zero _ => Some 0
  | S754_finite s m e =>
      let n := if s then Z.neg m else Z.pos m in
      Some (if 0 <=? e then n * 2 ^ e else n / 2 ^ (- e))
  | S754_infinity _ | S754_nan => None
  end.

Definition ceil (x : spec_float) : option Z := Z.opp <$> floor (SFopp x).

(** [total > 0 ? (present / total * 100) : 0] *)
Definition percentageOf (present total : Z) : spec_float :=
  if 0 <? total then mul (div (ofZ present) (ofZ total)) (ofZ 100) else ofZ 0.

(** The alert block chosen by [percentage < 75] and the count
    [Math.max(0, x)] or [Math.max(0, y)] printed in it, when that count is
    finite. *)
Definition calculate (present total : Z) : option (Severity * Z) :=
  if SFltb (percentageOf present total) (ofZ 75) then
    x ← ceil (div (sub (mul c075 (ofZ total)) (ofZ present)) c025);
    Some (Critical, Z.max 0 x)
  else
    y ← floor (sub (div (ofZ present) c075) (ofZ total));
    Some (Secure, Z.max 0 y).

(** The alert block alone: it is chosen by [percentage < 75] whatever the
    count. *)
Definition severity (present total : Z) : Severity :=
  if SFltb (percentageOf present total) (ofZ 75) then Critical else Secure.
End Binary64.

(** ** Values and rounding of binary64 Numbers *)

(** [2 ^ e] as a rational, for any integer exponent. *)
Definition pow2 (e : Z) : Q := (2 ^ e)%Q.

(** The rational that a finite Number stands for. *)
Definition valueOf (x : spec_float) : Q :=
  match x with
  | S754_finite s m e =>
      ((if s then - inject_Z (Zpos m) else inject_Z (Zpos m)) * pow2 e)%Q
  | _ => 0%Q
  end.

(** A zero, or a normal number with a 53-bit mantissa and an exponent
    between [- k] and [k]. *)
Definition canonical (k : Z) (x : spec_float) : Prop :=
  match x with
  | S754_zero _ => True
  | S754_finite _ m e => 2 ^ 52 <= Zpos m < 2 ^ 53 /\ - k <= e <= k
  | _ => False
  end.

(** Rounding of a rational to the nearest integer, ties to even. *)
Definition rne (x : Q) : Z :=
  let f := Qfloor x in
  match (x - inject_Z f ?= 1 # 2)%Q with
  | Lt => f
  | Gt => f + 1
  | Eq => if Z.even f then f else f + 1
  end.

(** Position of a rational [x] with respect to an integer [m], as
    recorded by a [location]: at [m], or between [m] and [m + 1], below,
    at or above the middle. *)
Definition located (m : Z) (l : location) (x : Q) : Prop :=
  match l with
  | loc_Exact => (x == inject_Z m)%Q
  | loc_Inexact Lt => (inject_Z m < x < inject_Z m + (1 # 2))%Q
  | loc_Inexact Eq => (x == inject_Z m + (1 # 2))%Q
  | loc_Inexact Gt => (inject_Z m + (1 # 2) < x < inject_Z m + 1)%Q
  end.

(** [Rounds w r]: [r] is the positive rational [w] rounded to 53
    significant bits, to nearest, ties to even. *)
Definition Rounds (w r : Q) : Prop :=
  exists E,
    (pow2 52 <= w / pow2 E < pow2 53)%Q /\
    (r == inject_Z (rne (w / pow2 E)) * pow2 E)%Q.

(** The same for a rational of any sign, zero included. *)
Definition RoundsTo (w r : Q) : Prop :=
  ((w == 0)%Q /\ (r == 0)%Q) \/
  ((0 < w)%Q /\ Rounds w r) \/
  ((w < 0)%Q /\ Rounds (- w) (- r)).

(** ** Change classifier *)

(** [old.present !== present || old.total !== total] *)
Definition changed (old : Entry.t) (present total : Z) : bool :=
  negb (Entry.present old =? present) || negb (Entry.total old =? total).

(** The status computed inside the [if]: "Unknown" unless one of the two
    tests assigns "Present" or "Absent". *)
Definition statusOf (old : Entry.t) (present total : Z) : ChangeStatus :=
  if (total >? Entry.total old) && (present >? Entry.present old) then Present
  else if (total >? Entry.total old) && (present =? Entry.present old) then Absent
  else Unknown.

Definition classify (old : Entry.t) (present total : Z) : ChangeStatus :=
  if changed old present total then statusOf old present total else Unchanged.

(** The names of the members of [Object.prototype], which every plain
    object inherits: [obj[name]] is a function for each of them, and the
    prototype itself for ["__proto__"]. *)
Definition prototypeMembers : list string :=
  [ "constructor"; "__defineGetter__"; "__defineSetter__"; "hasOwnProperty";
    "__lookupGetter__"; "__lookupSetter__"; "isPrototypeOf";
    "propertyIsEnumerable"; "toString"; "valueOf"; "__proto__";
    "toLocaleString" ]%string.

(** The value of [prevState[code] || { present: 0, total: 0 }]: an entry,
    or an inherited member of [Object.prototype], which is truthy and
    has neither a field [present] nor a field [total]. *)
Inductive OldValue : Type :=
| OldEntry (entry : Entry.t)
| Inherited.

(** [prevState[code] || { present: 0, total: 0 }]: an own property of
    [prevState] is found first, then the prototype is searched, and the
    literal is the value only when both fail. *)
Definition oldValue (prevState : gmap string Entry.t) (code : string) : OldValue :=
  match prevState !! code with
  | Some entry => OldEntry entry
  | None =>
      if bool_decide (code ∈ prototypeMembers) then Inherited
      else OldEntry Entry.zero
  end.

(** [old.present !== present || old.total !== total]: for an inherited
    member both fields are [undefined], which is not a counter. *)
Definition changedFrom (old : OldValue) (present total : Z) : bool :=
  match old with
  | OldEntry entry => changed entry present total
  | Inherited => true
  end.

(** The status computed inside the [if]: [total > undefined] is false, so
    neither test assigns a status when [old] is an inherited member. *)
Definition statusFrom (old : OldValue) (present total : Z) : ChangeStatus :=
  match old with
  | OldEntry entry => statusOf entry present total
  | Inherited => Unknown
  end.

Definition classifyFrom (old : OldValue) (present total : Z) : ChangeStatus :=
  if changedFrom old present total then statusFrom old present total else Unchanged.

(** ** Objects written by assignment *)

Module JsObject.
(** An object that starts as [{}] and is written by property assignment:
    its own properties and, once an assignment to ["__proto__"] has
    replaced it, the entry that is its prototype ([None] for
    [Object.prototype]). *)
Record t : Type := mk { own : gmap string Entry.t; proto : option Entry.t }.

(** [{}] *)
Definition empty : t := mk ∅ None.

(** [obj[code] = entry].  ["__proto__"] is an accessor of
    [Object.prototype]: assigning an object to it replaces the prototype
    of [obj] and creates no property. *)
Definition assign (code : string) (entry : Entry.t) (obj : t) : t :=
  if bool_decide (code = "__proto__"%string) then mk (own obj) (Some entry)
  else mk (<[code := entry]> (own obj)) (proto obj).

(** The notations [∅] and [<[code := entry]> obj] for [{}] and for the
    object after [obj[code] = entry]. *)
#[global] Instance empty_instance : Empty t := empty.
#[global] Instance insert_instance : Insert string Entry.t t := assign.
End JsObject.

(** ** The course loop *)

(** The variables the loop writes: the object [newState], the lines
    written by [context.log] (course code and status of every detected
    change) and the messages passed to [send_telegram], oldest first. *)
Record World : Type := mkWorld {
  newState : JsObject.t;
  logged : list (string * ChangeStatus);
  telegram : list Message
}.

(** The object [newState = {}] and nothing logged or sent yet. *)
Definition emptyWorld : World := mkWorld ∅ [] [].

Inductive Exn : Type := TypeError.

Inductive Result (A : Type) : Type :=
| Ret (a : A)
| Throw (e : Exn).
Arguments Ret {A} a.
Arguments Throw {A} e.

(** Computations that read and write a [World] and may throw; what was
    written before a throw stays written. *)
Module Eff.
Definition M (A : Type) : Type := World -> Result A * World.

Definition ret {A} (a : A) : M A := fun w => (Ret a, w).

Definition throw {A} (e : Exn) : M A := fun w => (Throw e, w).

Definition bind {A B} (m : M A) (k : A -> M B) : M B :=
  fun w =>
    match m w with
    | (Ret a, w') => k a w'
    | (Throw e, w') => (Throw e, w')
    end.

(** [newState[code] = entry], a property assignment. *)
Definition setNewState (code : string) (entry : Entry.t) : M unit :=
  fun w =>
    (Ret tt, mkWorld (JsObject.assign code entry (newState w)) (logged w) (telegram w)).

(** [context.log(`Change detected for ${code}: ${status}`)] *)
Definition log (code : string) (status : ChangeStatus) : M unit :=
  fun w => (Ret tt, mkWorld (newState w) (logged w ++ [(code, status)]) (telegram w)).

(** [await send_telegram(msg)]: failures of the HTTP call are caught
    inside [send_telegram], so the call itself always returns. *)
Definition send_telegram (msg : Message) : M unit :=
  fun w => (Ret tt, mkWorld (newState w) (logged w) (telegram w ++ [msg])).

(** Reading a field of [arr[0]]: a [TypeError] when the array is empty
    and [arr[0]] is [undefined]. *)
Definition first {A} (arr : list A) : M A :=
  match arr with
  | [] => throw TypeError
  | a :: _ => ret a
  end.
End Eff.

Notation "x <- m ;; k" := (Eff.bind m (fun x => k))
  (at level 100, m at next level, right associativity).
Notation "m ;;; k" := (Eff.bind m (fun _ => k))
  (at level 100, right associativity).

(** The body of [for (const c of courses)]. *)
Definition processCourse (prevState : gmap string Entry.t) (c : Course) : Eff.M unit :=
  let code := courseCode c in
  comp <- Eff.first (studentCourseCompDetails c) ;;
  let present := presentLecture comp in
  let total := totalLecture comp in
  Eff.setNewState code (Entry.mk present total) ;;;
  let old := oldValue prevState code in
  if changedFrom old present total then
    let status := statusFrom old present total in
    Eff.log code status ;;;
    let msg := calculateAttendanceMessage (courseName c) present total status in
    Eff.send_telegram msg
  else Eff.ret tt.

(** The loop over [courses], in the order of the array. *)
Fixpoint processCourses (prevState : gmap string Entry.t) (courses : list Course)
    : Eff.M unit :=
  match courses with
  | [] => Eff.ret tt
  | c :: rest => processCourse prevState c ;;; processCourses prevState rest
  end.

(** Steps 3 and 4 of the entry point: start from [newState = {}] and run
    the loop. *)
Definition diff (prevState : gmap string Entry.t) (courses : list Course)
    : Result unit * World :=
  processCourses prevState courses emptyWorld.

(** ** Reading the outcome of the loop *)

(** Whether [c.studentCourseCompDetails[0]] exists. *)
Definition hasComp (c : Course) : bool :=
  match studentCourseCompDetails c with
  | [] => false
  | _ :: _ => true
  end.

(** The component [comp] read by the loop body.  For a course without
    components the body throws before using it; the value given here for
    such a course is never consulted by a loop that runs to completion. *)
Definition comp0 (c : Course) : Comp :=
  default (mkComp 0 0) (head (studentCourseCompDetails c)).

(** The entry [{ present, total }] that the body stores for [c]. *)
Definition fetched (c : Course) : Entry.t :=
  Entry.mk (presentLecture (comp0 c)) (totalLecture (comp0 c)).

(** The status of [c] against the entry of its code in [prevState]. *)
Definition statusIn (prevState : gmap string Entry.t) (c : Course) : ChangeStatus :=
  classifyFrom (oldValue prevState (courseCode c))
    (presentLecture (comp0 c)) (totalLecture (comp0 c)).

(** The line logged and the message sent for a changed course [c]. *)
Definition logLine (prevState : gmap string Entry.t) (c : Course)
    : string * ChangeStatus :=
  (courseCode c, statusIn prevState c).

Definition alertFor (prevState : gmap string Entry.t) (c : Course) : Message :=
  calculateAttendanceMessage (courseName c)
    (presentLecture (comp0 c)) (totalLecture (comp0 c)) (statusIn prevState c).

(** The courses of the list whose status is not [Unchanged], in the order
    of the list. *)
Definition changedCourses (prevState : gmap string Entry.t) (courses : list Course)
    : list Course :=
  filter (fun c => statusIn prevState c <> Unchanged) courses.

(** [newState] after the assignments [newState[code] = { present, total }]
    of the courses, taken in order. *)
Definition stored (start : JsObject.t) (courses : list Course) : JsObject.t :=
  foldl (fun obj c => JsObject.assign (courseCode c) (fetched c) obj) start courses.

(** ** Example inputs *)

(** A previous state with two courses, one of which is no
    longer fetched, and a fetch in which one course code occurs twice. *)
Definition examplePrev : gmap string Entry.t :=
  <["CS101" := Entry.mk 5 10]> (<["PH100" := Entry.mk 1 1]> ∅).

Definition exampleCourses : list Course :=
  [ mkCourse "CS101" "Algorithms" [mkComp 5 11];
    mkCourse "MA102" "Calculus" [mkComp 8 10; mkComp 1 2];
    mkCourse "CS101" "Algorithms" [mkComp 6 12] ].

(** ** Start-up check of the environment *)

(** [process.env]: a variable is set to a string or is not set. *)
Definition requiredEnvVars : list string :=
  [ "FIREBASE_API_KEY"; "FIREBASE_AUTH_DOMAIN"; "FIREBASE_DATABASE_URL";
    "FIREBASE_PROJECT_ID"; "CYBERVIDYA_USERNAME"; "PASSWORD"; "BOT_TOKEN";
    "CHAT_ID" ]%string.

(** [!value] for the value of an environment variable: [undefined] and
    the empty string are falsy, every other string is truthy. *)
Definition falsy (value : option string) : bool :=
  match value with
  | None => true
  | Some s => bool_decide (s = ""%string)
  end.

(** [requiredEnvVars.filter(varName => !process.env[varName])] *)
Definition missingVars (env : gmap string string) : list string :=
  filter (fun varName => falsy (env !! varName) = true) requiredEnvVars.

(** Whether loading the module reaches [process.exit(1)]:
    [missingVars.length > 0]. *)
Definition exitsAtStartup (env : gmap string string) : bool :=
  bool_decide (0 < length (missingVars env))%nat.

(** ** Collaborators of the entry point *)

(** The request that [send_telegram] posts with [axios.post(url, payload)]. *)
Record TelegramRequest (T : Type) : Type := mkTelegramRequest {
  url : string;
  chat_id : string;
  text : T;
  parse_mode : string
}.
Arguments mkTelegramRequest {T} url chat_id text parse_mode.
Arguments url {T} t.
Arguments chat_id {T} t.
Arguments text {T} t.
Arguments parse_mode {T} t.

(** [send_telegram(msg)] up to the HTTP call: [None] when the function
    returns early because the bot token or the chat id is not set. *)
Definition telegramRequest {T} (env : gmap string string) (msg : T)
    : option (TelegramRequest T) :=
  let botToken := env !! "BOT_TOKEN"%string in
  let chatId := env !! "CHAT_ID"%string in
  if falsy botToken || falsy chatId then None
  else
    match botToken, chatId with
    | Some bot, Some chat =>
        Some (mkTelegramRequest
                ("https://api.telegram.org/bot" +:+ bot +:+ "/sendMessage")
                chat msg "Markdown")
    | _, _ => None
    end.

(** A rejected [axios] call: [error.response] is absent, or carries the
    status of the answer. *)
Inductive HttpFailure : Type :=
| NoResponse
| ErrorStatus (status : Z).

(** The pair returned by [login]. *)
Record Session : Type := mkSession { auth_pref : string; token : string }.

(** What [get(attendanceRef)] does: it rejects, or resolves to a snapshot
    that does not exist, or to one holding a value. *)
Inductive StateRead : Type :=
| ReadFailed
| NoSnapshot
| SnapshotVal (val : gmap string Entry.t).

(** The remote services as the entry point sees them: the answer of the
    login endpoint to a payload [{ userName, password }], the answer of the
    courses endpoint to an [Authorization] header, and the outcome of
    reading ['attendance/state']. *)
Record Services : Type := mkServices {
  loginPost : option string -> option string -> HttpFailure + Session;
  coursesGet : string -> HttpFailure + list Course;
  attendanceGet : StateRead
}.

(** What a [catch] of the entry point holds: an [Error] built with a
    message, or the exception that left the course loop. *)
Inductive Failure : Type :=
| Failed (message : string)
| Uncaught (e : Exn).

(** [login()]: every failure inside its [try] is rethrown as
    [new Error('Login failed')]. *)
Definition login (env : gmap string string) (services : Services)
    : Failure + Session :=
  let userName := env !! "CYBERVIDYA_USERNAME"%string in
  let password := env !! "PASSWORD"%string in
  match loginPost services userName password with
  | inr session => inr session
  | inl _ => inl (Failed "Login failed")
  end.

(** [fetch_courses(auth_pref, token)] *)
Definition fetch_courses (services : Services) (auth_pref token : string)
    : Failure + list Course :=
  match coursesGet services (auth_pref +:+ token) with
  | inr courses => inr courses
  | inl (ErrorStatus 401) => inl (Failed "Session expired or invalid")
  | inl _ => inl (Failed "Failed to fetch courses")
  end.

(** [getAttendanceState()]: the stored value, or [{}] when there is none
    or when reading fails. *)
Definition getAttendanceState (services : Services) : gmap string Entry.t :=
  match attendanceGet services with
  | SnapshotVal val => val
  | NoSnapshot | ReadFailed => ∅
  end.

(** ** The entry point *)

(** A message handed to [send_telegram] by the entry point: an alert built
    by [calculateAttendanceMessage], or the text
    [`Attendance Bot Error: ${error.message}`] of the [catch] block. *)
Inductive Telegram : Type :=
| Alert (msg : Message)
| BotError (error : Failure).

(** What a run leaves behind: the messages handed to [send_telegram], in
    order, and the state handed to [saveAttendanceState], if any: [set]
    writes the own properties of the object. *)
Record Outcome : Type := mkOutcome {
  sent : list Telegram;
  saved : option (gmap string Entry.t)
}.

(** The function exported by the module; the state is saved when
    [Object.keys(newState).length > 0]. *)
Definition main (env : gmap string string) (services : Services) : Outcome :=
  match login env services with
  | inl error => mkOutcome [BotError error] None
  | inr session =>
      match fetch_courses services (auth_pref session) (token session) with
      | inl error => mkOutcome [BotError error] None
      | inr courses =>
          let prevState := getAttendanceState services in
          match diff prevState courses with
          | (Ret _, w) =>
              mkOutcome (Alert <$> telegram w)
                (if bool_decide (0 < size (JsObject.own (newState w)))%nat
                 then Some (JsObject.own (newState w)) else None)
          | (Throw e, w) =>
              mkOutcome ((Alert <$> telegram w) ++ [BotError (Uncaught e)]) None
          end
      end
  end.

(** The requests posted for the messages of a run. *)
Definition posted (env : gmap string string) (outcome : Outcome)
    : list (TelegramRequest Telegram) :=
  omap (telegramRequest env) (sent outcome).

(** ** Example services *)

Definition exampleEnv : gmap string string :=
  list_to_map ((fun varName => (varName, "x"%string)) <$> requiredEnvVars).

(** Services that accept the login, answer the header ["Bearer abc"] with
    the given courses and hold the given state. *)
Definition exampleServices (courses : list Course) (read : StateRead) : Services :=
  mkServices
    (fun _ _ => inr (mkSession "Bearer " "abc"))
    (fun header =>
       if bool_decide (header = "Bearer abc"%string) then inr courses
       else inl (ErrorStatus 401))
    read.

(** * Properties *)

(** ** Arithmetic of the metric calculator *)

Section Arithmetic.
Implicit Types present total : Z.

(** Dividing by [0.25] is exact, so [Math.ceil] receives an integer. *)
Lemma lecturesNeeded_exact present total :
  lecturesNeeded present total = 3 * total - 4 * present.
Proof.
  unfold lecturesNeeded.
  rewrite <- (Qceiling_Z (3 * total - 4 * present)).
  apply Qceiling_comp.
  unfold Qeq, Qdiv, Qminus, Qplus, Qmult, Qopp, Qinv, inject_Z. simpl. lia.
Qed.

Lemma lecturesSkippable_exact present total :
  lecturesSkippable present total = (4 * present - 3 * total) / 3.
Proof.
  unfold lecturesSkippable.
  rewrite (Zdiv_Qdiv (4 * present - 3 * total) 3).
  apply Qfloor_comp.
  unfold Qeq, Qdiv, Qminus, Qplus, Qmult, Qopp, Qinv, inject_Z. simpl. lia.
Qed.

Lemma belowThreshold_lt (pct : Q) : belowThreshold pct = true <-> (pct < 75)%Q.
Proof.
  unfold belowThreshold. rewrite Qlt_alt.
  destruct (pct ?= 75)%Q; split; congruence.
Qed.

Lemma belowThreshold_ge (pct : Q) : belowThreshold pct = false <-> (75 <= pct)%Q.
Proof.
  split; intros H.
  - apply Qnot_lt_le. intros Hlt. apply belowThreshold_lt in Hlt. congruence.
  - destruct (belowThreshold pct) eqn:E; [|reflexivity].
    apply belowThreshold_lt in E. exfalso. exact (Qlt_not_le _ _ E H).
Qed.

(** A ratio of integers against the 75% threshold, over a positive
    denominator. *)
Lemma ratio_ge_threshold (n d : Z) :
  0 < d -> (3 # 4 <= inject_Z n / inject_Z d)%Q <-> 3 * d <= 4 * n.
Proof.
  intros Hd. destruct d as [|d|d]; try lia.
  unfold Qle, Qdiv, Qmult, Qinv, inject_Z. simpl. lia.
Qed.

Lemma percent_lt_75 present total :
  0 < total ->
  (inject_Z present / inject_Z total * 100 < 75)%Q <-> 4 * present < 3 * total.
Proof.
  intros Ht. destruct total as [|t|t]; try lia.
  unfold Qlt, Qdiv, Qmult, Qinv, inject_Z. simpl. lia.
Qed.

Lemma percent_ge_75 present total :
  0 < total ->
  (75 <= inject_Z present / inject_Z total * 100)%Q <-> 3 * total <= 4 * present.
Proof.
  intros Ht. destruct total as [|t|t]; try lia.
  unfold Qle, Qdiv, Qmult, Qinv, inject_Z. simpl. lia.
Qed.

Lemma percent_range present total :
  0 < total ->
  (0 <= inject_Z present / inject_Z total * 100 <= 100)%Q <-> 0 <= present <= total.
Proof.
  intros Ht. destruct total as [|t|t]; try lia.
  unfold Qle, Qdiv, Qmult, Qinv, inject_Z. simpl. lia.
Qed.

Lemma percentageOf_pos present total :
  0 < total ->
  percentageOf present total = (inject_Z present / inject_Z total * 100)%Q.
Proof. intros Ht. unfold percentageOf. destruct (Z.ltb_spec 0 total); [reflexivity | lia]. Qed.

Lemma percentageOf_nonpos present total :
  total <= 0 -> percentageOf present total = 0%Q.
Proof. intros Ht. unfold percentageOf. destruct (Z.ltb_spec 0 total); [lia | reflexivity]. Qed.

(** The two branches of the calculator. *)
Lemma calculate_critical course present total status :
  belowThreshold (percentageOf present total) = true ->
  calculateAttendanceMessage course present total status =
    mkMessage course (default "⚠️ UNKNOWN"%string (statusMap status)) present total
      (percentageOf present total) Critical (Z.max 0 (lecturesNeeded present total)).
Proof. intros H. unfold calculateAttendanceMessage. rewrite H. reflexivity. Qed.

Lemma calculate_secure course present total status :
  belowThreshold (percentageOf present total) = false ->
  calculateAttendanceMessage course present total status =
    mkMessage course (default "⚠️ UNKNOWN"%string (statusMap status)) present total
      (percentageOf present total) Secure (Z.max 0 (lecturesSkippable present total)).
Proof. intros H. unfold calculateAttendanceMessage. rewrite H. reflexivity. Qed.

Lemma calculate_percentage course present total status :
  percentage (calculateAttendanceMessage course present total status)
  = percentageOf present total.
Proof.
  unfold calculateAttendanceMessage.
  destruct (belowThreshold (percentageOf present total)); reflexivity.
Qed.

Lemma calculate_severity course present total status :
  severity (calculateAttendanceMessage course present total status)
  = if belowThreshold (percentageOf present total) then Critical else Secure.
Proof.
  unfold calculateAttendanceMessage.
  destruct (belowThreshold (percentageOf present total)); reflexivity.
Qed.
End Arithmetic.

(** ** Arithmetic of binary64 Numbers *)

Section Pow2.
Lemma pow2_pos e : (0 < pow2 e)%Q.
Proof. apply Qpower_0_lt. reflexivity. Qed.

Lemma pow2_add a b : (pow2 (a + b) == pow2 a * pow2 b)%Q.
Proof. apply Qpower_plus. discriminate. Qed.

Lemma pow2_opp a : (pow2 (- a) == / pow2 a)%Q.
Proof. apply Qpower_opp. Qed.

Lemma pow2_sub a b : (pow2 (a - b) == pow2 a / pow2 b)%Q.
Proof. unfold Z.sub. rewrite pow2_add, pow2_opp. reflexivity. Qed.

Lemma pow2_Z n : 0 <= n -> (pow2 n == inject_Z (2 ^ n))%Q.
Proof. intros Hn. unfold pow2. rewrite Zpower_Qpower by assumption. reflexivity. Qed.

Lemma pow2_le a b : a <= b -> (pow2 a <= pow2 b)%Q.
Proof. intros H. apply Qpower_le_compat_l; [exact H | discriminate]. Qed.

Lemma pow2_lt a b : a < b -> (pow2 a < pow2 b)%Q.
Proof. intros H. apply Qpower_lt_compat_l; [exact H | reflexivity]. Qed.

Lemma pow2_lt_inv a b : (pow2 a < pow2 b)%Q -> a < b.
Proof.
  intros H. destruct (Z_lt_le_dec a b) as [|Hle]; [assumption|].
  apply pow2_le in Hle. exfalso. exact (Qlt_not_le _ _ H Hle).
Qed.
End Pow2.

(** Replaces every power of two of the goal by a positive variable. *)
Ltac abstract_pow2 :=
  repeat match goal with
  | |- context [pow2 ?e] =>
      let P := fresh "P" in
      let HP := fresh "HP" in
      pose proof (pow2_pos e) as HP; set (P := pow2 e) in *; clearbody P
  end.

Section Rne.
Lemma inject_Z_succ z : (inject_Z (z + 1) == inject_Z z + 1)%Q.
Proof. rewrite inject_Z_plus. reflexivity. Qed.

Lemma rne_bounds x :
  (inject_Z (rne x) - (1 # 2) <= x <= inject_Z (rne x) + (1 # 2))%Q.
Proof.
  unfold rne. pose proof (Qfloor_le x) as Hlo. pose proof (Qlt_floor x) as Hhi.
  rewrite inject_Z_succ in Hhi.
  destruct (x - inject_Z (Qfloor x) ?= 1 # 2)%Q eqn:E.
  - apply Qeq_alt in E. destruct (Z.even (Qfloor x)).
    + lra.
    + rewrite inject_Z_succ. lra.
  - apply Qlt_alt in E. lra.
  - apply Qgt_alt in E. rewrite inject_Z_succ. lra.
Qed.

Lemma rne_ge x n : (inject_Z n <= x)%Q -> n <= rne x.
Proof.
  intros H. assert (Hf : n <= Qfloor x).
  { rewrite <- (Qfloor_Z n). apply Qfloor_resp_le. exact H. }
  unfold rne. destruct (_ ?= _)%Q; [destruct (Z.even _)|..]; lia.
Qed.

Lemma rne_le x n : (x <= inject_Z n)%Q -> rne x <= n.
Proof.
  intros H. pose proof (Qfloor_le x) as Hlo.
  assert (Hf : Qfloor x <= n).
  { rewrite <- (Qfloor_Z n). apply Qfloor_resp_le. exact H. }
  destruct (Z.eq_dec (Qfloor x) n) as [Heq|Hne].
  - subst n. unfold rne.
    assert (E : (x - inject_Z (Qfloor x) ?= 1 # 2)%Q = Lt).
    { change (x - inject_Z (Qfloor x) < 1 # 2)%Q. lra. }
    rewrite E. lia.
  - unfold rne. destruct (_ ?= _)%Q; [destruct (Z.even _)|..]; lia.
Qed.

Lemma rne_Z n : rne (inject_Z n) = n.
Proof.
  apply Z.le_antisymm; [apply rne_le | apply rne_ge]; apply Qle_refl.
Qed.

Lemma rne_comp x y : (x == y)%Q -> rne x = rne y.
Proof.
  intros H. unfold rne. rewrite (Qfloor_comp _ _ H).
  assert (E : (x - inject_Z (Qfloor y) ?= 1 # 2)%Q = (y - inject_Z (Qfloor y) ?= 1 # 2)%Q).
  { rewrite H. reflexivity. }
  rewrite E. reflexivity.
Qed.
End Rne.

(** ** Shifting with round and sticky bits *)

Section Shift.
Lemma inject_Z_xO p : (inject_Z (Zpos p~0) == 2 * inject_Z (Zpos p))%Q.
Proof. unfold Qeq. simpl. lia. Qed.

Lemma inject_Z_xI p : (inject_Z (Zpos p~1) == 2 * inject_Z (Zpos p) + 1)%Q.
Proof. unfold Qeq. simpl. lia. Qed.

Lemma located_range m l x :
  located m l x -> (inject_Z m <= x < inject_Z m + 1)%Q.
Proof. destruct l as [|[| |]]; cbn; intros H; lra. Qed.

Lemma located_comp m l x y : (x == y)%Q -> located m l x -> located m l y.
Proof. intros Hxy. destruct l as [|[| |]]; cbn; intros H; lra. Qed.

Lemma Qfloor_unique m x : (inject_Z m <= x < inject_Z m + 1)%Q -> Qfloor x = m.
Proof.
  intros [Hlo Hhi]. apply Z.le_antisymm.
  - pose proof (Qfloor_le x) as Hf.
    assert (H : (inject_Z (Qfloor x) < inject_Z (m + 1))%Q)
      by (rewrite inject_Z_succ; lra).
    rewrite <- Zlt_Qlt in H. lia.
  - rewrite <- (Qfloor_Z m). apply Qfloor_resp_le. exact Hlo.
Qed.

Lemma located_rne m l x : located m l x -> round_nearest_even m l = rne x.
Proof.
  intros H. pose proof (Qfloor_unique m x (located_range m l x H)) as Hf.
  unfold rne. rewrite Hf.
  destruct l as [|[| |]]; cbn in H |- *.
  - assert (E : (x - inject_Z m ?= 1 # 2)%Q = Lt).
    { change (x - inject_Z m < 1 # 2)%Q. lra. }
    rewrite E. reflexivity.
  - assert (E : (x - inject_Z m ?= 1 # 2)%Q = Eq).
    { apply Qeq_alt. lra. }
    rewrite E. reflexivity.
  - assert (E : (x - inject_Z m ?= 1 # 2)%Q = Lt).
    { change (x - inject_Z m < 1 # 2)%Q. lra. }
    rewrite E. reflexivity.
  - assert (E : (x - inject_Z m ?= 1 # 2)%Q = Gt).
    { apply Qgt_alt. lra. }
    rewrite E. reflexivity.
Qed.

Lemma shr_1_located mrs x :
  0 <= shr_m mrs ->
  located (shr_m mrs) (loc_of_shr_record mrs) x ->
  0 <= shr_m (shr_1 mrs) /\
  located (shr_m (shr_1 mrs)) (loc_of_shr_record (shr_1 mrs)) (x / 2).
Proof.
  destruct mrs as [m r s]. cbn [shr_m]. intros Hm H.
  assert (Hx : (x / 2 == x * (1 # 2))%Q) by (unfold Qdiv; reflexivity).
  destruct m as [|[p|p|]|p]; try lia;
    destruct r, s; cbn in H |- *; (split; [lia|]);
    rewrite ?inject_Z_xO, ?inject_Z_xI in H;
    change (inject_Z 1) with 1%Q in *; change (inject_Z 0) with 0%Q in *;
    lra.
Qed.
End Shift.

Section Digits.
Lemma iter_pos_nat {A} (f : A -> A) n x :
  SpecFloat.iter_pos f n x = Nat.iter (Pos.to_nat n) f x.
Proof.
  revert x. induction n as [n IH|n IH|]; intros x; cbn [SpecFloat.iter_pos].
  - rewrite !IH, Pos2Nat.inj_xI. cbn [Nat.mul]. rewrite Nat.add_0_r.
    rewrite <- Nat.iter_add, <- Nat.iter_succ_r. reflexivity.
  - rewrite !IH, Pos2Nat.inj_xO. cbn [Nat.mul]. rewrite Nat.add_0_r.
    rewrite <- Nat.iter_add. reflexivity.
  - reflexivity.
Qed.

Lemma shr_nat mrs e n :
  0 <= n -> shr mrs e n = (Nat.iter (Z.to_nat n) shr_1 mrs, e + n).
Proof.
  intros Hn. destruct n as [|p|p]; try lia; cbn [shr].
  - rewrite Z.add_0_r. reflexivity.
  - rewrite iter_pos_nat. reflexivity.
Qed.

Lemma shr_iter_located k mrs x :
  0 <= shr_m mrs ->
  located (shr_m mrs) (loc_of_shr_record mrs) x ->
  0 <= shr_m (Nat.iter k shr_1 mrs) /\
  located (shr_m (Nat.iter k shr_1 mrs)) (loc_of_shr_record (Nat.iter k shr_1 mrs))
    (x / pow2 (Z.of_nat k)).
Proof.
  intros Hm H. induction k as [|k [IHm IH]].
  - cbn [Nat.iter]. split; [exact Hm|].
    assert (Hx : (x / pow2 (Z.of_nat 0) == x)%Q).
    { change (pow2 (Z.of_nat 0)) with 1%Q. field. }
    apply (located_comp _ _ x); [symmetry; exact Hx | exact H].
  - cbn [Nat.iter]. destruct (shr_1_located _ _ IHm IH) as [Hm' H'].
    split; [exact Hm'|].
    assert (Hx : (x / pow2 (Z.of_nat (S k)) == x / pow2 (Z.of_nat k) / 2)%Q).
    { rewrite Nat2Z.inj_succ. unfold Z.succ. rewrite pow2_add.
      change (pow2 1) with 2%Q. pose proof (pow2_pos (Z.of_nat k)). field. lra. }
    apply (located_comp _ _ (x / pow2 (Z.of_nat k) / 2)); [symmetry; exact Hx | exact H'].
Qed.

Lemma digits2_pos_bounds p :
  2 ^ (Zpos (digits2_pos p) - 1) <= Zpos p < 2 ^ Zpos (digits2_pos p).
Proof.
  induction p as [p IH|p IH|]; cbn [digits2_pos].
  - rewrite Pos2Z.inj_succ.
    replace (Z.succ (Zpos (digits2_pos p)) - 1) with (Z.succ (Zpos (digits2_pos p) - 1)) by lia.
    rewrite !Z.pow_succ_r by lia. lia.
  - rewrite Pos2Z.inj_succ.
    replace (Z.succ (Zpos (digits2_pos p)) - 1) with (Z.succ (Zpos (digits2_pos p) - 1)) by lia.
    rewrite !Z.pow_succ_r by lia. lia.
  - cbn. lia.
Qed.

Lemma Zdigits2_unique m d :
  2 ^ (d - 1) <= m < 2 ^ d -> 0 < d -> Zdigits2 m = d.
Proof.
  intros Hm Hd.
  assert (0 < m) by (pose proof (Z.pow_pos_nonneg 2 (d - 1)); lia).
  destruct m as [|p|p]; try lia. cbn [Zdigits2].
  pose proof (digits2_pos_bounds p) as Hp.
  destruct (Z.lt_trichotomy (Zpos (digits2_pos p)) d) as [Hlt|[Heq|Hgt]]; [|exact Heq|].
  - assert (2 ^ Zpos (digits2_pos p) <= 2 ^ (d - 1)) by (apply Z.pow_le_mono_r; lia). lia.
  - assert (2 ^ d <= 2 ^ (Zpos (digits2_pos p) - 1)) by (apply Z.pow_le_mono_r; lia). lia.
Qed.

Lemma Zdigits2_bounds m :
  0 < m -> 2 ^ (Zdigits2 m - 1) <= m < 2 ^ Zdigits2 m /\ 0 < Zdigits2 m.
Proof.
  intros Hm. destruct m as [|p|p]; try lia. cbn [Zdigits2].
  split; [apply digits2_pos_bounds | lia].
Qed.
End Digits.

(** ** Rounding a located mantissa to binary64 *)

Section RoundAux.
Lemma fexp_normal z : -1074 <= z - 53 -> fexp 53 1024 z = z - 53.
Proof. unfold fexp, emin. lia. Qed.

Lemma shr_record_of_loc_m m l : shr_m (shr_record_of_loc m l) = m.
Proof. destruct l as [|[| |]]; reflexivity. Qed.

Lemma shr_record_of_loc_loc m l : loc_of_shr_record (shr_record_of_loc m l) = l.
Proof. destruct l as [|[| |]]; reflexivity. Qed.

Lemma shr_fexp_normal m e l x :
  0 < m -> located m l x ->
  53 <= Zdigits2 m -> -1074 <= Zdigits2 m + e - 53 ->
  exists mrs,
    shr_fexp 53 1024 m e l = (mrs, Zdigits2 m + e - 53) /\
    2 ^ 52 <= shr_m mrs < 2 ^ 53 /\
    (pow2 52 <= x / pow2 (Zdigits2 m - 53) < pow2 53)%Q /\
    located (shr_m mrs) (loc_of_shr_record mrs) (x / pow2 (Zdigits2 m - 53)).
Proof.
  intros Hm Hloc Hd Hmin. set (d := Zdigits2 m) in *.
  unfold shr_fexp. fold d. rewrite fexp_normal by lia.
  rewrite shr_nat by lia.
  replace (d + e - 53 - e) with (d - 53) by lia.
  replace (e + (d - 53)) with (d + e - 53) by lia.
  eexists. split; [reflexivity|].
  destruct (shr_iter_located (Z.to_nat (d - 53)) (shr_record_of_loc m l) x) as [Hm' Hloc'].
  { rewrite shr_record_of_loc_m. lia. }
  { rewrite shr_record_of_loc_m, shr_record_of_loc_loc. exact Hloc. }
  rewrite Z2Nat.id in Hloc' by lia.
  set (mrs := Nat.iter _ _ _) in *.
  assert (Hx : (pow2 52 <= x / pow2 (d - 53) < pow2 53)%Q).
  { destruct (Zdigits2_bounds m Hm) as [[Hlo Hhi] _]. fold d in Hlo, Hhi.
    pose proof (located_range _ _ _ Hloc) as [Hxlo Hxhi].
    assert (Hlo' : (pow2 (d - 1) <= x)%Q).
    { rewrite pow2_Z by lia. rewrite Zle_Qle in Hlo. lra. }
    assert (Hhi' : (x < pow2 d)%Q).
    { rewrite pow2_Z by lia.
      assert (H1 : (inject_Z (m + 1) <= inject_Z (2 ^ d))%Q) by (rewrite <- Zle_Qle; lia).
      rewrite inject_Z_succ in H1. lra. }
    pose proof (pow2_pos (d - 53)) as Hpos.
    replace (d - 1) with (52 + (d - 53)) in Hlo' by lia.
    replace d with (53 + (d - 53)) in Hhi' at 1 by lia.
    rewrite pow2_add in Hlo', Hhi'.
    split.
    - apply Qle_shift_div_l; assumption.
    - apply Qlt_shift_div_r; assumption. }
  split; [|split; [exact Hx | exact Hloc']].
  pose proof (located_range _ _ _ Hloc') as [Hlo Hhi].
  destruct Hx as [Hx1 Hx2]. rewrite (pow2_Z 52) in Hx1 by lia.
  rewrite (pow2_Z 53) in Hx2 by lia.
  split.
  - assert (H : (inject_Z (2 ^ 52) < inject_Z (shr_m mrs + 1))%Q)
      by (rewrite inject_Z_succ; lra).
    rewrite <- Zlt_Qlt in H. lia.
  - assert (H : (inject_Z (shr_m mrs) < inject_Z (2 ^ 53))%Q) by lra.
    rewrite <- Zlt_Qlt in H. exact H.
Qed.

Lemma binary_round_aux_spec s m e l x :
  0 < m -> located m l x ->
  53 <= Zdigits2 m -> -1074 <= Zdigits2 m + e - 53 -> Zdigits2 m + e <= 1023 ->
  exists M E,
    binary_round_aux 53 1024 s m e l = S754_finite s M E /\
    2 ^ 52 <= Zpos M < 2 ^ 53 /\
    Zdigits2 m + e - 53 <= E <= Zdigits2 m + e - 52 /\
    (pow2 52 <= x / pow2 (Zdigits2 m - 53) < pow2 53)%Q /\
    (inject_Z (Zpos M) * pow2 E
     == inject_Z (rne (x / pow2 (Zdigits2 m - 53))) * pow2 (Zdigits2 m + e - 53))%Q.
Proof.
  intros Hm Hloc Hd Hmin Hmax.
  destruct (shr_fexp_normal m e l x Hm Hloc Hd Hmin) as (mrs & Hshr & Hmrs & Hx & Hloc').
  set (d := Zdigits2 m) in *. set (x' := (x / pow2 (d - 53))%Q) in *.
  unfold binary_round_aux. rewrite Hshr.
  rewrite (located_rne _ _ _ Hloc').
  assert (Hr : 2 ^ 52 <= rne x' <= 2 ^ 53).
  { destruct Hx as [Hx1 Hx2]. rewrite (pow2_Z 52) in Hx1 by lia.
    rewrite (pow2_Z 53) in Hx2 by lia. split.
    - apply rne_ge. exact Hx1.
    - apply rne_le. lra. }
  destruct (Z_lt_le_dec (rne x') (2 ^ 53)) as [Hlt|Hge].
  - assert (Hdig : Zdigits2 (rne x') = 53) by (apply Zdigits2_unique; lia).
    unfold shr_fexp. rewrite Hdig, fexp_normal by lia.
    replace (53 + (d + e - 53) - 53 - (d + e - 53)) with 0 by lia.
    cbn [shr shr_record_of_loc shr_m].
    destruct (rne x') as [|M|M] eqn:EM; try lia.
    exists M, (d + e - 53). split.
    + destruct (Z.leb_spec (d + e - 53) (1024 - 53)); [reflexivity | lia].
    + split; [lia|]. split; [lia|]. split; [exact Hx | reflexivity].
  - assert (Hr53 : rne x' = 2 ^ 53) by lia. rewrite Hr53.
    unfold shr_fexp.
    change (Zdigits2 (2 ^ 53)) with 54. rewrite fexp_normal by lia.
    replace (54 + (d + e - 53) - 53 - (d + e - 53)) with 1 by lia.
    cbn [shr shr_record_of_loc]. change (2 ^ 53) with 9007199254740992.
    cbn [SpecFloat.iter_pos shr_1 shr_m].
    exists 4503599627370496%positive, (d + e - 53 + 1). split.
    + destruct (Z.leb_spec (d + e - 53 + 1) (1024 - 53)); [reflexivity | lia].
    + split; [lia|]. split; [lia|]. split; [exact Hx|].
      rewrite pow2_add. change (pow2 1) with 2%Q.
      change (inject_Z 9007199254740992) with (inject_Z 4503599627370496 * 2)%Q at 1.
      field.
Qed.
End RoundAux.

(** ** Correctly rounded values *)

Section Rounding.
Lemma Rounds_comp w w' r r' :
  (w == w')%Q -> (r == r')%Q -> Rounds w r -> Rounds w' r'.
Proof.
  intros Hw Hr (E & Hrange & Hval). exists E. split.
  - rewrite <- Hw. exact Hrange.
  - rewrite <- Hr, Hval. rewrite (rne_comp (w / pow2 E) (w' / pow2 E)); [reflexivity|].
    rewrite Hw. reflexivity.
Qed.

Lemma RoundsTo_comp w w' r r' :
  (w == w')%Q -> (r == r')%Q -> RoundsTo w r -> RoundsTo w' r'.
Proof.
  intros Hw Hr [[H1 H2]|[[H1 H2]|[H1 H2]]].
  - left. split; lra.
  - right. left. split; [lra|]. exact (Rounds_comp _ _ _ _ Hw Hr H2).
  - right. right. split; [lra|]. apply (Rounds_comp (- w) _ (- r)); [lra | lra | exact H2].
Qed.

(** The rounding error is at most half a unit in the last place. *)
Lemma Rounds_error w r :
  Rounds w r ->
  (0 < w)%Q /\ (w - w * (1 # 9007199254740992) <= r <= w + w * (1 # 9007199254740992))%Q.
Proof.
  intros (E & [Hlo Hhi] & Hval).
  pose proof (pow2_pos E) as HP. set (P := pow2 E) in *.
  set (y := (w / P)%Q) in *.
  assert (Hw : (w == y * P)%Q) by (unfold y; field; lra).
  pose proof (rne_bounds y) as [Hn1 Hn2]. set (n := inject_Z (rne y)) in *.
  change (pow2 52) with (4503599627370496%Q) in Hlo.
  assert (Hy : (0 < y)%Q) by lra.
  split; [rewrite Hw; apply Qmult_lt_0_compat; assumption|].
  rewrite Hval, Hw.
  assert (H1 : (0 <= (y - 4503599627370496) * P)%Q) by (apply Qmult_le_0_compat; lra).
  assert (H2 : (0 <= (n + (1 # 2) - y) * P)%Q) by (apply Qmult_le_0_compat; lra).
  assert (H3 : (0 <= (y - (n - (1 # 2))) * P)%Q) by (apply Qmult_le_0_compat; lra).
  split; nra.
Qed.

(** A value with at most 53 significant bits is not changed. *)
Lemma Rounds_exact w r k j :
  Rounds w r -> (w == inject_Z k * pow2 j)%Q -> 0 < k < 2 ^ 53 -> (r == w)%Q.
Proof.
  intros (E & [Hlo Hhi] & Hval) Hw Hk.
  pose proof (pow2_pos E) as HP. pose proof (pow2_pos (j - E)) as HC.
  assert (Hy : (w / pow2 E == inject_Z k * pow2 (j - E))%Q).
  { rewrite Hw, pow2_sub. field. lra. }
  assert (Hge : 0 <= j - E).
  { destruct (Z_lt_le_dec (j - E) 0) as [Hneg|]; [|assumption]. exfalso.
    assert (Hc : (pow2 (j - E) <= pow2 (-1))%Q) by (apply pow2_le; lia).
    change (pow2 (-1)) with (1 # 2)%Q in Hc.
    change (pow2 52) with (4503599627370496%Q) in Hlo.
    assert (Hk' : (inject_Z k <= 9007199254740991)%Q).
    { change 9007199254740991%Q with (inject_Z 9007199254740991). rewrite <- Zle_Qle. lia. }
    assert (Hk0 : (0 < inject_Z k)%Q).
    { change 0%Q with (inject_Z 0). rewrite <- Zlt_Qlt. lia. }
    rewrite Hy in Hlo.
    assert (H1 : (0 <= inject_Z k * ((1 # 2) - pow2 (j - E)))%Q)
      by (apply Qmult_le_0_compat; lra).
    nra. }
  assert (Hy' : (w / pow2 E == inject_Z (k * 2 ^ (j - E)))%Q).
  { rewrite Hy, inject_Z_mult, <- pow2_Z by assumption. reflexivity. }
  rewrite Hval, (rne_comp _ _ Hy'), rne_Z.
  rewrite inject_Z_mult, <- pow2_Z by assumption. rewrite Hw, pow2_sub. field. lra.
Qed.

(** Rounding does not cross a value with at most 53 significant bits. *)
Lemma Rounds_ge w r k j :
  Rounds w r -> 0 < k < 2 ^ 53 -> (inject_Z k * pow2 j <= w)%Q ->
  (inject_Z k * pow2 j <= r)%Q.
Proof.
  intros (E & [Hlo Hhi] & Hval) Hk Hc.
  pose proof (pow2_pos E) as HP. pose proof (pow2_pos (j - E)) as HC.
  assert (Hk0 : (0 < inject_Z k)%Q).
  { change 0%Q with (inject_Z 0). rewrite <- Zlt_Qlt. lia. }
  assert (Hcy : (inject_Z k * pow2 (j - E) <= w / pow2 E)%Q).
  { rewrite pow2_sub. apply Qle_shift_div_l; [exact HP|].
    assert (Heq : (inject_Z k * (pow2 j / pow2 E) * pow2 E == inject_Z k * pow2 j)%Q)
      by (field; lra).
    rewrite Heq. exact Hc. }
  assert (Hj : (pow2 j == pow2 (j - E) * pow2 E)%Q).
  { rewrite pow2_sub. field. lra. }
  rewrite Hval, Hj, Qmult_assoc. apply Qmult_le_compat_r; [|lra].
  destruct (Z_lt_le_dec (j - E) 0) as [Hneg|Hge].
  - assert (Hc2 : (pow2 (j - E) <= pow2 (-1))%Q) by (apply pow2_le; lia).
    change (pow2 (-1)) with (1 # 2)%Q in Hc2.
    assert (Hk' : (inject_Z k <= 9007199254740991)%Q).
    { change 9007199254740991%Q with (inject_Z 9007199254740991). rewrite <- Zle_Qle. lia. }
    assert (Hn : (4503599627370496 <= inject_Z (rne (w / pow2 E)))%Q).
    { change 4503599627370496%Q with (inject_Z 4503599627370496). rewrite <- Zle_Qle.
      apply rne_ge. exact Hlo. }
    assert (H1 : (0 <= inject_Z k * ((1 # 2) - pow2 (j - E)))%Q)
      by (apply Qmult_le_0_compat; lra).
    nra.
  - rewrite (pow2_Z (j - E)) in Hcy |- * by assumption.
    rewrite <- inject_Z_mult in Hcy |- *. rewrite <- Zle_Qle. apply rne_ge. exact Hcy.
Qed.

Lemma Rounds_le w r k j :
  Rounds w r -> 0 < k < 2 ^ 53 -> (w <= inject_Z k * pow2 j)%Q ->
  (r <= inject_Z k * pow2 j)%Q.
Proof.
  intros (E & [Hlo Hhi] & Hval) Hk Hc.
  pose proof (pow2_pos E) as HP. pose proof (pow2_pos (j - E)) as HC.
  assert (Hk0 : (0 < inject_Z k)%Q).
  { change 0%Q with (inject_Z 0). rewrite <- Zlt_Qlt. lia. }
  assert (Hcy : (w / pow2 E <= inject_Z k * pow2 (j - E))%Q).
  { rewrite pow2_sub. apply Qle_shift_div_r; [exact HP|].
    assert (Heq : (inject_Z k * (pow2 j / pow2 E) * pow2 E == inject_Z k * pow2 j)%Q)
      by (field; lra).
    rewrite Heq. exact Hc. }
  assert (Hj : (pow2 j == pow2 (j - E) * pow2 E)%Q).
  { rewrite pow2_sub. field. lra. }
  rewrite Hval, Hj, Qmult_assoc. apply Qmult_le_compat_r; [|lra].
  destruct (Z_lt_le_dec (j - E) 0) as [Hneg|Hge].
  - exfalso.
    assert (Hc2 : (pow2 (j - E) <= pow2 (-1))%Q) by (apply pow2_le; lia).
    change (pow2 (-1)) with (1 # 2)%Q in Hc2.
    change (pow2 52) with (4503599627370496%Q) in Hlo.
    assert (Hk' : (inject_Z k <= 9007199254740991)%Q).
    { change 9007199254740991%Q with (inject_Z 9007199254740991). rewrite <- Zle_Qle. lia. }
    assert (H1 : (0 <= inject_Z k * ((1 # 2) - pow2 (j - E)))%Q)
      by (apply Qmult_le_0_compat; lra).
    nra.
  - rewrite (pow2_Z (j - E)) in Hcy |- * by assumption.
    rewrite <- inject_Z_mult in Hcy |- *. rewrite <- Zle_Qle. apply rne_le. exact Hcy.
Qed.
End Rounding.

(** ** Values of the binary64 operations *)

Section Operations.
Lemma canonical_weaken k k' x : k <= k' -> canonical k x -> canonical k' x.
Proof. intros Hk. destruct x as [| | |s m e]; cbn; try tauto. lia. Qed.

Lemma Zdigits2_range m a b :
  0 <= a -> 2 ^ a <= m < 2 ^ b -> a < Zdigits2 m <= b.
Proof.
  intros Ha [Hlo Hhi].
  assert (Hm : 0 < m) by (pose proof (Z.pow_pos_nonneg 2 a); lia).
  destruct (Zdigits2_bounds m Hm) as [[H1 H2] Hd]. split.
  - destruct (Z_lt_le_dec a (Zdigits2 m)) as [|Hle]; [assumption|].
    assert (2 ^ Zdigits2 m <= 2 ^ a) by (apply Z.pow_le_mono_r; lia). lia.
  - destruct (Z_lt_le_dec b (Zdigits2 m)) as [Hlt|]; [|assumption].
    assert (2 ^ b <= 2 ^ (Zdigits2 m - 1)) by (apply Z.pow_le_mono_r; lia). lia.
Qed.

Lemma round_aux_rounds s m e l x w :
  0 < m -> located m l x ->
  53 <= Zdigits2 m -> -1074 <= Zdigits2 m + e - 53 -> Zdigits2 m + e <= 1023 ->
  (w == x * pow2 e)%Q ->
  exists M E,
    binary_round_aux 53 1024 s m e l = S754_finite s M E /\
    2 ^ 52 <= Zpos M < 2 ^ 53 /\
    Zdigits2 m + e - 53 <= E <= Zdigits2 m + e - 52 /\
    Rounds w (inject_Z (Zpos M) * pow2 E).
Proof.
  intros Hm Hloc Hd Hmin Hmax Hw.
  destruct (binary_round_aux_spec s m e l x Hm Hloc Hd Hmin Hmax)
    as (M & E & Hres & HM & HE & Hx & Hval).
  exists M, E. split; [exact Hres|]. split; [exact HM|]. split; [exact HE|].
  exists (Zdigits2 m + e - 53).
  assert (Hy : (w / pow2 (Zdigits2 m + e - 53) == x / pow2 (Zdigits2 m - 53))%Q).
  { replace (Zdigits2 m + e - 53) with (Zdigits2 m - 53 + e) by lia.
    rewrite Hw, pow2_add.
    pose proof (pow2_pos e). pose proof (pow2_pos (Zdigits2 m - 53)). field. lra. }
  split.
  - rewrite Hy. exact Hx.
  - rewrite Hval, (rne_comp _ _ Hy). reflexivity.
Qed.

Lemma finite_RoundsTo (s : bool) M E w :
  Rounds (if s then - w else w)%Q (inject_Z (Zpos M) * pow2 E) ->
  RoundsTo w (valueOf (S754_finite s M E)).
Proof.
  intros H. pose proof (Rounds_error _ _ H) as [Hpos _]. destruct s; cbn [valueOf].
  - right. right. split; [lra|].
    apply (Rounds_comp (- w) _ (inject_Z (Zpos M) * pow2 E)); [reflexivity | ring | exact H].
  - right. left. split; [exact Hpos | exact H].
Qed.

Lemma canonical_Rounds m e :
  2 ^ 52 <= Zpos m < 2 ^ 53 ->
  Rounds (inject_Z (Zpos m) * pow2 e) (inject_Z (Zpos m) * pow2 e).
Proof.
  intros Hm. exists e. pose proof (pow2_pos e) as HP.
  assert (Hy : (inject_Z (Zpos m) * pow2 e / pow2 e == inject_Z (Zpos m))%Q)
    by (field; lra).
  split.
  - rewrite Hy, (pow2_Z 52), (pow2_Z 53) by lia. rewrite <- Zle_Qle, <- Zlt_Qlt. exact Hm.
  - rewrite (rne_comp _ _ Hy), rne_Z. reflexivity.
Qed.

Lemma canonical_RoundsTo k x : canonical k x -> RoundsTo (valueOf x) (valueOf x).
Proof.
  destruct x as [s| | |s m e]; cbn [canonical]; try tauto.
  - intros _. left. split; reflexivity.
  - intros [Hm _]. apply finite_RoundsTo.
    apply (Rounds_comp (inject_Z (Zpos m) * pow2 e) _ (inject_Z (Zpos m) * pow2 e));
      [|reflexivity|apply canonical_Rounds; exact Hm].
    destruct s; cbn [valueOf]; ring.
Qed.

(** Multiplication. *)
Lemma SFmul_spec k1 k2 x y :
  canonical k1 x -> canonical k2 y -> 0 <= k1 -> 0 <= k2 -> k1 + k2 <= 900 ->
  canonical (k1 + k2 + 54) (SFmul 53 1024 x y) /\
  RoundsTo (valueOf x * valueOf y) (valueOf (SFmul 53 1024 x y)).
Proof.
  intros Hx Hy Hk1 Hk2 Hk.
  destruct x as [sx| | |sx mx ex], y as [sy| | |sy my ey];
    cbn [canonical] in Hx, Hy; try tauto; cbn [SFmul].
  - split; [exact I | ]. left. cbn [valueOf]. split; ring.
  - split; [exact I | ]. left. cbn [valueOf]. split; ring.
  - split; [exact I | ]. left. cbn [valueOf]. split; ring.
  - destruct Hx as [Hmx Hex], Hy as [Hmy Hey].
    assert (Hprod : 2 ^ 104 <= Zpos (mx * my) < 2 ^ 106).
    { rewrite Pos2Z.inj_mul.
      change (2 ^ 104) with (2 ^ 52 * 2 ^ 52). change (2 ^ 106) with (2 ^ 53 * 2 ^ 53).
      split; [apply Z.mul_le_mono_nonneg | apply Z.mul_lt_mono_nonneg]; lia. }
    pose proof (Zdigits2_range _ 104 106 ltac:(lia) Hprod) as Hd.
    destruct (round_aux_rounds (xorb sx sy) (Zpos (mx * my)) (ex + ey) loc_Exact
                (inject_Z (Zpos (mx * my)))
                (inject_Z (Zpos (mx * my)) * pow2 (ex + ey)))
      as (M & E & Hres & HM & HE & Hr); try lia.
    { cbn. reflexivity. }
    { reflexivity. }
    rewrite Hres. split; [cbn [canonical]; lia|].
    apply finite_RoundsTo.
    apply (Rounds_comp (inject_Z (Zpos (mx * my)) * pow2 (ex + ey)) _
             (inject_Z (Zpos M) * pow2 E)); [|reflexivity|exact Hr].
    rewrite Pos2Z.inj_mul, inject_Z_mult, pow2_add.
    destruct sx, sy; cbn [xorb valueOf]; ring.
Qed.

(** Division. *)
Lemma ratio_compare_half r b :
  0 < b -> (inject_Z r / inject_Z b ?= 1 # 2)%Q = (2 * r ?= b).
Proof.
  intros Hb. destruct b as [|b|b]; try lia.
  unfold Qcompare, Qdiv, Qmult, Qinv, inject_Z. cbn [Qnum Qden].
  rewrite !Z.mul_1_r, Z.mul_1_l, Pos.mul_1_l, (Z.mul_comm r 2). reflexivity.
Qed.

Lemma new_location_located b q r :
  0 < b -> 0 <= r < b ->
  located q (new_location b r) (inject_Z (q * b + r) / inject_Z b).
Proof.
  intros Hb Hr.
  assert (Hb' : (0 < inject_Z b)%Q).
  { change 0%Q with (inject_Z 0). rewrite <- Zlt_Qlt. exact Hb. }
  assert (Hx : (inject_Z (q * b + r) / inject_Z b == inject_Z q + inject_Z r / inject_Z b)%Q).
  { rewrite inject_Z_plus, inject_Z_mult. field. lra. }
  apply (located_comp _ _ (inject_Z q + inject_Z r / inject_Z b)); [symmetry; exact Hx|].
  set (t := (inject_Z r / inject_Z b)%Q).
  assert (Ht0 : r = 0 -> (t == 0)%Q).
  { intros ->. unfold t. change (inject_Z 0) with 0%Q. field. lra. }
  assert (Ht1 : 0 < r -> (0 < t)%Q).
  { intros H. unfold t. apply Qlt_shift_div_l; [exact Hb'|].
    rewrite Qmult_0_l. change 0%Q with (inject_Z 0). rewrite <- Zlt_Qlt. exact H. }
  assert (Ht2 : (t < 1)%Q).
  { unfold t. apply Qlt_shift_div_r; [exact Hb'|]. rewrite Qmult_1_l.
    rewrite <- Zlt_Qlt. lia. }
  pose proof (ratio_compare_half r b Hb) as Hcmp. fold t in Hcmp.
  clearbody t.
  unfold new_location, new_location_even, new_location_odd.
  destruct (Z.even b) eqn:Heven; cbv beta;
    (destruct (Z.eqb_spec r 0) as [Hr0|Hr0];
     [specialize (Ht0 Hr0); unfold located; lra|]);
    assert (Hrpos : 0 < r) by lia; specialize (Ht1 Hrpos).
  - destruct (2 * r ?= b) eqn:E; unfold located.
    + apply Qeq_alt in Hcmp. lra.
    + change (t < 1 # 2)%Q in Hcmp. lra.
    + apply Qgt_alt in Hcmp. lra.
  - destruct (2 * r + 1 ?= b) eqn:E; unfold located.
    + apply Z.compare_eq in E.
      assert (E2 : (2 * r ?= b) = Lt) by (apply Z.compare_lt_iff; lia).
      rewrite E2 in Hcmp. change (t < 1 # 2)%Q in Hcmp. lra.
    + pose proof (proj1 (Z.compare_lt_iff _ _) E) as E'.
      assert (E2 : (2 * r ?= b) = Lt) by (apply Z.compare_lt_iff; lia).
      rewrite E2 in Hcmp. change (t < 1 # 2)%Q in Hcmp. lra.
    + pose proof (proj1 (Z.compare_gt_iff _ _) E) as E'.
      assert (Hne : 2 * r <> b).
      { intros <-. rewrite Z.even_mul in Heven. discriminate Heven. }
      assert (E2 : (2 * r ?= b) = Gt) by (apply Z.compare_gt_iff; lia).
      rewrite E2 in Hcmp. apply Qgt_alt in Hcmp. lra.
Qed.

Lemma SFdiv_core_spec mx ex my ey :
  2 ^ 52 <= Zpos mx < 2 ^ 53 -> 2 ^ 52 <= Zpos my < 2 ^ 53 ->
  -1074 <= ex - ey - 53 ->
  SFdiv_core_binary 53 1024 (Zpos mx) ex (Zpos my) ey
  = ((Zpos mx * 2 ^ 53) / Zpos my, ex - ey - 53,
     new_location (Zpos my) ((Zpos mx * 2 ^ 53) mod Zpos my)).
Proof.
  intros Hmx Hmy Hmin. unfold SFdiv_core_binary.
  rewrite (Zdigits2_unique (Zpos mx) 53), (Zdigits2_unique (Zpos my) 53) by lia.
  replace (53 + ex - (53 + ey)) with (ex - ey) by lia.
  rewrite fexp_normal by lia.
  rewrite Z.min_l by lia.
  replace (ex - ey - (ex - ey - 53)) with 53 by lia.
  rewrite Z.shiftl_mul_pow2 by lia.
  unfold Z.div, Z.modulo.
  destruct (Z.div_eucl (Zpos mx * 2 ^ 53) (Zpos my)) as [q r]. reflexivity.
Qed.

Lemma SFdiv_spec k1 k2 x y :
  canonical k1 x -> canonical k2 y -> 0 <= k1 -> 0 <= k2 -> k1 + k2 <= 900 ->
  ~ (valueOf y == 0)%Q ->
  canonical (k1 + k2 + 54) (SFdiv 53 1024 x y) /\
  RoundsTo (valueOf x / valueOf y) (valueOf (SFdiv 53 1024 x y)).
Proof.
  intros Hx Hy Hk1 Hk2 Hk Hy0.
  destruct x as [sx| | |sx mx ex], y as [sy| | |sy my ey];
    cbn [canonical] in Hx, Hy; try tauto; cbn [SFdiv].
  - destruct Hy0. reflexivity.
  - split; [exact I | ]. left. cbn [valueOf]. split; [|reflexivity].
    unfold Qdiv. ring.
  - destruct Hy0. reflexivity.
  - destruct Hx as [Hmx Hex], Hy as [Hmy Hey].
    rewrite SFdiv_core_spec by lia.
    set (a := Zpos mx * 2 ^ 53). set (b := Zpos my).
    assert (Hb : 0 < b) by (unfold b; lia).
    pose proof (Z.mod_pos_bound a b Hb) as Hr.
    pose proof (Z.div_mod a b ltac:(lia)) as Hab.
    assert (Hq : 2 ^ 52 <= a / b < 2 ^ 54).
    { split.
      - apply Z.div_le_lower_bound; [exact Hb|].
        unfold a, b. change (2 ^ 53) with (2 * 2 ^ 52). nia.
      - apply Z.div_lt_upper_bound; [exact Hb|].
        unfold a, b. change (2 ^ 54) with (2 * 2 ^ 53). nia. }
    pose proof (Zdigits2_range _ 52 54 ltac:(lia) Hq) as Hd.
    assert (Hloc : located (a / b) (new_location b (a mod b))
                     (inject_Z a / inject_Z b)).
    { replace a with (a / b * b + a mod b) at 3 by lia.
      apply new_location_located; assumption. }
    destruct (round_aux_rounds (xorb sx sy) (a / b) (ex - ey - 53)
                (new_location b (a mod b)) (inject_Z a / inject_Z b)
                (inject_Z (Zpos mx) * pow2 ex / (inject_Z (Zpos my) * pow2 ey)))
      as (M & E & Hres & HM & HE & Hround); try lia; try exact Hloc.
    { unfold a, b. rewrite inject_Z_mult, <- (pow2_Z 53) by lia.
      replace (ex - ey - 53) with (ex + (- ey) + (- 53)) by lia.
      rewrite !pow2_add, !pow2_opp. change (pow2 (-53)) with (/ pow2 53)%Q.
      assert ((0 < inject_Z (Zpos my))%Q)
        by (change 0%Q with (inject_Z 0); rewrite <- Zlt_Qlt; lia).
      abstract_pow2. field. repeat split; lra. }
    rewrite Hres. split; [cbn [canonical]; lia|].
    apply finite_RoundsTo.
    apply (Rounds_comp (inject_Z (Zpos mx) * pow2 ex / (inject_Z (Zpos my) * pow2 ey)) _
             (inject_Z (Zpos M) * pow2 E)); [|reflexivity|exact Hround].
    assert ((0 < inject_Z (Zpos my))%Q)
      by (change 0%Q with (inject_Z 0); rewrite <- Zlt_Qlt; lia).
    destruct sx, sy; cbn [xorb valueOf]; abstract_pow2; field; lra.
Qed.
End Operations.

Section Normalize.
Lemma shl_iter m d : Zpos (Pos.iter xO m d) = Zpos m * 2 ^ Zpos d.
Proof.
  change (Pos.iter xO m d) with (shift_pos d m). rewrite shift_pos_correct.
  change (Z.pow_pos 2 d) with (2 ^ Zpos d). lia.
Qed.

Lemma shl_align_fst m e e' :
  e' <= e -> Zpos (fst (shl_align m e e')) = Zpos m * 2 ^ (e - e').
Proof.
  intros He. unfold shl_align. destruct (e' - e) as [|d|d] eqn:Ed; try lia.
  - replace (e - e') with 0 by lia. cbn [fst]. lia.
  - cbn [fst]. rewrite shl_iter. f_equal. f_equal. lia.
Qed.

Lemma shl_align_snd m e e' : e' <= e -> snd (shl_align m e e') = e'.
Proof.
  intros He. unfold shl_align. destruct (e' - e) as [|d|d] eqn:Ed; try lia; cbn [snd]; lia.
Qed.

Lemma shl_align_id m e e' : e <= e' -> shl_align m e e' = (m, e).
Proof.
  intros He. unfold shl_align. destruct (e' - e) as [|d|d] eqn:Ed; try lia; reflexivity.
Qed.

(** Rounding of [m * 2 ^ e], as done after an addition or a conversion. *)
Lemma binary_round_spec s m e :
  -1074 <= Zdigits2 (Zpos m) + e - 53 -> Zdigits2 (Zpos m) + e <= 1023 ->
  exists M E,
    binary_round 53 1024 s m e = S754_finite s M E /\
    2 ^ 52 <= Zpos M < 2 ^ 53 /\
    Zdigits2 (Zpos m) + e - 53 <= E <= Zdigits2 (Zpos m) + e - 52 /\
    Rounds (inject_Z (Zpos m) * pow2 e) (inject_Z (Zpos M) * pow2 E).
Proof.
  intros Hmin Hmax. unfold binary_round.
  change (Zpos (digits2_pos m)) with (Zdigits2 (Zpos m)).
  destruct (Zdigits2_bounds (Zpos m) ltac:(lia)) as [[Hlo Hhi] Hd].
  set (d := Zdigits2 (Zpos m)) in *.
  rewrite fexp_normal by lia.
  destruct (Z_lt_le_dec d 53) as [Hsmall|Hbig].
  - pose proof (shl_align_fst m e (d + e - 53) ltac:(lia)) as Hfst.
    pose proof (shl_align_snd m e (d + e - 53) ltac:(lia)) as Hsnd.
    destruct (shl_align m e (d + e - 53)) as [mz ez]. cbn [fst snd] in Hfst, Hsnd. subst ez.
    replace (e - (d + e - 53)) with (53 - d) in Hfst by lia.
    assert (Hmz : 2 ^ 52 <= Zpos mz < 2 ^ 53).
    { rewrite Hfst.
      assert (H1 : 2 ^ 52 = 2 ^ (d - 1) * 2 ^ (53 - d))
        by (rewrite <- Z.pow_add_r by lia; f_equal; lia).
      assert (H2 : 2 ^ 53 = 2 ^ d * 2 ^ (53 - d))
        by (rewrite <- Z.pow_add_r by lia; f_equal; lia).
      rewrite H1, H2.
      pose proof (Z.pow_pos_nonneg 2 (53 - d) ltac:(lia) ltac:(lia)). nia. }
    assert (Hdz : Zdigits2 (Zpos mz) = 53) by (apply Zdigits2_unique; lia).
    destruct (round_aux_rounds s (Zpos mz) (d + e - 53) loc_Exact (inject_Z (Zpos mz))
                (inject_Z (Zpos m) * pow2 e))
      as (M & E & Hres & HM & HE & Hr); try lia.
    { reflexivity. }
    { rewrite Hfst, inject_Z_mult. rewrite <- (pow2_Z (53 - d)) by lia.
      replace e with (53 - d + (d + e - 53)) at 1 by lia.
      rewrite pow2_add. ring. }
    exists M, E. rewrite Hdz in HE. repeat split; try assumption; lia.
  - rewrite shl_align_id by lia.
    destruct (round_aux_rounds s (Zpos m) e loc_Exact (inject_Z (Zpos m))
                (inject_Z (Zpos m) * pow2 e))
      as (M & E & Hres & HM & HE & Hr); try (fold d; lia).
    { reflexivity. }
    { reflexivity. }
    exists M, E. fold d in HE. repeat split; try assumption; lia.
Qed.

(** Conversion of an integer below [2 ^ 53] is exact. *)
Lemma ofZ_spec z :
  - 2 ^ 53 < z < 2 ^ 53 ->
  canonical 53 (binary_normalize 53 1024 z 0 false) /\
  (valueOf (binary_normalize 53 1024 z 0 false) == inject_Z z)%Q.
Proof.
  intros Hz. destruct z as [|p|p]; cbn [binary_normalize].
  - split; [exact I | reflexivity].
  - pose proof (Zdigits2_range (Zpos p) 0 53 ltac:(lia) ltac:(lia)) as Hd.
    destruct (binary_round_spec false p 0) as (M & E & Hres & HM & HE & Hr); try lia.
    rewrite Hres. split; [cbn [canonical]; lia|]. cbn [valueOf].
    rewrite (Rounds_exact _ _ (Zpos p) 0 Hr); [|reflexivity|lia].
    change (pow2 0) with 1%Q. ring.
  - pose proof (Zdigits2_range (Zpos p) 0 53 ltac:(lia) ltac:(lia)) as Hd.
    destruct (binary_round_spec true p 0) as (M & E & Hres & HM & HE & Hr); try lia.
    rewrite Hres. split; [cbn [canonical]; lia|]. cbn [valueOf].
    assert (Hv := Rounds_exact _ _ (Zpos p) 0 Hr (Qeq_refl _) ltac:(lia)).
    change (inject_Z (Zneg p)) with (- inject_Z (Zpos p))%Q.
    change (pow2 0) with 1%Q in Hv. lra.
Qed.
End Normalize.

Section Subtraction.
Lemma binary_normalize_spec D e k :
  D <> 0 -> - 2 ^ (54 + k) < D * 2 ^ 0 < 2 ^ (54 + k) -> 0 <= k ->
  -1074 <= e - 52 -> 54 + k + e <= 1023 ->
  exists s M E,
    binary_normalize 53 1024 D e false = S754_finite s M E /\
    2 ^ 52 <= Zpos M < 2 ^ 53 /\
    e - 52 <= E <= e + k + 2 /\
    RoundsTo (inject_Z D * pow2 e) (valueOf (S754_finite s M E)).
Proof.
  intros HD Hbound Hk Hmin Hmax. rewrite Z.mul_1_r in Hbound.
  destruct D as [|p|p]; [congruence| |]; cbn [binary_normalize].
  - pose proof (Zdigits2_range (Zpos p) 0 (54 + k) ltac:(lia) ltac:(lia)) as Hd.
    destruct (binary_round_spec false p e) as (M & E & Hres & HM & HE & Hr); try lia.
    exists false, M, E. split; [exact Hres|]. split; [exact HM|]. split; [lia|].
    apply finite_RoundsTo. exact Hr.
  - pose proof (Zdigits2_range (Zpos p) 0 (54 + k) ltac:(lia) ltac:(lia)) as Hd.
    destruct (binary_round_spec true p e) as (M & E & Hres & HM & HE & Hr); try lia.
    exists true, M, E. split; [exact Hres|]. split; [exact HM|]. split; [lia|].
    apply finite_RoundsTo.
    apply (Rounds_comp (inject_Z (Zpos p) * pow2 e) _ (inject_Z (Zpos M) * pow2 E));
      [|reflexivity|exact Hr].
    change (inject_Z (Zneg p)) with (- inject_Z (Zpos p))%Q. ring.
Qed.

Lemma cond_Zopp_value (s : bool) m e d :
  0 <= d ->
  (inject_Z (cond_Zopp s (Zpos m * 2 ^ d)) * pow2 e
   == (if s then - inject_Z (Zpos m) else inject_Z (Zpos m)) * pow2 (e + d))%Q.
Proof.
  intros Hd. rewrite pow2_add, (pow2_Z d) by assumption.
  destruct s; cbn [cond_Zopp]; rewrite ?inject_Z_opp, inject_Z_mult; ring.
Qed.

(** Subtraction. *)
Lemma SFsub_spec k x y :
  canonical k x -> canonical k y -> 0 <= k <= 900 ->
  canonical (k + 53) (SFsub 53 1024 x y) /\
  RoundsTo (valueOf x - valueOf y) (valueOf (SFsub 53 1024 x y)).
Proof.
  intros Hx Hy Hk.
  destruct x as [sx| | |sx mx ex], y as [sy| | |sy my ey];
    cbn [canonical] in Hx, Hy; try tauto; cbn [SFsub].
  - assert (Hz : exists s, (match sx, sy with
                            | true, false | false, true => S754_zero sx
                            | _, _ => S754_zero false
                            end) = S754_zero s)
      by (destruct sx, sy; eexists; reflexivity).
    destruct Hz as [s ->]. split; [exact I | ]. left. cbn [valueOf]. split; ring.
  - split; [cbn [canonical]; lia|].
    apply (RoundsTo_comp (valueOf (S754_finite (negb sy) my ey)) _
             (valueOf (S754_finite (negb sy) my ey)));
      [|reflexivity|apply (canonical_RoundsTo k); cbn [canonical]; exact Hy].
    destruct sy; cbn [negb valueOf]; ring.
  - split; [cbn [canonical]; lia|].
    apply (RoundsTo_comp (valueOf (S754_finite sx mx ex)) _
             (valueOf (S754_finite sx mx ex)));
      [|reflexivity|apply (canonical_RoundsTo k); cbn [canonical]; exact Hx].
    cbn [valueOf]. ring.
  - destruct Hx as [Hmx Hex], Hy as [Hmy Hey].
    set (ez := Z.min ex ey).
    rewrite (shl_align_fst mx ex ez), (shl_align_fst my ey ez) by (unfold ez; lia).
    set (D := cond_Zopp sx (Zpos mx * 2 ^ (ex - ez))
              - cond_Zopp sy (Zpos my * 2 ^ (ey - ez))).
    assert (Hval : (inject_Z D * pow2 ez
                    == valueOf (S754_finite sx mx ex) - valueOf (S754_finite sy my ey))%Q).
    { unfold D, Z.sub. rewrite inject_Z_plus, inject_Z_opp.
      transitivity
        (inject_Z (cond_Zopp sx (Zpos mx * 2 ^ (ex + - ez))) * pow2 ez
         - inject_Z (cond_Zopp sy (Zpos my * 2 ^ (ey + - ez))) * pow2 ez)%Q; [ring|].
      rewrite !cond_Zopp_value by (unfold ez; lia).
      replace (ez + (ex + - ez)) with ex by lia. replace (ez + (ey + - ez)) with ey by lia.
      cbn [valueOf]. reflexivity. }
    destruct (Z.eq_dec D 0) as [HD0|HD0].
    + rewrite HD0. cbn [binary_normalize]. split; [exact I | ]. left.
      cbn [valueOf] in Hval |- *. rewrite <- Hval, HD0. split; ring.
    + set (kk := Z.max ex ey - ez).
      assert (Hkk : 0 <= kk) by (unfold kk, ez; lia).
      assert (HT1 : 2 ^ (ex - ez) <= 2 ^ kk) by (apply Z.pow_le_mono_r; unfold kk, ez; lia).
      assert (HT2 : 2 ^ (ey - ez) <= 2 ^ kk) by (apply Z.pow_le_mono_r; unfold kk, ez; lia).
      pose proof (Z.pow_pos_nonneg 2 (ex - ez) ltac:(lia) ltac:(unfold ez; lia)) as HP1.
      pose proof (Z.pow_pos_nonneg 2 (ey - ez) ltac:(lia) ltac:(unfold ez; lia)) as HP2.
      assert (Hpow : 2 ^ (54 + kk) = 2 ^ 54 * 2 ^ kk) by (apply Z.pow_add_r; lia).
      destruct (binary_normalize_spec D ez kk) as (s & M & E & Hres & HM & HE & Hr);
        try (unfold kk, ez; lia); try exact HD0.
      { rewrite Z.mul_1_r, Hpow. unfold D.
        change (2 ^ 54) with (2 * 2 ^ 53).
        destruct sx, sy; cbn [cond_Zopp]; nia. }
      rewrite Hres. split; [cbn [canonical]; unfold kk, ez in HE; lia|].
      apply (RoundsTo_comp (inject_Z D * pow2 ez) _ (valueOf (S754_finite s M E)));
        [exact Hval | reflexivity | exact Hr].
Qed.
End Subtraction.

Section Comparison.
Lemma canonical_value_lt m1 e1 m2 e2 :
  2 ^ 52 <= Zpos m1 < 2 ^ 53 -> 2 ^ 52 <= Zpos m2 < 2 ^ 53 -> e1 < e2 ->
  (inject_Z (Zpos m1) * pow2 e1 < inject_Z (Zpos m2) * pow2 e2)%Q.
Proof.
  intros H1 H2 He.
  assert (Hp : (pow2 (e1 + 1) <= pow2 e2)%Q) by (apply pow2_le; lia).
  rewrite pow2_add in Hp. change (pow2 1) with 2%Q in Hp.
  assert (Hm1 : (inject_Z (Zpos m1) < 9007199254740992)%Q).
  { change 9007199254740992%Q with (inject_Z (2 ^ 53)). rewrite <- Zlt_Qlt. lia. }
  assert (Hm2 : (4503599627370496 <= inject_Z (Zpos m2))%Q).
  { change 4503599627370496%Q with (inject_Z (2 ^ 52)). rewrite <- Zle_Qle. lia. }
  abstract_pow2.
  assert (Ha : (0 < (9007199254740992 - inject_Z (Zpos m1)) * P)%Q)
    by (apply Qmult_lt_0_compat; lra).
  assert (Hb : (0 <= (inject_Z (Zpos m2) - 4503599627370496) * P0)%Q)
    by (apply Qmult_le_0_compat; lra).
  nra.
Qed.

Lemma canonical_compare m1 e1 m2 e2 :
  2 ^ 52 <= Zpos m1 < 2 ^ 53 -> 2 ^ 52 <= Zpos m2 < 2 ^ 53 ->
  (inject_Z (Zpos m1) * pow2 e1 ?= inject_Z (Zpos m2) * pow2 e2)%Q
  = match e1 ?= e2 with
    | Lt => Lt
    | Gt => Gt
    | Eq => Pos.compare_cont Eq m1 m2
    end.
Proof.
  intros H1 H2. destruct (Z.compare_spec e1 e2) as [->|He|He].
  - change (Pos.compare_cont Eq m1 m2) with (Zpos m1 ?= Zpos m2).
    pose proof (pow2_pos e2) as HP.
    destruct (Z.compare_spec (Zpos m1) (Zpos m2)) as [Hm|Hm|Hm].
    + apply (proj1 (Qeq_alt _ _)). rewrite Hm. reflexivity.
    + apply (proj1 (Qlt_alt _ _)). apply Qmult_lt_compat_r; [exact HP|]. rewrite <- Zlt_Qlt. exact Hm.
    + apply (proj1 (Qgt_alt _ _)). apply Qmult_lt_compat_r; [exact HP|]. rewrite <- Zlt_Qlt. exact Hm.
  - apply (proj1 (Qlt_alt _ _)). apply canonical_value_lt; assumption.
  - apply (proj1 (Qgt_alt _ _)). apply canonical_value_lt; assumption.
Qed.

Lemma canonical_value_pos m e : (0 < inject_Z (Zpos m) * pow2 e)%Q.
Proof.
  apply Qmult_lt_0_compat; [|apply pow2_pos].
  change 0%Q with (inject_Z 0). rewrite <- Zlt_Qlt. lia.
Qed.

(** Comparison of two numbers is comparison of their values. *)
Lemma SFcompare_spec k1 k2 x y :
  canonical k1 x -> canonical k2 y ->
  SFcompare x y = Some (valueOf x ?= valueOf y)%Q.
Proof.
  intros Hx Hy.
  destruct x as [sx| | |sx mx ex], y as [sy| | |sy my ey];
    cbn [canonical] in Hx, Hy; try tauto; cbn [SFcompare valueOf].
  - pose proof (canonical_value_pos my ey) as Hp. f_equal. symmetry. destruct sy.
    + apply (proj1 (Qgt_alt _ _)). lra.
    + apply (proj1 (Qlt_alt _ _)). lra.
  - pose proof (canonical_value_pos mx ex) as Hp. f_equal. symmetry. destruct sx.
    + apply (proj1 (Qlt_alt _ _)). lra.
    + apply (proj1 (Qgt_alt _ _)). lra.
  - destruct Hx as [Hmx _], Hy as [Hmy _].
    pose proof (canonical_value_pos mx ex) as Hpx.
    pose proof (canonical_value_pos my ey) as Hpy.
    pose proof (canonical_compare mx ex my ey Hmx Hmy) as Hc.
    f_equal. symmetry. destruct sx, sy.
    + transitivity (CompOpp (inject_Z (Zpos mx) * pow2 ex ?= inject_Z (Zpos my) * pow2 ey)%Q);
        [|rewrite Hc; destruct (ex ?= ey); reflexivity].
      destruct (inject_Z (Zpos mx) * pow2 ex ?= inject_Z (Zpos my) * pow2 ey)%Q eqn:E;
        cbn [CompOpp].
      * apply (proj2 (Qeq_alt _ _)) in E. apply (proj1 (Qeq_alt _ _)). lra.
      * apply (proj2 (Qlt_alt _ _)) in E. apply (proj1 (Qgt_alt _ _)). lra.
      * apply (proj2 (Qgt_alt _ _)) in E. apply (proj1 (Qlt_alt _ _)). lra.
    + apply (proj1 (Qlt_alt _ _)). lra.
    + apply (proj1 (Qgt_alt _ _)). lra.
    + exact Hc.
Qed.

Lemma SFltb_spec k1 k2 x y :
  canonical k1 x -> canonical k2 y ->
  SFltb x y = true <-> (valueOf x < valueOf y)%Q.
Proof.
  intros Hx Hy. unfold SFltb. rewrite (SFcompare_spec k1 k2 x y Hx Hy).
  rewrite Qlt_alt. destruct (valueOf x ?= valueOf y)%Q; split; congruence.
Qed.
End Comparison.

Section RoundsToFacts.
Lemma scaled_pos k j : 0 < k -> (0 < inject_Z k * pow2 j)%Q.
Proof.
  intros Hk. apply Qmult_lt_0_compat; [|apply pow2_pos].
  change 0%Q with (inject_Z 0). rewrite <- Zlt_Qlt. exact Hk.
Qed.

Lemma RoundsTo_zero w r : (w == 0)%Q -> RoundsTo w r -> (r == 0)%Q.
Proof. intros Hw [[_ H]|[[H _]|[H _]]]; [exact H | lra | lra]. Qed.

Lemma RoundsTo_pos w r : (0 < w)%Q -> RoundsTo w r -> Rounds w r.
Proof. intros Hw [[H _]|[[_ H]|[H _]]]; [lra | exact H | lra]. Qed.

Lemma RoundsTo_error w r :
  (0 < w)%Q -> RoundsTo w r ->
  (w - w * (1 # 9007199254740992) <= r <= w + w * (1 # 9007199254740992))%Q.
Proof. intros Hw H. exact (proj2 (Rounds_error w r (RoundsTo_pos w r Hw H))). Qed.

Lemma RoundsTo_neg w r : (w < 0)%Q -> RoundsTo w r -> (r < 0)%Q.
Proof.
  intros Hw [[H _]|[[H _]|[_ H]]]; [lra | lra | ].
  destruct (Rounds_error _ _ H) as [H0 [Hlo _]]. lra.
Qed.

(** A value with a mantissa below [2 ^ 53] is not changed by rounding. *)
Lemma RoundsTo_exact w r k j :
  - 2 ^ 53 < k < 2 ^ 53 -> (w == inject_Z k * pow2 j)%Q -> RoundsTo w r -> (r == w)%Q.
Proof.
  intros Hk Hw H.
  destruct (Z.lt_trichotomy k 0) as [Hn|[->|Hp]].
  - pose proof (scaled_pos (- k) j ltac:(lia)) as Hs. rewrite inject_Z_opp in Hs.
    destruct H as [[H _]|[[H _]|[_ H]]]; [lra | lra | ].
    assert (E : (- r == - w)%Q).
    { apply (Rounds_exact (- w) (- r) (- k) j H); [|lia].
      rewrite inject_Z_opp, Hw. ring. }
    lra.
  - assert (Hw0 : (w == 0)%Q) by (rewrite Hw; ring).
    rewrite (RoundsTo_zero w r Hw0 H). symmetry. exact Hw0.
  - pose proof (scaled_pos k j Hp) as Hs.
    apply (Rounds_exact w r k j); [|exact Hw|lia].
    apply RoundsTo_pos; [lra | exact H].
Qed.

Lemma RoundsTo_ge w r k j :
  0 < k < 2 ^ 53 -> (inject_Z k * pow2 j <= w)%Q -> RoundsTo w r ->
  (inject_Z k * pow2 j <= r)%Q.
Proof.
  intros Hk Hw H. pose proof (scaled_pos k j ltac:(lia)) as Hs.
  apply (Rounds_ge w r k j); [|exact Hk|exact Hw].
  apply RoundsTo_pos; [lra | exact H].
Qed.
End RoundsToFacts.

Section FloorCeil.
Lemma signed_value s m e :
  (valueOf (S754_finite s m e)
   == inject_Z (if s then Z.neg m else Z.pos m) * pow2 e)%Q.
Proof. destruct s; cbn [valueOf]; [|reflexivity]. change (Z.neg m) with (- Z.pos m). rewrite inject_Z_opp. reflexivity. Qed.

(** [Math.floor] of a finite Number is the floor of its value. *)
Lemma floor_spec x :
  match x with S754_zero _ | S754_finite _ _ _ => True | _ => False end ->
  Binary64.floor x = Some (Qfloor (valueOf x)).
Proof.
  destruct x as [s| | |s m e]; [reflexivity | contradiction | contradiction | intros _].
  unfold Binary64.floor. f_equal. rewrite (Qfloor_comp _ _ (signed_value s m e)).
  set (n := if s then Z.neg m else Z.pos m).
  destruct (Z.leb_spec 0 e) as [He|He].
  - rewrite <- (Qfloor_Z (n * 2 ^ e)). apply Qfloor_comp.
    rewrite inject_Z_mult, (pow2_Z e He). reflexivity.
  - rewrite (Zdiv_Qdiv n (2 ^ (- e))). apply Qfloor_comp.
    rewrite <- (pow2_Z (- e)) by lia. rewrite pow2_opp.
    pose proof (pow2_pos e). field. lra.
Qed.

Lemma valueOf_opp x : (valueOf (SFopp x) == - valueOf x)%Q.
Proof. destruct x as [s| | |[|] m e]; cbn [SFopp valueOf negb]; ring. Qed.

Lemma ceil_spec x :
  match x with S754_zero _ | S754_finite _ _ _ => True | _ => False end ->
  Binary64.ceil x = Some (Qceiling (valueOf x)).
Proof.
  intros Hx. unfold Binary64.ceil. rewrite floor_spec.
  - cbn. f_equal. unfold Qceiling. f_equal. apply Qfloor_comp. apply valueOf_opp.
  - destruct x; cbn [SFopp]; tauto.
Qed.

Lemma canonical_finite k x :
  canonical k x -> match x with S754_zero _ | S754_finite _ _ _ => True | _ => False end.
Proof. destruct x; cbn [canonical]; tauto. Qed.
End FloorCeil.

Section Binary64Facts.
Implicit Types present total : Z.

Lemma ofZ_canonical z :
  - 2 ^ 53 < z < 2 ^ 53 -> canonical 53 (Binary64.ofZ z).
Proof. intros Hz. exact (proj1 (ofZ_spec z Hz)). Qed.

Lemma ofZ_value z :
  - 2 ^ 53 < z < 2 ^ 53 -> (valueOf (Binary64.ofZ z) == inject_Z z)%Q.
Proof. intros Hz. exact (proj2 (ofZ_spec z Hz)). Qed.

Lemma c075_canonical : canonical 53 Binary64.c075.
Proof. cbn. lia. Qed.

Lemma c025_canonical : canonical 54 Binary64.c025.
Proof. cbn. lia. Qed.

Lemma c075_value : (valueOf Binary64.c075 == 3 # 4)%Q.
Proof. vm_compute. reflexivity. Qed.

Lemma c025_value : (valueOf Binary64.c025 == 1 # 4)%Q.
Proof. vm_compute. reflexivity. Qed.

(** Rounding the quotient and then the product keeps the percentage on
    its side of 75. *)
Lemma percent_rounding present total (x q pct : Q) :
  0 < total <= 2 ^ 48 -> - 2 ^ 48 <= present <= 2 ^ 48 ->
  (x == inject_Z present / inject_Z total)%Q ->
  RoundsTo x q -> RoundsTo (q * 100) pct ->
  (pct ?= 75)%Q = (4 * present ?= 3 * total).
Proof.
  intros Ht Hp Hx Hq Hpct.
  assert (HT : (0 < inject_Z total)%Q)
    by (change 0%Q with (inject_Z 0); rewrite <- Zlt_Qlt; lia).
  assert (HT' : (inject_Z total <= 281474976710656)%Q)
    by (change 281474976710656%Q with (inject_Z (2 ^ 48)); rewrite <- Zle_Qle; lia).
  assert (HxT : (x * inject_Z total == inject_Z present)%Q)
    by (rewrite Hx; field; lra).
  destruct (Z.compare_spec (4 * present) (3 * total)) as [He|Hl|Hg].
  - assert (E : (inject_Z (4 * present) == inject_Z (3 * total))%Q) by (rewrite He; reflexivity).
    rewrite !inject_Z_mult in E.
    change (inject_Z 4) with 4%Q in E. change (inject_Z 3) with 3%Q in E.
    assert (Hx34 : (x == inject_Z 3 * pow2 (-2))%Q).
    { change (inject_Z 3 * pow2 (-2))%Q with (3 # 4)%Q.
      assert (H0 : ((x - (3 # 4)) * inject_Z total == 0)%Q) by lra.
      apply Qmult_integral in H0. destruct H0; lra. }
    pose proof (RoundsTo_exact x q 3 (-2) ltac:(lia) Hx34 Hq) as Eq1.
    assert (H75 : (q * 100 == inject_Z 75 * pow2 0)%Q).
    { rewrite Eq1, Hx34. reflexivity. }
    pose proof (RoundsTo_exact _ pct 75 0 ltac:(lia) H75 Hpct) as Eq2.
    apply (proj1 (Qeq_alt _ _)). rewrite Eq2, H75. reflexivity.
  - apply (proj1 (Qlt_alt _ _)).
    destruct (Z.lt_trichotomy present 0) as [Hn|[->|Hpos]].
    + assert (HP : (inject_Z present < 0)%Q)
        by (change 0%Q with (inject_Z 0); rewrite <- Zlt_Qlt; lia).
      assert (Hx0 : (x < 0)%Q).
      { destruct (Qlt_le_dec x 0) as [|Hge]; [assumption|].
        pose proof (Qmult_le_0_compat _ _ Hge (Qlt_le_weak _ _ HT)). lra. }
      pose proof (RoundsTo_neg x q Hx0 Hq) as Hq0.
      assert (Hw : (q * 100 < 0)%Q) by lra.
      pose proof (RoundsTo_neg _ pct Hw Hpct). lra.
    + assert (Hx0 : (x == 0)%Q).
      { change (inject_Z 0) with 0%Q in HxT. apply Qmult_integral in HxT.
        destruct HxT; lra. }
      pose proof (RoundsTo_zero x q Hx0 Hq) as Hq0.
      assert (Hw : (q * 100 == 0)%Q) by lra.
      pose proof (RoundsTo_zero _ pct Hw Hpct). lra.
    + assert (HP : (0 < inject_Z present)%Q)
        by (change 0%Q with (inject_Z 0); rewrite <- Zlt_Qlt; lia).
      assert (Hx0 : (0 < x)%Q).
      { destruct (Qlt_le_dec 0 x) as [|Hle]; [assumption|].
        assert (0 <= (- x) * inject_Z total)%Q
          by (apply Qmult_le_0_compat; lra). lra. }
      assert (Hi : (inject_Z (4 * present + 1) <= inject_Z (3 * total))%Q)
        by (rewrite <- Zle_Qle; lia).
      rewrite inject_Z_plus, !inject_Z_mult in Hi.
      change (inject_Z 4) with 4%Q in Hi. change (inject_Z 3) with 3%Q in Hi.
      change (inject_Z 1) with 1%Q in Hi.
      assert (Hgap : (1 <= (3 - 4 * x) * 281474976710656)%Q).
      { assert (H34 : (0 <= 3 - 4 * x)%Q).
        { destruct (Qlt_le_dec (3 - 4 * x) 0) as [Hneg|]; [|assumption].
          assert (0 <= (4 * x - 3) * inject_Z total)%Q
            by (apply Qmult_le_0_compat; lra). lra. }
        assert (0 <= (3 - 4 * x) * (281474976710656 - inject_Z total))%Q
          by (apply Qmult_le_0_compat; lra). lra. }
      pose proof (RoundsTo_error x q Hx0 Hq) as [_ Hqhi].
      assert (Hq0 : (0 < q * 100)%Q).
      { pose proof (RoundsTo_error x q Hx0 Hq) as [Hqlo _]. lra. }
      pose proof (RoundsTo_error _ pct Hq0 Hpct) as [_ Hphi]. lra.
  - apply (proj1 (Qgt_alt _ _)).
    assert (HP : (0 < inject_Z present)%Q)
      by (change 0%Q with (inject_Z 0); rewrite <- Zlt_Qlt; lia).
    assert (Hx0 : (0 < x)%Q).
    { destruct (Qlt_le_dec 0 x) as [|Hle]; [assumption|].
      assert (0 <= (- x) * inject_Z total)%Q
        by (apply Qmult_le_0_compat; lra). lra. }
    assert (Hi : (inject_Z (3 * total + 1) <= inject_Z (4 * present))%Q)
      by (rewrite <- Zle_Qle; lia).
    rewrite inject_Z_plus, !inject_Z_mult in Hi.
    change (inject_Z 4) with 4%Q in Hi. change (inject_Z 3) with 3%Q in Hi.
    change (inject_Z 1) with 1%Q in Hi.
    assert (Hgap : (1 <= (4 * x - 3) * 281474976710656)%Q).
    { assert (H34 : (0 <= 4 * x - 3)%Q).
      { destruct (Qlt_le_dec (4 * x - 3) 0) as [Hneg|]; [|assumption].
        assert (0 <= (3 - 4 * x) * inject_Z total)%Q
          by (apply Qmult_le_0_compat; lra). lra. }
      assert (0 <= (4 * x - 3) * (281474976710656 - inject_Z total))%Q
        by (apply Qmult_le_0_compat; lra). lra. }
    pose proof (RoundsTo_error x q Hx0 Hq) as [Hqlo _].
    assert (Hq0 : (0 < q * 100)%Q) by lra.
    pose proof (RoundsTo_error _ pct Hq0 Hpct) as [Hplo _].
    assert (Hx2 : (x <= 4 * 281474976710656)%Q).
    { assert (0 <= x * (inject_Z total - 1))%Q.
      { apply Qmult_le_0_compat; [lra|].
        assert (inject_Z 1 <= inject_Z total)%Q by (rewrite <- Zle_Qle; lia).
        change (inject_Z 1) with 1%Q in *. lra. }
      assert (inject_Z present <= 281474976710656)%Q
        by (change 281474976710656%Q with (inject_Z (2 ^ 48)); rewrite <- Zle_Qle; lia).
      lra. }
    lra.
Qed.
End Binary64Facts.

Section Binary64Calculator.
Implicit Types present total : Z.

Lemma inject_Z_pos z : 0 < z -> (0 < inject_Z z)%Q.
Proof. intros H. change 0%Q with (inject_Z 0). rewrite <- Zlt_Qlt. exact H. Qed.

(** The percentage compares with 75 as [4 * present] with [3 * total]. *)
Lemma percentage_compare present total :
  0 < total <= 2 ^ 48 -> - 2 ^ 48 <= present <= 2 ^ 48 ->
  SFcompare (Binary64.percentageOf present total) (Binary64.ofZ 75)
  = Some (4 * present ?= 3 * total).
Proof.
  intros Ht Hp. unfold Binary64.percentageOf.
  destruct (Z.ltb_spec 0 total) as [_|]; [|lia].
  pose proof (ofZ_canonical present ltac:(lia)) as HcP.
  pose proof (ofZ_value present ltac:(lia)) as HvP.
  pose proof (ofZ_canonical total ltac:(lia)) as HcT.
  pose proof (ofZ_value total ltac:(lia)) as HvT.
  pose proof (inject_Z_pos total ltac:(lia)) as HT.
  destruct (SFdiv_spec 53 53 (Binary64.ofZ present) (Binary64.ofZ total) HcP HcT
              ltac:(lia) ltac:(lia) ltac:(lia)) as [Hcd Hrd].
  { rewrite HvT. lra. }
  destruct (SFmul_spec (53 + 53 + 54) 53 _ (Binary64.ofZ 100) Hcd
              (ofZ_canonical 100 ltac:(lia)) ltac:(lia) ltac:(lia) ltac:(lia))
    as [Hcm Hrm].
  unfold Binary64.mul, Binary64.div, Binary64.prec, Binary64.emax.
  rewrite (SFcompare_spec _ 53 _ _ Hcm (ofZ_canonical 75 ltac:(lia))).
  f_equal. rewrite (ofZ_value 75) by lia.
  apply (percent_rounding present total
           (valueOf (Binary64.ofZ present) / valueOf (Binary64.ofZ total))
           (valueOf (SFdiv 53 1024 (Binary64.ofZ present) (Binary64.ofZ total))));
    [exact Ht | exact Hp | rewrite HvP, HvT; reflexivity | exact Hrd | ].
  refine (RoundsTo_comp _ _ _ _ _ (Qeq_refl _) Hrm).
  rewrite (ofZ_value 100) by lia. reflexivity.
Qed.

Lemma percentage_nonpos present total :
  total <= 0 -> Binary64.percentageOf present total = S754_zero false.
Proof.
  intros Ht. unfold Binary64.percentageOf.
  destruct (Z.ltb_spec 0 total); [lia | reflexivity].
Qed.

(** [(0.75 * total - present) / 0.25] is computed without rounding. *)
Lemma needed_exact present total :
  - 2 ^ 48 <= present <= 2 ^ 48 -> - 2 ^ 48 <= total <= 2 ^ 48 ->
  Binary64.ceil
    (Binary64.div
       (Binary64.sub (Binary64.mul Binary64.c075 (Binary64.ofZ total))
          (Binary64.ofZ present))
       Binary64.c025)
  = Some (3 * total - 4 * present).
Proof.
  intros Hp Ht.
  pose proof (ofZ_canonical present ltac:(lia)) as HcP.
  pose proof (ofZ_value present ltac:(lia)) as HvP.
  pose proof (ofZ_canonical total ltac:(lia)) as HcT.
  pose proof (ofZ_value total ltac:(lia)) as HvT.
  unfold Binary64.mul, Binary64.div, Binary64.sub, Binary64.prec, Binary64.emax.
  destruct (SFmul_spec 53 53 Binary64.c075 (Binary64.ofZ total) c075_canonical HcT
              ltac:(lia) ltac:(lia) ltac:(lia)) as [Hc1 Hr1].
  set (m := SFmul 53 1024 Binary64.c075 (Binary64.ofZ total)) in *.
  assert (Hv1 : (valueOf m == inject_Z (3 * total) * pow2 (-2))%Q).
  { assert (Hw : (valueOf Binary64.c075 * valueOf (Binary64.ofZ total)
                  == inject_Z (3 * total) * pow2 (-2))%Q).
    { rewrite c075_value, HvT, inject_Z_mult.
      change (pow2 (-2)) with (1 # 4)%Q. change (inject_Z 3) with 3%Q. field. }
    rewrite (RoundsTo_exact _ _ (3 * total) (-2) ltac:(lia) Hw Hr1). exact Hw. }
  destruct (SFsub_spec (53 + 53 + 54) m (Binary64.ofZ present) Hc1
              (canonical_weaken 53 (53 + 53 + 54) _ ltac:(lia) HcP) ltac:(lia)) as [Hc2 Hr2].
  set (s := SFsub 53 1024 m (Binary64.ofZ present)) in *.
  assert (Hv2 : (valueOf s == inject_Z (3 * total - 4 * present) * pow2 (-2))%Q).
  { assert (Hw : (valueOf m - valueOf (Binary64.ofZ present)
                  == inject_Z (3 * total - 4 * present) * pow2 (-2))%Q).
    { rewrite Hv1, HvP. unfold Z.sub.
      rewrite inject_Z_plus, inject_Z_opp, !inject_Z_mult.
      change (pow2 (-2)) with (1 # 4)%Q.
      change (inject_Z 3) with 3%Q. change (inject_Z 4) with 4%Q. field. }
    rewrite (RoundsTo_exact _ _ (3 * total - 4 * present) (-2) ltac:(lia) Hw Hr2).
    exact Hw. }
  destruct (SFdiv_spec (53 + 53 + 54 + 53) 54 s Binary64.c025 Hc2 c025_canonical
              ltac:(lia) ltac:(lia) ltac:(lia)) as [Hc3 Hr3].
  { rewrite c025_value. lra. }
  set (d := SFdiv 53 1024 s Binary64.c025) in *.
  assert (Hv3 : (valueOf d == inject_Z (3 * total - 4 * present))%Q).
  { assert (Hw : (valueOf s / valueOf Binary64.c025
                  == inject_Z (3 * total - 4 * present) * pow2 0)%Q).
    { rewrite Hv2, c025_value.
      change (pow2 (-2)) with (1 # 4)%Q. change (pow2 0) with 1%Q. field. }
    rewrite (RoundsTo_exact _ _ (3 * total - 4 * present) 0 ltac:(lia) Hw Hr3).
    rewrite Hw. change (pow2 0) with 1%Q. ring. }
  rewrite (ceil_spec d (canonical_finite _ _ Hc3)). f_equal.
  rewrite (Qceiling_comp _ _ Hv3). apply Qceiling_Z.
Qed.

(** [present / 0.75 - total] may be rounded twice, but never across an
    integer. *)
Lemma skippable_exact present total :
  0 < total -> 3 * total <= 4 * present -> present <= 2 ^ 48 ->
  Binary64.floor
    (Binary64.sub (Binary64.div (Binary64.ofZ present) Binary64.c075)
       (Binary64.ofZ total))
  = Some ((4 * present - 3 * total) / 3).
Proof.
  intros Ht Hge Hp.
  pose proof (ofZ_canonical present ltac:(lia)) as HcP.
  pose proof (ofZ_value present ltac:(lia)) as HvP.
  pose proof (ofZ_canonical total ltac:(lia)) as HcT.
  pose proof (ofZ_value total ltac:(lia)) as HvT.
  unfold Binary64.div, Binary64.sub, Binary64.prec, Binary64.emax.
  destruct (SFdiv_spec 53 53 (Binary64.ofZ present) Binary64.c075 HcP c075_canonical
              ltac:(lia) ltac:(lia) ltac:(lia)) as [Hc1 Hr1].
  { rewrite c075_value. lra. }
  set (a := SFdiv 53 1024 (Binary64.ofZ present) Binary64.c075) in *.
  destruct (SFsub_spec (53 + 53 + 54) a (Binary64.ofZ total) Hc1
              (canonical_weaken 53 (53 + 53 + 54) _ ltac:(lia) HcT) ltac:(lia)) as [Hc2 Hr2].
  set (b := SFsub 53 1024 a (Binary64.ofZ total)) in *.
  rewrite (floor_spec b (canonical_finite _ _ Hc2)). f_equal.
  set (n := (4 * present - 3 * total) / 3).
  pose proof (Z.div_mod (4 * present - 3 * total) 3 ltac:(lia)) as Hdm.
  pose proof (Z.mod_pos_bound (4 * present - 3 * total) 3 ltac:(lia)) as Hmod.
  fold n in Hdm. set (r := (4 * present - 3 * total) mod 3) in *.
  clearbody n r.
  assert (Hx : (valueOf (Binary64.ofZ present) / valueOf Binary64.c075
                == (4 # 3) * inject_Z present)%Q).
  { rewrite HvP, c075_value. field. }
  pose proof (RoundsTo_comp _ _ _ _ Hx (Qeq_refl _) Hr1) as Hr1'.
  assert (HP1 : (1 <= inject_Z present)%Q)
    by (change 1%Q with (inject_Z 1); rewrite <- Zle_Qle; lia).
  assert (HP2 : (inject_Z present <= 281474976710656)%Q)
    by (change 281474976710656%Q with (inject_Z (2 ^ 48)); rewrite <- Zle_Qle; lia).
  assert (HT1 : (1 <= inject_Z total)%Q)
    by (change 1%Q with (inject_Z 1); rewrite <- Zle_Qle; lia).
  assert (Hdm' : (inject_Z (4 * present) == inject_Z (3 * total + (3 * n + r)))%Q)
    by (apply inject_Z_injective; lia).
  rewrite !inject_Z_plus, !inject_Z_mult in Hdm'.
  change (inject_Z 3) with 3%Q in Hdm'. change (inject_Z 4) with 4%Q in Hdm'.
  apply Qfloor_unique.
  destruct (Z.eq_dec r 0) as [Hr0|Hr0].
  - rewrite Hr0 in Hdm'. change (inject_Z 0) with 0%Q in Hdm'.
    assert (Ha : (valueOf a == inject_Z (n + total))%Q).
    { assert (Hw : ((4 # 3) * inject_Z present == inject_Z (n + total) * pow2 0)%Q).
      { rewrite inject_Z_plus. change (pow2 0) with 1%Q.
        lra. }
      rewrite (RoundsTo_exact _ _ (n + total) 0 ltac:(lia) Hw Hr1'). rewrite Hw.
      change (pow2 0) with 1%Q. ring. }
    assert (Hb : (valueOf b == inject_Z n)%Q).
    { assert (Hw : (valueOf a - valueOf (Binary64.ofZ total) == inject_Z n * pow2 0)%Q).
      { rewrite Ha, HvT, inject_Z_plus. change (pow2 0) with 1%Q. ring. }
      rewrite (RoundsTo_exact _ _ n 0 ltac:(lia) Hw Hr2). rewrite Hw.
      change (pow2 0) with 1%Q. ring. }
    rewrite Hb. lra.
  - assert (Hr1q : (1 <= inject_Z r)%Q)
      by (change 1%Q with (inject_Z 1); rewrite <- Zle_Qle; lia).
    assert (Hr2q : (inject_Z r <= 2)%Q)
      by (change 2%Q with (inject_Z 2); rewrite <- Zle_Qle; lia).
    assert (Hx0 : (0 < (4 # 3) * inject_Z present)%Q) by lra.
    pose proof (RoundsTo_error _ _ Hx0 Hr1') as [Halo Hahi].
    assert (Hn0 : (0 <= inject_Z n)%Q).
    { change 0%Q with (inject_Z 0). rewrite <- Zle_Qle. lia. }
    assert (Hy0 : (0 < valueOf a - valueOf (Binary64.ofZ total))%Q)
      by (rewrite HvT; lra).
    pose proof (RoundsTo_error _ _ Hy0 Hr2) as [Hblo Hbhi].
    rewrite HvT in Hblo, Hbhi. split; lra.
Qed.
End Binary64Calculator.

Section Binary64Agreement.
Implicit Types present total : Z.

Lemma SFltb_compare x y c :
  SFcompare x y = Some c -> SFltb x y = match c with Lt => true | _ => false end.
Proof. intros H. unfold SFltb. rewrite H. reflexivity. Qed.

(** The test [percentage < 75] on binary64 Numbers. *)
Lemma below75_spec present total :
  - 2 ^ 48 <= present <= 2 ^ 48 -> - 2 ^ 48 <= total <= 2 ^ 48 ->
  SFltb (Binary64.percentageOf present total) (Binary64.ofZ 75)
  = negb ((0 <? total) && (3 * total <=? 4 * present)).
Proof.
  intros Hp Ht. destruct (Z.ltb_spec 0 total) as [Hpos|Hneg]; cbn [andb negb].
  - rewrite (SFltb_compare _ _ _ (percentage_compare present total ltac:(lia) Hp)).
    destruct (Z.compare_spec (4 * present) (3 * total));
      destruct (Z.leb_spec (3 * total) (4 * present)); try reflexivity; lia.
  - rewrite (percentage_nonpos present total Hneg). reflexivity.
Qed.

(** What the code computes on counters of magnitude up to [2 ^ 48], in
    integer terms. *)
Lemma calculate_exact present total :
  - 2 ^ 48 <= present <= 2 ^ 48 -> - 2 ^ 48 <= total <= 2 ^ 48 ->
  Binary64.calculate present total =
    Some (if (0 <? total) && (3 * total <=? 4 * present)
          then (Secure, Z.max 0 ((4 * present - 3 * total) / 3))
          else (Critical, Z.max 0 (3 * total - 4 * present))).
Proof.
  intros Hp Ht. unfold Binary64.calculate.
  rewrite (below75_spec present total Hp Ht).
  destruct (Z.ltb_spec 0 total) as [Hpos|Hneg]; cbn [andb negb].
  - destruct (Z.leb_spec (3 * total) (4 * present)) as [Hge|Hlt]; cbn [negb].
    + rewrite (skippable_exact present total Hpos Hge ltac:(lia)). reflexivity.
    + rewrite (needed_exact present total Hp Ht). reflexivity.
  - rewrite (needed_exact present total Hp Ht). reflexivity.
Qed.
End Binary64Agreement.

(** ** The percentage on binary64 Numbers *)

Section Binary64Percentage.
Implicit Types present total : Z.

Lemma RoundsTo_le w r k j :
  0 < k < 2 ^ 53 -> (0 < w)%Q -> (w <= inject_Z k * pow2 j)%Q -> RoundsTo w r ->
  (r <= inject_Z k * pow2 j)%Q.
Proof.
  intros Hk Hw Hle H.
  exact (Rounds_le w r k j (RoundsTo_pos w r Hw H) Hk Hle).
Qed.

(** The two roundings behind [present / total * 100]. *)
Lemma percentage_rounds present total :
  0 < total <= 2 ^ 48 -> - 2 ^ 48 <= present <= 2 ^ 48 ->
  exists q,
    RoundsTo (inject_Z present / inject_Z total) q /\
    RoundsTo (q * 100) (valueOf (Binary64.percentageOf present total)).
Proof.
  intros Ht Hp. unfold Binary64.percentageOf.
  destruct (Z.ltb_spec 0 total) as [_|]; [|lia].
  pose proof (ofZ_canonical present ltac:(lia)) as HcP.
  pose proof (ofZ_value present ltac:(lia)) as HvP.
  pose proof (ofZ_canonical total ltac:(lia)) as HcT.
  pose proof (ofZ_value total ltac:(lia)) as HvT.
  pose proof (inject_Z_pos total ltac:(lia)) as HT.
  destruct (SFdiv_spec 53 53 (Binary64.ofZ present) (Binary64.ofZ total) HcP HcT
              ltac:(lia) ltac:(lia) ltac:(lia)) as [Hcd Hrd].
  { rewrite HvT. lra. }
  destruct (SFmul_spec (53 + 53 + 54) 53 _ (Binary64.ofZ 100) Hcd
              (ofZ_canonical 100 ltac:(lia)) ltac:(lia) ltac:(lia) ltac:(lia))
    as [_ Hrm].
  exists (valueOf (SFdiv 53 1024 (Binary64.ofZ present) (Binary64.ofZ total))).
  split.
  - refine (RoundsTo_comp _ _ _ _ _ (Qeq_refl _) Hrd). rewrite HvP, HvT. reflexivity.
  - refine (RoundsTo_comp _ _ _ _ _ (Qeq_refl _) Hrm).
    rewrite (ofZ_value 100) by lia. reflexivity.
Qed.

(** For counters up to [2 ^ 48] the percentage that the code computes
    lies between 0 and 100 exactly when the exact one does. *)
Lemma binary64_percentage_range present total :
  0 < total <= 2 ^ 48 -> - 2 ^ 48 <= present <= 2 ^ 48 ->
  (0 <= valueOf (Binary64.percentageOf present total) <= 100)%Q
  <-> 0 <= present <= total.
Proof.
  intros Ht Hp.
  destruct (percentage_rounds present total Ht Hp) as (q & Hq & Hpct).
  set (pct := valueOf (Binary64.percentageOf present total)) in *. clearbody pct.
  set (x := (inject_Z present / inject_Z total)%Q) in *.
  pose proof (inject_Z_pos total ltac:(lia)) as HT.
  assert (HT' : (inject_Z total <= 281474976710656)%Q)
    by (change 281474976710656%Q with (inject_Z (2 ^ 48)); rewrite <- Zle_Qle; lia).
  assert (HxT : (x * inject_Z total == inject_Z present)%Q)
    by (unfold x; field; lra).
  clearbody x.
  destruct (Z.lt_trichotomy present 0) as [Hn|[->|Hpos]].
  - assert (HP : (inject_Z present < 0)%Q)
      by (change 0%Q with (inject_Z 0); rewrite <- Zlt_Qlt; lia).
    assert (Hx0 : (x < 0)%Q).
    { destruct (Qlt_le_dec x 0) as [|Hge]; [assumption|].
      pose proof (Qmult_le_0_compat _ _ Hge (Qlt_le_weak _ _ HT)). lra. }
    pose proof (RoundsTo_neg x q Hx0 Hq) as Hq0.
    assert (Hw : (q * 100 < 0)%Q) by lra.
    pose proof (RoundsTo_neg _ pct Hw Hpct). split; [lra | lia].
  - assert (Hx0 : (x == 0)%Q).
    { change (inject_Z 0) with 0%Q in HxT. apply Qmult_integral in HxT.
      destruct HxT; lra. }
    pose proof (RoundsTo_zero x q Hx0 Hq) as Hq0.
    assert (Hw : (q * 100 == 0)%Q) by lra.
    pose proof (RoundsTo_zero _ pct Hw Hpct). split; [lia | lra].
  - assert (HP : (0 < inject_Z present)%Q) by (apply inject_Z_pos; exact Hpos).
    assert (Hx0 : (0 < x)%Q).
    { destruct (Qlt_le_dec 0 x) as [|Hle]; [assumption|].
      assert (0 <= (- x) * inject_Z total)%Q by (apply Qmult_le_0_compat; lra). lra. }
    pose proof (RoundsTo_error x q Hx0 Hq) as [Hqlo _].
    assert (Hq0 : (0 < q * 100)%Q) by lra.
    pose proof (RoundsTo_error _ pct Hq0 Hpct) as [Hplo _].
    destruct (Z_le_gt_dec present total) as [Hle|Hgt].
    + assert (Hx1 : (x <= inject_Z 1 * pow2 0)%Q).
      { change (inject_Z 1 * pow2 0)%Q with 1%Q.
        assert (Hi : (inject_Z present <= inject_Z total)%Q) by (rewrite <- Zle_Qle; lia).
        destruct (Qlt_le_dec 1 x) as [Hgt|]; [|assumption].
        assert (0 < (x - 1) * inject_Z total)%Q by (apply Qmult_lt_0_compat; lra). lra. }
      pose proof (RoundsTo_le x q 1 0 ltac:(lia) Hx0 Hx1 Hq) as Hq1.
      change (inject_Z 1 * pow2 0)%Q with 1%Q in Hq1.
      assert (Hw : (q * 100 <= inject_Z 100 * pow2 0)%Q).
      { change (inject_Z 100 * pow2 0)%Q with 100%Q. lra. }
      pose proof (RoundsTo_le _ pct 100 0 ltac:(lia) Hq0 Hw Hpct) as Hp100.
      change (inject_Z 100 * pow2 0)%Q with 100%Q in Hp100.
      split; [lia | lra].
    + assert (Hi : (inject_Z (total + 1) <= inject_Z present)%Q) by (rewrite <- Zle_Qle; lia).
      rewrite inject_Z_plus in Hi. change (inject_Z 1) with 1%Q in Hi.
      assert (Hx1 : (inject_Z (2 ^ 48 + 1) * pow2 (-48) <= x)%Q).
      { change (inject_Z (2 ^ 48 + 1) * pow2 (-48))%Q
          with (281474976710657 # 281474976710656)%Q.
        assert (Hx1' : (0 <= x - 1)%Q).
        { destruct (Qlt_le_dec (x - 1) 0) as [Hneg|]; [|assumption].
          assert (0 <= (1 - x) * inject_Z total)%Q by (apply Qmult_le_0_compat; lra).
          lra. }
        assert (0 <= (x - 1) * (281474976710656 - inject_Z total))%Q
          by (apply Qmult_le_0_compat; lra).
        lra. }
      pose proof (RoundsTo_ge x q (2 ^ 48 + 1) (-48) ltac:(lia) Hx1 Hq) as Hq1.
      assert (Hw : (inject_Z (25 * (2 ^ 48 + 1)) * pow2 (-46) <= q * 100)%Q).
      { change (inject_Z (2 ^ 48 + 1) * pow2 (-48))%Q
          with (281474976710657 # 281474976710656)%Q in Hq1.
        change (inject_Z (25 * (2 ^ 48 + 1)) * pow2 (-46))%Q
          with (7036874417766425 # 70368744177664)%Q. lra. }
      pose proof (RoundsTo_ge _ pct (25 * (2 ^ 48 + 1)) (-46) ltac:(lia) Hw Hpct) as Hp100.
      change (inject_Z (25 * (2 ^ 48 + 1)) * pow2 (-46))%Q
        with (7036874417766425 # 70368744177664)%Q in Hp100.
      split; [lra | lia].
Qed.

(** The same with the guard of line 102: as for the exact percentage,
    the computed one is within 0 and 100 exactly when no lectures were
    held or [0 <= present <= total]. *)
Lemma binary64_percentage_in_range present total :
  - 2 ^ 48 <= present <= 2 ^ 48 -> - 2 ^ 48 <= total <= 2 ^ 48 ->
  (0 <= valueOf (Binary64.percentageOf present total) <= 100)%Q
  <-> total <= 0 \/ 0 <= present <= total.
Proof.
  intros Hp Ht. destruct (Z_lt_le_dec 0 total) as [Hpos|Hneg].
  - rewrite (binary64_percentage_range present total ltac:(lia) Hp). lia.
  - rewrite (percentage_nonpos present total Hneg). cbn [valueOf].
    split; [intros _; left; exact Hneg | intros _; lra].
Qed.

(** A count that is printed is never negative. *)
Lemma binary64_count_nonneg present total block count :
  Binary64.calculate present total = Some (block, count) -> 0 <= count.
Proof.
  unfold Binary64.calculate. destruct (SFltb _ _).
  - destruct (Binary64.ceil _); cbn; [|discriminate]. intros [= _ <-]. lia.
  - destruct (Binary64.floor _); cbn; [|discriminate]. intros [= _ <-]. lia.
Qed.
End Binary64Percentage.

(** X16. For counters of magnitude up to [2 ^ 48] the binary64 evaluation
    of the calculator chooses the block and prints the count of the
    rational evaluation. *)
Theorem binary64_agrees course present total status :
  - 2 ^ 48 <= present <= 2 ^ 48 ->
  - 2 ^ 48 <= total <= 2 ^ 48 ->
  let m := calculateAttendanceMessage course present total status in
  Binary64.calculate present total = Some (severity m, actionCount m).
Proof.
  intros Hp Ht m. rewrite (calculate_exact present total Hp Ht). subst m.
  destruct (Z.ltb_spec 0 total) as [Hpos|Hneg]; cbn [andb].
  - destruct (Z.leb_spec (3 * total) (4 * present)) as [Hge|Hlt].
    + rewrite calculate_secure.
      * cbn [severity actionCount]. rewrite lecturesSkippable_exact. reflexivity.
      * apply belowThreshold_ge. rewrite percentageOf_pos by assumption.
        apply percent_ge_75; assumption.
    + rewrite calculate_critical.
      * cbn [severity actionCount]. rewrite lecturesNeeded_exact. reflexivity.
      * apply belowThreshold_lt. rewrite percentageOf_pos by assumption.
        apply percent_lt_75; assumption.
  - rewrite calculate_critical.
    + cbn [severity actionCount]. rewrite lecturesNeeded_exact. reflexivity.
    + rewrite percentageOf_nonpos by lia. reflexivity.
Qed.

Lemma binary64_agrees_witness :
  Binary64.calculate 5 11
  = Some (severity (calculateAttendanceMessage "CS101" 5 11 Absent),
          actionCount (calculateAttendanceMessage "CS101" 5 11 Absent)).
Proof. apply (binary64_agrees "CS101" 5 11 Absent); lia. Defined.

(** The literals are the quotients they stand for. *)
Lemma literals_exact :
  Binary64.c075 = Binary64.div (Binary64.ofZ 3) (Binary64.ofZ 4) /\
  Binary64.c025 = Binary64.div (Binary64.ofZ 1) (Binary64.ofZ 4).
Proof. split; vm_compute; reflexivity. Qed.

(** Out-of-range counters give an out-of-range percentage in binary64 as
    well: 2 lectures attended out of 1 is 200 percent. *)
Example binary64_percentage_200 : Binary64.percentageOf 2 1 = Binary64.ofZ 200.
Proof. vm_compute. reflexivity. Qed.

(** ** The metric calculator *)

Section Counts.
Implicit Types present total : Z.

(** With lectures held, the test of the code decides as the exact
    percentage does. *)
Lemma below75_iff present total :
  0 < total <= 2 ^ 48 -> - 2 ^ 48 <= present <= 2 ^ 48 ->
  (SFltb (Binary64.percentageOf present total) (Binary64.ofZ 75) = true
   <-> 4 * present < 3 * total) /\
  (SFeqb (Binary64.percentageOf present total) (Binary64.ofZ 75) = true
   <-> 4 * present = 3 * total).
Proof.
  intros Ht Hp. unfold SFltb, SFeqb.
  rewrite (percentage_compare present total Ht Hp).
  destruct (Z.compare_spec (4 * present) (3 * total)); split; split;
    intros; try reflexivity; try discriminate; lia.
Qed.

Lemma calculate_critical_count present total :
  0 < total <= 2 ^ 48 -> - 2 ^ 48 <= present <= 2 ^ 48 ->
  4 * present < 3 * total ->
  Binary64.calculate present total = Some (Critical, 3 * total - 4 * present).
Proof.
  intros Ht Hp Hlt. rewrite (calculate_exact present total Hp ltac:(lia)).
  destruct (Z.ltb_spec 0 total); [|lia].
  destruct (Z.leb_spec (3 * total) (4 * present)); [lia|].
  cbn [andb]. do 2 f_equal. lia.
Qed.

Lemma calculate_secure_count present total :
  0 < total <= 2 ^ 48 -> present <= 2 ^ 48 ->
  3 * total <= 4 * present ->
  Binary64.calculate present total = Some (Secure, (4 * present - 3 * total) / 3).
Proof.
  intros Ht Hp Hge. rewrite (calculate_exact present total ltac:(lia) ltac:(lia)).
  destruct (Z.ltb_spec 0 total); [|lia].
  destruct (Z.leb_spec (3 * total) (4 * present)); [|lia].
  cbn [andb]. do 2 f_equal.
  pose proof (Z.div_pos (4 * present - 3 * total) 3). lia.
Qed.

Lemma calculate_no_lectures present total :
  - 2 ^ 48 <= total <= 0 -> - 2 ^ 48 <= present <= 2 ^ 48 ->
  Binary64.calculate present total
  = Some (Critical, Z.max 0 (3 * total - 4 * present)).
Proof.
  intros Ht Hp. rewrite (calculate_exact present total Hp ltac:(lia)).
  destruct (Z.ltb_spec 0 total); [lia | reflexivity].
Qed.
End Counts.

(** C2, as stated, fails for large counters.  At 3377699720527877 lectures
    out of 4503599627370503 the percentage is below 75 and the code
    prints the secure block, because the quotient rounds to 0.75; at
    3377699720527871 out of 4503599627370495 it prints the critical block
    with count 0, because [0.75 * total] rounds down, although 0 further
    lectures do not reach three quarters. *)
Lemma critical_action_count_fails :
  0 < 4503599627370503 /\
  (inject_Z 3377699720527877 / inject_Z 4503599627370503 * 100 < 75)%Q /\
  Binary64.calculate 3377699720527877 4503599627370503 = Some (Secure, 0) /\
  0 <= 3377699720527871 <= 4503599627370495 /\
  (inject_Z 3377699720527871 / inject_Z 4503599627370495 * 100 < 75)%Q /\
  SFltb (Binary64.percentageOf 3377699720527871 4503599627370495)
    (Binary64.ofZ 75) = true /\
  Binary64.calculate 3377699720527871 4503599627370495 = Some (Critical, 0) /\
  ~ (3 # 4 <= inject_Z (3377699720527871 + 0) / inject_Z (4503599627370495 + 0))%Q.
Proof.
  split; [reflexivity|]. split; [reflexivity|]. split; [vm_compute; reflexivity|].
  split; [lia|].
  split; [reflexivity|]. split; [vm_compute; reflexivity|].
  split; [vm_compute; reflexivity|].
  intros H. apply H. reflexivity.
Qed.

(** C2, amended.  For counters of magnitude up to [2 ^ 48], whenever
    [total > 0] and [present / total * 100 < 75], the test of the code is
    true as well, the code prints the critical block and its count is
    [max(0, ceil((0.75 * total - present) / 0.25))]; for
    [0 <= present <= total] that count [x] is non-negative, reaches the
    threshold ([(present + x) / (total + x) >= 3/4]) and is the least
    non-negative integer doing so; for [present = 5], [total = 11] it is
    13. *)
Theorem critical_action_count present total :
  0 < total <= 2 ^ 48 ->
  - 2 ^ 48 <= present <= 2 ^ 48 ->
  (inject_Z present / inject_Z total * 100 < 75)%Q ->
  SFltb (Binary64.percentageOf present total) (Binary64.ofZ 75) = true /\
  exists x,
    Binary64.calculate present total = Some (Critical, x) /\
    x = Z.max 0 (Qceiling (((3 # 4) * inject_Z total - inject_Z present) / (1 # 4))%Q) /\
    (0 <= present <= total ->
       0 <= x /\
       0 < total + x /\
       (3 # 4 <= inject_Z (present + x) / inject_Z (total + x))%Q /\
       (forall x', 0 <= x' ->
          (3 # 4 <= inject_Z (present + x') / inject_Z (total + x'))%Q ->
          x <= x')) /\
    (present = 5 -> total = 11 -> x = 13).
Proof.
  intros Ht Hp Hpct.
  assert (Hlt : 4 * present < 3 * total) by (apply percent_lt_75; [lia | assumption]).
  split; [apply (below75_iff present total Ht Hp); exact Hlt|].
  exists (3 * total - 4 * present).
  split; [exact (calculate_critical_count present total Ht Hp Hlt)|].
  split.
  - change (Qceiling _) with (lecturesNeeded present total).
    rewrite lecturesNeeded_exact. lia.
  - split.
    + intros Hrange. split; [lia|]. split; [lia|]. split.
      * apply ratio_ge_threshold; lia.
      * intros x' Hx' Hreach. apply ratio_ge_threshold in Hreach; lia.
    + intros -> ->. reflexivity.
Qed.

Lemma critical_action_count_witness :
  exists x, Binary64.calculate 5 11 = Some (Critical, x) /\ x = 13.
Proof.
  assert (Ht : 0 < 11 <= 2 ^ 48) by lia.
  assert (Hp : - 2 ^ 48 <= 5 <= 2 ^ 48) by lia.
  assert (Hpct : (inject_Z 5 / inject_Z 11 * 100 < 75)%Q) by reflexivity.
  destruct (critical_action_count 5 11 Ht Hp Hpct) as (_ & x & Hc & _ & _ & H13).
  exists x. split; [exact Hc | exact (H13 eq_refl eq_refl)].
Defined.

(** C3, as stated, fails for large counters: at 4503599627370494 lectures
    out of as many the code prints the count 1501199875790165, one more
    than the exact floor, and that many missed lectures bring the
    attendance below three quarters. *)
Lemma secure_action_count_fails :
  0 < 4503599627370494 /\
  (75 <= inject_Z 4503599627370494 / inject_Z 4503599627370494 * 100)%Q /\
  Binary64.calculate 4503599627370494 4503599627370494
  = Some (Secure, 1501199875790165) /\
  ~ (3 # 4 <= inject_Z 4503599627370494
              / inject_Z (4503599627370494 + 1501199875790165))%Q.
Proof.
  split; [reflexivity|].
  split; [vm_compute; discriminate|]. split; [vm_compute; reflexivity|].
  intros H. apply H. reflexivity.
Qed.

(** C3, amended.  For counters up to [2 ^ 48], whenever [total > 0] and
    [present / total * 100 >= 75], the test of the code is false as well,
    the code prints the secure block and its count is
    [max(0, floor(present / 0.75 - total))]; that count [y] satisfies
    [present / (total + y) >= 3/4]. *)
Theorem secure_action_count present total :
  0 < total <= 2 ^ 48 ->
  present <= 2 ^ 48 ->
  (75 <= inject_Z present / inject_Z total * 100)%Q ->
  SFltb (Binary64.percentageOf present total) (Binary64.ofZ 75) = false /\
  exists y,
    Binary64.calculate present total = Some (Secure, y) /\
    y = Z.max 0 (Qfloor (inject_Z present / (3 # 4) - inject_Z total)%Q) /\
    0 <= y /\
    0 < total + y /\
    (3 # 4 <= inject_Z present / inject_Z (total + y))%Q.
Proof.
  intros Ht Hp Hpct.
  assert (Hge : 3 * total <= 4 * present) by (apply percent_ge_75; [lia | assumption]).
  split.
  - destruct (SFltb _ _) eqn:E; [|reflexivity].
    apply (below75_iff present total Ht ltac:(lia)) in E. lia.
  - exists ((4 * present - 3 * total) / 3).
    split; [exact (calculate_secure_count present total Ht Hp Hge)|].
    pose proof (Z.div_pos (4 * present - 3 * total) 3 ltac:(lia) ltac:(lia)) as Hpos.
    pose proof (Z.mul_div_le (4 * present - 3 * total) 3 ltac:(lia)) as Hfloor.
    split.
    + change (Qfloor _) with (lecturesSkippable present total).
      rewrite lecturesSkippable_exact. lia.
    + split; [exact Hpos|]. split; [lia|]. apply ratio_ge_threshold; lia.
Qed.

Lemma secure_action_count_witness :
  exists y,
    Binary64.calculate 9 10 = Some (Secure, y) /\
    y = 2 /\
    (3 # 4 <= inject_Z 9 / inject_Z (10 + y))%Q.
Proof.
  assert (Ht : 0 < 10 <= 2 ^ 48) by lia.
  assert (Hp : 9 <= 2 ^ 48) by lia.
  assert (Hpct : (75 <= inject_Z 9 / inject_Z 10 * 100)%Q) by (vm_compute; discriminate).
  destruct (secure_action_count 9 10 Ht Hp Hpct) as (_ & y & Hc & Hy & _ & _ & Hkeep).
  exists y. split; [exact Hc|]. split; [|exact Hkeep].
  rewrite Hy. reflexivity.
Defined.

(** C5. The calculator is a total function of its integer arguments: it
    returns a message for every input, with percentage 0 when [total] is
    0 and a count that is never negative. *)
Theorem calculate_total_and_clamped course present total status :
  exists m,
    calculateAttendanceMessage course present total status = m /\
    (total = 0 -> percentage m = 0%Q) /\
    0 <= actionCount m.
Proof.
  eexists. split; [reflexivity|]. split.
  - intros ->. rewrite calculate_percentage. reflexivity.
  - unfold calculateAttendanceMessage.
    destruct (belowThreshold (percentageOf present total)); cbn [actionCount]; lia.
Qed.

(** C6. The test is strict.  Whatever the counters, a percentage that the
    code computes as exactly 75 puts the course in the secure block, and
    the critical block is chosen exactly when the computed percentage is
    below 75.  In terms of the counters, up to [2 ^ 48] and with lectures
    held: the percentage is exactly 75 when [present] is three quarters of
    [total], and then the secure block is printed with count 0; the
    critical block is printed exactly when [present] is less than three
    quarters of [total]; without lectures the percentage is 0 and the
    block is the critical one. *)
Theorem threshold_is_strict :
  (forall present total,
     (SFeqb (Binary64.percentageOf present total) (Binary64.ofZ 75) = true ->
      Binary64.severity present total = Secure) /\
     (Binary64.severity present total = Critical <->
      SFltb (Binary64.percentageOf present total) (Binary64.ofZ 75) = true) /\
     (forall block count,
        Binary64.calculate present total = Some (block, count) ->
        block = Binary64.severity present total)) /\
  (forall present total,
     0 < total <= 2 ^ 48 -> - 2 ^ 48 <= present <= 2 ^ 48 ->
     (SFeqb (Binary64.percentageOf present total) (Binary64.ofZ 75) = true
      <-> 4 * present = 3 * total) /\
     (4 * present = 3 * total ->
      Binary64.calculate present total = Some (Secure, 0)) /\
     (Binary64.severity present total = Critical <-> 4 * present < 3 * total) /\
     (Binary64.severity present total = Secure <-> 3 * total <= 4 * present)) /\
  (forall present total,
     total <= 0 ->
     Binary64.percentageOf present total = Binary64.ofZ 0 /\
     Binary64.severity present total = Critical).
Proof.
  split; [|split].
  - intros present total. unfold Binary64.severity, Binary64.calculate, SFeqb, SFltb.
    destruct (SFcompare _ _) as [[| |]|]; (split; [|split]);
      try (intros; reflexivity); try (intros; discriminate);
      try (split; intros; (reflexivity || discriminate));
      intros block count H;
      match type of H with
      | context [Binary64.ceil ?x] => destruct (Binary64.ceil x)
      | context [Binary64.floor ?x] => destruct (Binary64.floor x)
      end; cbn in H; congruence.
  - intros present total Ht Hp.
    destruct (below75_iff present total Ht Hp) as [Hlt Heq].
    split; [exact Heq|]. split.
    + intros H. rewrite (calculate_secure_count present total Ht ltac:(lia) ltac:(lia)).
      replace (4 * present - 3 * total) with 0 by lia. reflexivity.
    + unfold Binary64.severity.
      destruct (SFltb _ _) eqn:E.
      * assert (Hc : 4 * present < 3 * total) by (apply Hlt; reflexivity).
        split; split; intros; try reflexivity; try discriminate; lia.
      * assert (Hc : ~ 4 * present < 3 * total).
        { intros Hc. apply Hlt in Hc. congruence. }
        split; split; intros; try reflexivity; try discriminate; lia.
  - intros present total Ht. unfold Binary64.severity.
    rewrite (percentage_nonpos present total Ht). split; reflexivity.
Qed.

Lemma threshold_is_strict_witness :
  Binary64.calculate 75 100 = Some (Secure, 0) /\
  Binary64.severity 74 100 = Critical.
Proof.
  destruct threshold_is_strict as (_ & Hin & _).
  split.
  - apply (Hin 75 100); lia.
  - apply (Hin 74 100); lia.
Defined.

(** The boundary is met by actual counters: 3 lectures out of 4.  For
    counters beyond [2 ^ 48] a percentage below 75 can be computed as
    exactly 75, and it is the computed one that decides. *)
Example threshold_three_of_four :
  SFeqb (Binary64.percentageOf 3 4) (Binary64.ofZ 75) = true /\
  Binary64.calculate 3 4 = Some (Secure, 0) /\
  SFeqb (Binary64.percentageOf 3377699720527877 4503599627370503) (Binary64.ofZ 75)
  = true /\
  Binary64.severity 3377699720527877 4503599627370503 = Secure.
Proof. repeat split; vm_compute; reflexivity. Qed.

(** C7, as stated, fails: with 2 lectures attended out of 1 the percentage
    is 200. *)
Lemma percentage_out_of_range :
  ~ (0 <= percentage (calculateAttendanceMessage "CS101" 2 1 Present) <= 100)%Q.
Proof. intros [_ H]. apply H. reflexivity. Qed.

(** C7, amended. The percentage lies in [0, 100] exactly when [total <= 0]
    (where it is 0) or [0 <= present <= total]; it is not clamped
    otherwise. *)
Theorem percentage_in_range_iff course present total status :
  (0 <= percentage (calculateAttendanceMessage course present total status) <= 100)%Q
  <-> total <= 0 \/ 0 <= present <= total.
Proof.
  rewrite calculate_percentage.
  destruct (Z_lt_le_dec 0 total) as [Ht|Ht].
  - rewrite percentageOf_pos by assumption. rewrite percent_range by assumption. lia.
  - rewrite percentageOf_nonpos by assumption. split; [intros _; left; assumption|].
    intros _. split; discriminate.
Qed.


(** ** The change classifier *)

Section Classifier.
Implicit Types (old : Entry.t) (present total : Z).

Lemma changed_false old present total :
  changed old present total = false <->
  present = Entry.present old /\ total = Entry.total old.
Proof.
  unfold changed.
  destruct (Z.eqb_spec (Entry.present old) present),
           (Z.eqb_spec (Entry.total old) total); cbn; split;
    intros; try discriminate; try reflexivity; lia.
Qed.

Lemma statusOf_changed old present total :
  statusOf old present total <> Unchanged.
Proof.
  unfold statusOf.
  destruct (_ && _); [discriminate|]. destruct (_ && _); discriminate.
Qed.

Lemma classify_Unchanged old present total :
  classify old present total = Unchanged <-> changed old present total = false.
Proof.
  unfold classify. destruct (changed old present total) eqn:E.
  - split; [|discriminate]. intros H. destruct (statusOf_changed _ _ _ H).
  - split; reflexivity.
Qed.

Lemma classify_changed old present total :
  changed old present total = true ->
  classify old present total = statusOf old present total.
Proof. unfold classify. intros ->. reflexivity. Qed.

(** The four-way case analysis on an entry. *)
Lemma classify_four_way old present total :
  let same := present = Entry.present old /\ total = Entry.total old in
  let attended := total > Entry.total old /\ present > Entry.present old in
  let missed := total > Entry.total old /\ present = Entry.present old in
  (same -> classify old present total = Unchanged) /\
  (~ same -> attended -> classify old present total = Present) /\
  (~ same -> ~ attended -> missed -> classify old present total = Absent) /\
  (~ same -> ~ attended -> ~ missed -> classify old present total = Unknown) /\
  (total = Entry.total old -> present <> Entry.present old ->
     classify old present total = Unknown) /\
  (total < Entry.total old -> classify old present total = Unknown).
Proof.
  intros same attended missed. subst same attended missed.
  unfold classify, changed, statusOf.
  destruct (Z.eqb_spec (Entry.present old) present),
           (Z.eqb_spec (Entry.total old) total),
           (Z.gtb_spec total (Entry.total old)),
           (Z.gtb_spec present (Entry.present old)),
           (Z.eqb_spec present (Entry.present old)); cbn;
    repeat split; intros; try reflexivity; lia.
Qed.
End Classifier.

Section OldValues.
Implicit Types (prevState : gmap string Entry.t) (code : string) (present total : Z).

Lemma oldValue_own prevState code entry :
  prevState !! code = Some entry -> oldValue prevState code = OldEntry entry.
Proof. intros H. unfold oldValue. rewrite H. reflexivity. Qed.

Lemma oldValue_default prevState code :
  prevState !! code = None -> code ∉ prototypeMembers ->
  oldValue prevState code = OldEntry (Entry.mk 0 0).
Proof.
  intros H Hnot. unfold oldValue. rewrite H.
  rewrite bool_decide_eq_false_2 by assumption. reflexivity.
Qed.

Lemma oldValue_inherited prevState code :
  prevState !! code = None -> code ∈ prototypeMembers ->
  oldValue prevState code = Inherited.
Proof.
  intros H Hin. unfold oldValue. rewrite H.
  rewrite bool_decide_eq_true_2 by assumption. reflexivity.
Qed.

Lemma statusFrom_changed (old : OldValue) present total :
  statusFrom old present total <> Unchanged.
Proof. destruct old; [apply statusOf_changed | discriminate]. Qed.

Lemma classifyFrom_Unchanged (old : OldValue) present total :
  classifyFrom old present total = Unchanged <-> changedFrom old present total = false.
Proof.
  unfold classifyFrom. destruct (changedFrom old present total) eqn:E.
  - split; [|discriminate]. intros H. destruct (statusFrom_changed _ _ _ H).
  - split; reflexivity.
Qed.

Lemma classifyFrom_changed (old : OldValue) present total :
  changedFrom old present total = true ->
  classifyFrom old present total = statusFrom old present total.
Proof. unfold classifyFrom. intros ->. reflexivity. Qed.

Lemma classifyFrom_entry (entry : Entry.t) present total :
  classifyFrom (OldEntry entry) present total = classify entry present total.
Proof. reflexivity. Qed.
End OldValues.

(** C1. The status of a course is decided by the four-way case analysis on
    its counters and on the entry of the previous state; every pair of
    integer counters gets one of the four statuses.  The entry is the one
    stored under the course code, and [{ present: 0, total: 0 }] for a
    code that the previous state lacks and that names no member of
    [Object.prototype].  For a code that does, [prevState[code]] is the
    inherited member and the default is not used: the course is reported
    as "Unknown" whatever its counters.  With nothing stored, the course
    "constructor" at 5 lectures out of 10 is "Unknown" where the default
    entry gives "Present", and the course "toString" at 0 out of 0 is
    reported where the default entry gives no change. *)
Theorem classify_cases :
  (forall (old : Entry.t) (present total : Z),
     let same := present = Entry.present old /\ total = Entry.total old in
     let attended := total > Entry.total old /\ present > Entry.present old in
     let missed := total > Entry.total old /\ present = Entry.present old in
     (same -> classify old present total = Unchanged) /\
     (~ same -> attended -> classify old present total = Present) /\
     (~ same -> ~ attended -> missed -> classify old present total = Absent) /\
     (~ same -> ~ attended -> ~ missed -> classify old present total = Unknown) /\
     (total = Entry.total old -> present <> Entry.present old ->
        classify old present total = Unknown) /\
     (total < Entry.total old -> classify old present total = Unknown)) /\
  (forall (prevState : gmap string Entry.t) (c : Course) (entry : Entry.t),
     prevState !! courseCode c = Some entry ->
     statusIn prevState c
     = classify entry (presentLecture (comp0 c)) (totalLecture (comp0 c))) /\
  (forall (prevState : gmap string Entry.t) (c : Course),
     prevState !! courseCode c = None ->
     courseCode c ∉ prototypeMembers ->
     statusIn prevState c
     = classify (Entry.mk 0 0) (presentLecture (comp0 c)) (totalLecture (comp0 c))) /\
  (forall (prevState : gmap string Entry.t) (c : Course),
     prevState !! courseCode c = None ->
     courseCode c ∈ prototypeMembers ->
     statusIn prevState c = Unknown) /\
  (statusIn ∅ (mkCourse "constructor" "Ethics" [mkComp 5 10]) = Unknown /\
   classify (Entry.mk 0 0) 5 10 = Present) /\
  (statusIn ∅ (mkCourse "toString" "Law" [mkComp 0 0]) = Unknown /\
   classify (Entry.mk 0 0) 0 0 = Unchanged).
Proof.
  split; [exact classify_four_way|]. split; [|split; [|split; [|split]]].
  - intros prevState c entry H. unfold statusIn.
    rewrite (oldValue_own _ _ _ H). reflexivity.
  - intros prevState c H Hnot. unfold statusIn.
    rewrite (oldValue_default _ _ H Hnot). reflexivity.
  - intros prevState c H Hin. unfold statusIn.
    rewrite (oldValue_inherited _ _ H Hin). reflexivity.
  - split; vm_compute; reflexivity.
  - split; vm_compute; reflexivity.
Qed.

Lemma classify_cases_witness :
  statusIn examplePrev (mkCourse "CS101" "Algorithms" [mkComp 5 11]) = Absent /\
  statusIn examplePrev (mkCourse "MA102" "Calculus" [mkComp 8 10]) = Present /\
  statusIn examplePrev (mkCourse "valueOf" "Ethics" [mkComp 8 10]) = Unknown.
Proof.
  destruct classify_cases as (_ & Hown & Hdefault & Hinherited & _).
  split; [|split].
  - rewrite (Hown examplePrev (mkCourse "CS101" "Algorithms" [mkComp 5 11])
               (Entry.mk 5 10) eq_refl).
    reflexivity.
  - rewrite (Hdefault examplePrev (mkCourse "MA102" "Calculus" [mkComp 8 10]) eq_refl).
    + reflexivity.
    + apply (bool_decide_unpack _). vm_compute. exact I.
  - apply (Hinherited examplePrev (mkCourse "valueOf" "Ethics" [mkComp 8 10]) eq_refl).
    apply (bool_decide_unpack _). vm_compute. exact I.
Defined.

(** ** The course loop *)

Section Loop.
Variable prevState : gmap string Entry.t.

Lemma hasComp_head c :
  hasComp c = true ->
  exists rest, studentCourseCompDetails c = comp0 c :: rest.
Proof.
  unfold hasComp, comp0. destruct (studentCourseCompDetails c) as [|comp rest].
  - discriminate.
  - intros _. exists rest. reflexivity.
Qed.

(** One iteration, for a course that has a component. *)
Lemma processCourse_run c w :
  hasComp c = true ->
  processCourse prevState c w =
    (Ret tt,
     mkWorld (<[courseCode c := fetched c]> (newState w))
             (logged w ++ (logLine prevState <$> changedCourses prevState [c]))
             (telegram w ++ (alertFor prevState <$> changedCourses prevState [c]))).
Proof.
  intros Hc. destruct (hasComp_head c Hc) as [rest Hd].
  unfold processCourse, changedCourses. rewrite Hd. cbn [Eff.first].
  rewrite filter_cons, filter_nil.
  unfold Eff.bind, Eff.ret, Eff.setNewState, Eff.log, Eff.send_telegram.
  cbn [newState logged telegram].
  destruct (decide (statusIn prevState c <> Unchanged)) as [Hch|Hun].
  - destruct (changedFrom _ _ _) eqn:E.
    + cbn [fmap list_fmap]. unfold logLine, alertFor, statusIn.
      rewrite (classifyFrom_changed _ _ _ E). reflexivity.
    + destruct Hch. apply classifyFrom_Unchanged. exact E.
  - destruct (changedFrom _ _ _) eqn:E.
    + destruct Hun. unfold statusIn. rewrite (classifyFrom_changed _ _ _ E).
      apply statusFrom_changed.
    + cbn. rewrite !app_nil_r. reflexivity.
Qed.

(** One iteration, for a course without components: the loop is left by
    a [TypeError] before anything is written. *)
Lemma processCourse_throw c w :
  hasComp c = false -> processCourse prevState c w = (Throw TypeError, w).
Proof.
  unfold hasComp, processCourse. destruct (studentCourseCompDetails c).
  - reflexivity.
  - discriminate.
Qed.

(** The whole loop over courses that all have a component. *)
Lemma processCourses_run courses w :
  forallb hasComp courses = true ->
  processCourses prevState courses w =
    (Ret tt,
     mkWorld (stored (newState w) courses)
             (logged w ++ (logLine prevState <$> changedCourses prevState courses))
             (telegram w ++ (alertFor prevState <$> changedCourses prevState courses))).
Proof.
  revert w. induction courses as [|c rest IH]; intros w Hall.
  - cbn. rewrite !app_nil_r. destruct w; reflexivity.
  - cbn [forallb] in Hall. apply andb_prop in Hall as [Hc Hrest].
    cbn [processCourses]. unfold Eff.bind at 1.
    rewrite (processCourse_run c w Hc), (IH _ Hrest).
    cbn [newState logged telegram].
    change (c :: rest) with ([c] ++ rest).
    unfold changedCourses, stored.
    rewrite filter_app, !fmap_app, foldl_app, !app_assoc. reflexivity.
Qed.

(** A course without components stops the loop; the effects of the
    courses before it have taken place. *)
Lemma processCourses_throw before c after w :
  forallb hasComp before = true ->
  hasComp c = false ->
  processCourses prevState (before ++ c :: after) w
  = (Throw TypeError, snd (processCourses prevState before w)).
Proof.
  revert w. induction before as [|b rest IH]; intros w Hall Hc.
  - cbn [app processCourses]. unfold Eff.bind.
    rewrite (processCourse_throw c w Hc). reflexivity.
  - cbn [forallb] in Hall. apply andb_prop in Hall as [Hb Hrest].
    cbn [app processCourses]. unfold Eff.bind.
    rewrite (processCourse_run b w Hb). apply IH; assumption.
Qed.

Lemma diff_run courses :
  forallb hasComp courses = true ->
  diff prevState courses =
    (Ret tt,
     mkWorld (stored ∅ courses)
             (logLine prevState <$> changedCourses prevState courses)
             (alertFor prevState <$> changedCourses prevState courses)).
Proof. intros Hall. unfold diff. rewrite (processCourses_run _ _ Hall). reflexivity. Qed.
End Loop.

(** ** The rebuilt state *)

Section Stored.
Implicit Types (obj : JsObject.t) (courses : list Course).

Lemma own_assign code entry obj :
  code <> "__proto__"%string ->
  JsObject.own (<[code := entry]> obj) = <[code := entry]> (JsObject.own obj).
Proof.
  intros Hne. unfold insert at 1, JsObject.insert_instance, JsObject.assign.
  rewrite bool_decide_eq_false_2 by assumption. reflexivity.
Qed.

Lemma own_assign_proto entry obj :
  JsObject.own (<["__proto__"%string := entry]> obj) = JsObject.own obj.
Proof. reflexivity. Qed.

Lemma own_assign_lookup code entry obj code' :
  JsObject.own (<[code := entry]> obj) !! code'
  = if bool_decide (code = code' /\ code <> "__proto__"%string) then Some entry
    else JsObject.own obj !! code'.
Proof.
  destruct (decide (code = "__proto__"%string)) as [->|Hne].
  - rewrite own_assign_proto. rewrite bool_decide_eq_false_2 by tauto. reflexivity.
  - rewrite (own_assign _ _ _ Hne).
    destruct (decide (code = code')) as [->|Hne'].
    + rewrite lookup_insert_eq, bool_decide_eq_true_2 by tauto. reflexivity.
    + rewrite lookup_insert_ne by assumption.
      rewrite bool_decide_eq_false_2 by tauto. reflexivity.
Qed.

Lemma stored_app obj l1 l2 : stored obj (l1 ++ l2) = stored (stored obj l1) l2.
Proof. unfold stored. apply foldl_app. Qed.

Lemma stored_cons obj c l :
  stored obj (c :: l) = stored (<[courseCode c := fetched c]> obj) l.
Proof. reflexivity. Qed.

Lemma stored_other obj courses code :
  code ∉ courseCode <$> courses ->
  JsObject.own (stored obj courses) !! code = JsObject.own obj !! code.
Proof.
  revert obj. induction courses as [|c rest IH]; intros obj Hnot; [reflexivity|].
  rewrite stored_cons. rewrite fmap_cons in Hnot.
  apply not_elem_of_cons in Hnot as [Hne Hrest].
  rewrite (IH _ Hrest), own_assign_lookup.
  rewrite bool_decide_eq_false_2; [reflexivity|]. intros [Heq _]. congruence.
Qed.

(** No assignment creates a property ["__proto__"]. *)
Lemma stored_proto_key obj courses :
  JsObject.own (stored obj courses) !! "__proto__"%string
  = JsObject.own obj !! "__proto__"%string.
Proof.
  revert obj. induction courses as [|c rest IH]; intros obj; [reflexivity|].
  rewrite stored_cons, IH, own_assign_lookup.
  rewrite bool_decide_eq_false_2; [reflexivity|]. intros [Heq Hne]. congruence.
Qed.

Lemma stored_last obj l1 c l2 :
  courseCode c <> "__proto__"%string ->
  courseCode c ∉ courseCode <$> l2 ->
  JsObject.own (stored obj (l1 ++ c :: l2)) !! courseCode c = Some (fetched c).
Proof.
  intros Hne Hnot. rewrite stored_app, stored_cons, (stored_other _ _ _ Hnot).
  rewrite own_assign_lookup, bool_decide_eq_true_2 by tauto. reflexivity.
Qed.

Lemma stored_is_Some obj courses code :
  is_Some (JsObject.own (stored obj courses) !! code) <->
  is_Some (JsObject.own obj !! code)
  \/ (code ∈ courseCode <$> courses /\ code <> "__proto__"%string).
Proof.
  revert obj. induction courses as [|c rest IH]; intros obj.
  - cbn. rewrite elem_of_nil. tauto.
  - rewrite stored_cons, IH, fmap_cons, elem_of_cons, own_assign_lookup.
    destruct (decide (courseCode c = code /\ courseCode c <> "__proto__"%string))
      as [[Heq Hne]|Hno].
    + rewrite bool_decide_eq_true_2 by tauto. subst code.
      split; [|intros _; left; eexists; reflexivity].
      intros _. right. split; [left; reflexivity | exact Hne].
    + rewrite bool_decide_eq_false_2 by assumption.
      split; [tauto|]. intros [H|[[Heq|Hin] Hne]]; [tauto| |tauto].
      subst code. tauto.
Qed.
End Stored.

(** ** What the loop stores, logs and sends *)

Lemma fetched_head c comp more :
  studentCourseCompDetails c = comp :: more ->
  fetched c = Entry.mk (presentLecture comp) (totalLecture comp).
Proof. intros H. unfold fetched, comp0. rewrite H. reflexivity. Qed.

Lemma logged_codes prevState courses code status :
  (code, status) ∈ logLine prevState <$> changedCourses prevState courses ->
  code ∈ courseCode <$> courses.
Proof.
  intros Hin. apply list_elem_of_fmap in Hin as (c & Heq & Hc).
  apply list_elem_of_filter in Hc as [_ Hc].
  injection Heq as -> _. apply list_elem_of_fmap. exists c. split; [reflexivity | exact Hc].
Qed.

(** C9. An entry classified against itself is [Unchanged]; a course whose
    fetched counters equal its entry in the previous state is stored and
    neither logged nor reported. *)
Theorem unchanged_is_silent (e : Entry.t) :
  classify e (Entry.present e) (Entry.total e) = Unchanged /\
  forall prevState c more w,
    prevState !! courseCode c = Some e ->
    studentCourseCompDetails c = mkComp (Entry.present e) (Entry.total e) :: more ->
    processCourse prevState c w =
      (Ret tt, mkWorld (<[courseCode c := e]> (newState w)) (logged w) (telegram w)).
Proof.
  assert (Hsame : classify e (Entry.present e) (Entry.total e) = Unchanged).
  { apply classify_Unchanged, changed_false. split; reflexivity. }
  split; [exact Hsame|].
  intros prevState c more w Hprev Hd.
  assert (Hc : hasComp c = true) by (unfold hasComp; rewrite Hd; reflexivity).
  rewrite (processCourse_run prevState c w Hc).
  rewrite (fetched_head c _ _ Hd). cbn [presentLecture totalLecture].
  unfold changedCourses. rewrite filter_cons, filter_nil.
  assert (Hst : statusIn prevState c = Unchanged).
  { unfold statusIn, comp0. rewrite (oldValue_own _ _ _ Hprev), Hd. exact Hsame. }
  destruct (decide _) as [Hn|_]; [destruct (Hn Hst)|].
  cbn. rewrite !app_nil_r. destruct e; reflexivity.
Qed.

(** The state rebuilt by a loop that runs to completion: its properties
    are the course codes of the list other than ["__proto__"], each with
    the counters fetched for it (those of its last occurrence, should a
    code occur twice), whatever the status of the course; a code known
    only to the previous state is not among them, and nothing is logged
    or sent for it. *)
Lemma snapshot_of_loop (prevState : gmap string Entry.t) (courses : list Course) :
  forallb hasComp courses = true ->
  exists w,
    diff prevState courses = (Ret tt, w) /\
    (forall code,
       is_Some (JsObject.own (newState w) !! code)
       <-> code ∈ courseCode <$> courses /\ code <> "__proto__"%string) /\
    (forall l1 c l2 comp more,
       courses = l1 ++ c :: l2 ->
       courseCode c ∉ courseCode <$> l2 ->
       courseCode c <> "__proto__"%string ->
       studentCourseCompDetails c = comp :: more ->
       JsObject.own (newState w) !! courseCode c
       = Some (Entry.mk (presentLecture comp) (totalLecture comp))) /\
    (NoDup (courseCode <$> courses) ->
     forall c comp more,
       c ∈ courses ->
       courseCode c <> "__proto__"%string ->
       studentCourseCompDetails c = comp :: more ->
       JsObject.own (newState w) !! courseCode c
       = Some (Entry.mk (presentLecture comp) (totalLecture comp))) /\
    (forall code,
       is_Some (prevState !! code) ->
       code ∉ courseCode <$> courses ->
       JsObject.own (newState w) !! code = None
       /\ forall status, (code, status) ∉ logged w) /\
    (forall msg, msg ∈ telegram w -> exists c, c ∈ courses /\ msg = alertFor prevState c).
Proof.
  intros Hall. eexists. split; [apply diff_run; exact Hall|].
  cbn [newState logged telegram].
  assert (Hlast : forall l1 c l2 comp more,
            courses = l1 ++ c :: l2 ->
            courseCode c ∉ courseCode <$> l2 ->
            courseCode c <> "__proto__"%string ->
            studentCourseCompDetails c = comp :: more ->
            JsObject.own (stored ∅ courses) !! courseCode c
            = Some (Entry.mk (presentLecture comp) (totalLecture comp))).
  { intros l1 c l2 comp more -> Hnot Hne Hd.
    rewrite (stored_last _ _ _ _ Hne Hnot). f_equal. exact (fetched_head _ _ _ Hd). }
  split; [|split; [exact Hlast|split; [|split]]].
  - intros code. rewrite stored_is_Some.
    change (JsObject.own ∅) with (∅ : gmap string Entry.t).
    rewrite lookup_empty, is_Some_alt. tauto.
  - intros Hnd c comp more Hc Hne Hd.
    destruct (list_elem_of_split _ _ Hc) as (l1 & l2 & Heq).
    apply (Hlast l1 c l2 comp more Heq); [|exact Hne|exact Hd].
    rewrite Heq, fmap_app, fmap_cons in Hnd.
    apply NoDup_app in Hnd as (_ & _ & Hnd). apply NoDup_cons in Hnd as [Hnot _].
    exact Hnot.
  - intros code _ Hnot. split.
    + rewrite (stored_other _ _ _ Hnot). apply lookup_empty.
    + intros status Hin. apply Hnot. exact (logged_codes _ _ _ _ Hin).
  - intros msg Hin. apply list_elem_of_fmap in Hin as (c & -> & Hc).
    apply list_elem_of_filter in Hc as [_ Hc]. exists c. split; [exact Hc | reflexivity].
Qed.

(** C4. After the loop, [newState] holds the course codes of the current
    fetch, each with the counters fetched for it, whatever the status of
    the course, and no code known only to the previous state, for which
    nothing is logged or sent: with the exception of a course with code
    ["__proto__"].  The assignment [newState[code] = ...] replaces the
    prototype for that code, so the course is missing from the rebuilt
    state; when it is the only course, [newState] has no property and the
    run saves nothing. *)
Theorem snapshot_is_current_fetch :
  (forall (prevState : gmap string Entry.t) (courses : list Course),
     forallb hasComp courses = true ->
     exists w,
       diff prevState courses = (Ret tt, w) /\
       (forall code,
          is_Some (JsObject.own (newState w) !! code)
          <-> code ∈ courseCode <$> courses /\ code <> "__proto__"%string) /\
       (forall l1 c l2,
          courses = l1 ++ c :: l2 ->
          courseCode c ∉ courseCode <$> l2 ->
          courseCode c <> "__proto__"%string ->
          JsObject.own (newState w) !! courseCode c = Some (fetched c)) /\
       (forall code,
          is_Some (prevState !! code) ->
          code ∉ courseCode <$> courses ->
          JsObject.own (newState w) !! code = None
          /\ forall status, (code, status) ∉ logged w)) /\
  (forall prevState : gmap string Entry.t,
     exists w,
       diff prevState [mkCourse "__proto__" "Ethics" [mkComp 5 10]] = (Ret tt, w) /\
       JsObject.own (newState w) = ∅ /\
       JsObject.proto (newState w) = Some (Entry.mk 5 10)) /\
  saved (main exampleEnv
           (exampleServices [mkCourse "__proto__" "Ethics" [mkComp 5 10]] NoSnapshot))
  = None.
Proof.
  split; [|split].
  - intros prevState courses Hall.
    destruct (snapshot_of_loop prevState courses Hall)
      as (w & Hrun & Hkeys & _ & _ & Hgone & _).
    exists w. split; [exact Hrun|]. split; [exact Hkeys|]. split; [|exact Hgone].
    intros l1 c l2 -> Hnot Hne.
    rewrite (diff_run prevState _ Hall) in Hrun. injection Hrun as <-.
    cbn [newState]. apply stored_last; assumption.
  - intros prevState. eexists. split; [apply diff_run; reflexivity|].
    split; reflexivity.
  - vm_compute. reflexivity.
Qed.

Lemma snapshot_is_current_fetch_witness :
  exists w,
    diff examplePrev exampleCourses = (Ret tt, w) /\
    JsObject.own (newState w) !! "MA102"%string = Some (Entry.mk 8 10) /\
    JsObject.own (newState w) !! "PH100"%string = None.
Proof.
  assert (Hall : forallb hasComp exampleCourses = true) by reflexivity.
  destruct (proj1 snapshot_is_current_fetch examplePrev exampleCourses Hall)
    as (w & Hrun & _ & Hlast & Hgone).
  exists w. split; [exact Hrun|]. split.
  - apply (Hlast [mkCourse "CS101" "Algorithms" [mkComp 5 11]]
             (mkCourse "MA102" "Calculus" [mkComp 8 10; mkComp 1 2])
             [mkCourse "CS101" "Algorithms" [mkComp 6 12]]).
    + reflexivity.
    + apply (bool_decide_unpack _). vm_compute. exact I.
    + discriminate.
  - apply (Hgone "PH100"%string).
    + exists (Entry.mk 1 1). reflexivity.
    + apply (bool_decide_unpack _). vm_compute. exact I.
Defined.

(** C8. The loop is a function of the previous state and the course list,
    so equal inputs give equal outcomes; what it logs and sends is one
    line and one message for exactly the courses whose status is not
    [Unchanged], in the order in which these courses stand in the list. *)
Theorem notifications_in_order (prevState : gmap string Entry.t)
    (courses : list Course) :
  forallb hasComp courses = true ->
  (forall prevState' courses',
     prevState' = prevState -> courses' = courses ->
     diff prevState' courses' = diff prevState courses) /\
  exists w,
    diff prevState courses = (Ret tt, w) /\
    logged w = logLine prevState <$> changedCourses prevState courses /\
    telegram w = alertFor prevState <$> changedCourses prevState courses /\
    changedCourses prevState courses `sublist_of` courses /\
    (forall c, c ∈ changedCourses prevState courses
               <-> c ∈ courses /\ statusIn prevState c <> Unchanged) /\
    (forall l1 l2,
       courses = l1 ++ l2 ->
       changedCourses prevState courses
       = changedCourses prevState l1 ++ changedCourses prevState l2).
Proof.
  intros Hall. split; [intros ? ? -> ->; reflexivity|].
  eexists. split; [apply diff_run; exact Hall|].
  cbn [logged telegram]. split; [reflexivity|]. split; [reflexivity|].
  unfold changedCourses. split; [apply sublist_filter|]. split.
  - intros c. rewrite list_elem_of_filter. tauto.
  - intros l1 l2 ->. apply filter_app.
Qed.

Lemma notifications_in_order_witness :
  forallb hasComp exampleCourses = true /\
  exists w,
    diff examplePrev exampleCourses = (Ret tt, w) /\
    logged w = [("CS101"%string, Absent); ("MA102"%string, Present);
                ("CS101"%string, Present)].
Proof.
  assert (Hall : forallb hasComp exampleCourses = true) by reflexivity.
  split; [exact Hall|].
  destruct (notifications_in_order examplePrev exampleCourses Hall)
    as (_ & w & Hrun & Hlog & _).
  exists w. split; [exact Hrun|]. rewrite Hlog. vm_compute. reflexivity.
Defined.

(** C10. When a course code occurs twice in the list, both occurrences are
    classified against the previous state, never against each other: what
    the loop logs and sends is what it logs and sends for the parts of the
    list taken separately; an occurrence whose status is not [Unchanged]
    has its own line and message; and [newState] ends with the counters
    of the last occurrence, unless the code is ["__proto__"], for which
    no counters are kept: two courses with that code are both reported
    and leave [newState] without a property. *)
Theorem repeated_course_code :
  (forall (prevState : gmap string Entry.t) (l1 : list Course) (c1 : Course)
          (l2 : list Course) (c2 : Course) (l3 : list Course),
     forallb hasComp (l1 ++ c1 :: l2 ++ c2 :: l3) = true ->
     courseCode c1 = courseCode c2 ->
     courseCode c2 ∉ courseCode <$> l3 ->
     let alone c :=
       if changedFrom (oldValue prevState (courseCode c))
            (presentLecture (comp0 c)) (totalLecture (comp0 c))
       then [c] else [] in
     exists w,
       diff prevState (l1 ++ c1 :: l2 ++ c2 :: l3) = (Ret tt, w) /\
       statusIn prevState c1
       = classifyFrom (oldValue prevState (courseCode c2))
           (presentLecture (comp0 c1)) (totalLecture (comp0 c1)) /\
       statusIn prevState c2
       = classifyFrom (oldValue prevState (courseCode c2))
           (presentLecture (comp0 c2)) (totalLecture (comp0 c2)) /\
       logged w
       = (logLine prevState <$> changedCourses prevState l1)
         ++ (logLine prevState <$> alone c1)
         ++ (logLine prevState <$> changedCourses prevState l2)
         ++ (logLine prevState <$> alone c2)
         ++ (logLine prevState <$> changedCourses prevState l3) /\
       telegram w
       = (alertFor prevState <$> changedCourses prevState l1)
         ++ (alertFor prevState <$> alone c1)
         ++ (alertFor prevState <$> changedCourses prevState l2)
         ++ (alertFor prevState <$> alone c2)
         ++ (alertFor prevState <$> changedCourses prevState l3) /\
       (courseCode c2 <> "__proto__"%string ->
        JsObject.own (newState w) !! courseCode c2 = Some (fetched c2)) /\
       (courseCode c2 = "__proto__"%string ->
        JsObject.own (newState w) !! courseCode c2 = None)) /\
  (exists w,
     diff ∅ [mkCourse "__proto__" "Ethics" [mkComp 5 10];
             mkCourse "__proto__" "Ethics" [mkComp 6 11]] = (Ret tt, w) /\
     logged w = [("__proto__"%string, Unknown); ("__proto__"%string, Unknown)] /\
     length (telegram w) = 2%nat /\
     JsObject.own (newState w) = ∅).
Proof.
  split.
  - intros prevState l1 c1 l2 c2 l3 Hall Hcode Hnot alone.
    assert (Halone : forall c, changedCourses prevState [c] = alone c).
    { intros c. subst alone. unfold changedCourses. rewrite filter_cons, filter_nil.
      cbn beta. destruct (decide _) as [Hch|Hun].
      - destruct (changedFrom _ _ _) eqn:E; [reflexivity|].
        destruct Hch. apply classifyFrom_Unchanged. exact E.
      - destruct (changedFrom _ _ _) eqn:E; [|reflexivity].
        destruct Hun. unfold statusIn. rewrite (classifyFrom_changed _ _ _ E).
        apply statusFrom_changed. }
    assert (Hsplit : changedCourses prevState (l1 ++ c1 :: l2 ++ c2 :: l3)
                     = changedCourses prevState l1 ++ alone c1
                       ++ changedCourses prevState l2 ++ alone c2
                       ++ changedCourses prevState l3).
    { rewrite <- !Halone. unfold changedCourses.
      change (c1 :: l2 ++ c2 :: l3) with ([c1] ++ l2 ++ [c2] ++ l3).
      rewrite !filter_app. reflexivity. }
    eexists. split; [apply diff_run; exact Hall|].
    cbn [newState logged telegram].
    split; [unfold statusIn; rewrite Hcode; reflexivity|].
    split; [reflexivity|].
    rewrite Hsplit, !fmap_app. split; [reflexivity|]. split; [reflexivity|].
    split.
    + intros Hne.
      change (l1 ++ c1 :: l2 ++ c2 :: l3) with (l1 ++ (c1 :: l2) ++ c2 :: l3).
      rewrite app_assoc. apply stored_last; assumption.
    + intros ->. rewrite stored_proto_key. apply lookup_empty.
  - eexists. split; [apply diff_run; reflexivity|].
    repeat split; vm_compute; reflexivity.
Qed.

Lemma repeated_course_code_witness :
  exists w,
    diff examplePrev exampleCourses = (Ret tt, w) /\
    logged w = [("CS101"%string, Absent); ("MA102"%string, Present);
                ("CS101"%string, Present)] /\
    JsObject.own (newState w) !! "CS101"%string = Some (Entry.mk 6 12).
Proof.
  assert (Hall : forallb hasComp exampleCourses = true) by reflexivity.
  assert (Hnot : "CS101"%string ∉ courseCode <$> @nil Course).
  { apply (bool_decide_unpack _). vm_compute. exact I. }
  destruct (proj1 repeated_course_code examplePrev []
              (mkCourse "CS101" "Algorithms" [mkComp 5 11])
              [mkCourse "MA102" "Calculus" [mkComp 8 10; mkComp 1 2]]
              (mkCourse "CS101" "Algorithms" [mkComp 6 12]) []
              Hall eq_refl Hnot)
    as (w & Hrun & _ & _ & Hlog & _ & Hnew & _).
  exists w. split; [exact Hrun|]. split; [|apply Hnew; discriminate].
  rewrite Hlog. vm_compute. reflexivity.
Defined.

(** ** Runs of the loop on small inputs *)

(** A course seen for the first time with 5 lectures out of 10: reported
    as attended, critical, 10 lectures needed. *)
Example first_run :
  diff ∅ [mkCourse "CS101" "Algorithms" [mkComp 5 10]]
  = (Ret tt,
     mkWorld (<["CS101" := Entry.mk 5 10]> ∅)
       [("CS101"%string, Present)]
       [mkMessage "Algorithms" "✅ PRESENT" 5 10 (inject_Z 5 / inject_Z 10 * 100)%Q
          Critical 10]).
Proof. vm_compute. reflexivity. Qed.

(** Unchanged counters: the entry is stored again and nothing is sent. *)
Example nothing_changed :
  diff (<["CS101" := Entry.mk 8 10]> ∅) [mkCourse "CS101" "Algorithms" [mkComp 8 10]]
  = (Ret tt, mkWorld (<["CS101" := Entry.mk 8 10]> ∅) [] []).
Proof. vm_compute. reflexivity. Qed.

(** An empty fetch leaves [newState] empty whatever the previous state. *)
Example empty_fetch prevState : diff prevState [] = (Ret tt, emptyWorld).
Proof. reflexivity. Qed.

(** A course without components stops the loop after the first course has
    been stored and reported. *)
Example missing_component :
  diff ∅ [mkCourse "CS101" "Algorithms" [mkComp 9 10];
          mkCourse "MA102" "Calculus" [];
          mkCourse "PH100" "Physics" [mkComp 1 1]]
  = (Throw TypeError,
     mkWorld (<["CS101" := Entry.mk 9 10]> ∅)
       [("CS101"%string, Present)]
       [mkMessage "Algorithms" "✅ PRESENT" 9 10 (inject_Z 9 / inject_Z 10 * 100)%Q
          Secure 2]).
Proof. vm_compute. reflexivity. Qed.


(** * Further properties *)

(** ** The advice of the calculator *)

Section Advice.
Implicit Types present total : Z.

(** X1. For counters up to [2 ^ 48], with lectures held, whenever the
    code finds the percentage below 75 the count printed in the critical
    block is the integer [3 * total - 4 * present] and is at least 1: the
    message never asks to attend 0 lectures. *)
Theorem critical_count_is_positive present total :
  0 < total <= 2 ^ 48 ->
  - 2 ^ 48 <= present <= 2 ^ 48 ->
  SFltb (Binary64.percentageOf present total) (Binary64.ofZ 75) = true ->
  Binary64.calculate present total = Some (Critical, 3 * total - 4 * present) /\
  1 <= 3 * total - 4 * present.
Proof.
  intros Ht Hp Hlt. apply (below75_iff present total Ht Hp) in Hlt.
  split; [exact (calculate_critical_count present total Ht Hp Hlt) | lia].
Qed.

Lemma critical_count_is_positive_witness :
  Binary64.calculate 29 40 = Some (Critical, 4).
Proof.
  assert (Ht : 0 < 40 <= 2 ^ 48) by lia.
  assert (Hp : - 2 ^ 48 <= 29 <= 2 ^ 48) by lia.
  assert (Hlt : SFltb (Binary64.percentageOf 29 40) (Binary64.ofZ 75) = true)
    by (vm_compute; reflexivity).
  exact (proj1 (critical_count_is_positive 29 40 Ht Hp Hlt)).
Defined.

(** Beyond that bound [0.75 * total] is rounded, and the critical block
    can ask for 0 lectures. *)
Example critical_count_zero :
  Binary64.calculate 2251799813685248 3002399751580331 = Some (Critical, 0).
Proof. vm_compute. reflexivity. Qed.

(** X2. For counters of magnitude up to [2 ^ 48], a course with no
    lectures held ([total <= 0]) is always put in the critical block, at 0
    percent, with count [max(0, 3 * total - 4 * present)]; for 0 lectures
    out of 0 the count is 0. *)
Theorem no_lectures_is_critical present total :
  - 2 ^ 48 <= total <= 0 ->
  - 2 ^ 48 <= present <= 2 ^ 48 ->
  Binary64.percentageOf present total = Binary64.ofZ 0 /\
  Binary64.calculate present total
  = Some (Critical, Z.max 0 (3 * total - 4 * present)) /\
  (present = 0 -> total = 0 ->
   Binary64.calculate present total = Some (Critical, 0)).
Proof.
  intros Ht Hp. split; [apply percentage_nonpos; lia|].
  rewrite (calculate_no_lectures present total Ht Hp).
  split; [reflexivity|]. intros -> ->. reflexivity.
Qed.

Lemma no_lectures_is_critical_witness :
  Binary64.calculate 0 0 = Some (Critical, 0).
Proof.
  assert (Ht : - 2 ^ 48 <= 0 <= 0) by lia.
  assert (Hp : - 2 ^ 48 <= 0 <= 2 ^ 48) by lia.
  exact (proj2 (proj2 (no_lectures_is_critical 0 0 Ht Hp)) eq_refl eq_refl).
Defined.

(** X3. Following the advice of the critical block, for a course below
    the threshold with up to [2 ^ 46] lectures held: every further
    lecture that is held and attended lowers the count by exactly one,
    and after the advised number of lectures the code computes exactly 75
    percent and prints the secure block with 0 lectures to skip. *)
Theorem following_the_advice present total :
  0 <= present ->
  0 < total <= 2 ^ 46 ->
  4 * present < 3 * total ->
  exists x,
    Binary64.calculate present total = Some (Critical, x) /\
    (forall k, 0 <= k < x ->
       Binary64.calculate (present + k) (total + k) = Some (Critical, x - k)) /\
    SFeqb (Binary64.percentageOf (present + x) (total + x)) (Binary64.ofZ 75) = true /\
    Binary64.calculate (present + x) (total + x) = Some (Secure, 0).
Proof.
  intros Hp Ht Hlt. exists (3 * total - 4 * present).
  assert (H46 : 4 * 2 ^ 46 = 2 ^ 48) by reflexivity.
  split; [apply calculate_critical_count; lia|]. split; [|split].
  - intros k Hk. rewrite calculate_critical_count by lia. do 2 f_equal. lia.
  - apply below75_iff; lia.
  - rewrite calculate_secure_count by lia. do 2 f_equal.
    replace (4 * (present + (3 * total - 4 * present))
             - 3 * (total + (3 * total - 4 * present))) with 0 by lia.
    reflexivity.
Qed.

Lemma following_the_advice_witness :
  exists x,
    Binary64.calculate 5 11 = Some (Critical, x) /\
    Binary64.calculate (5 + x) (11 + x) = Some (Secure, 0).
Proof.
  assert (Hp : 0 <= 5) by lia.
  assert (Ht : 0 < 11 <= 2 ^ 46) by lia.
  assert (Hlt : 4 * 5 < 3 * 11) by lia.
  destruct (following_the_advice 5 11 Hp Ht Hlt) as (x & Hx & _ & _ & Hs).
  exists x. split; [exact Hx | exact Hs].
Defined.

(** X4. Using the allowance of the secure block, for a course at or above
    the threshold with up to [2 ^ 47] lectures attended: every further
    lecture that is held and missed lowers the count by exactly one while
    the course stays in the secure block, and one missed lecture more
    than the allowance puts it in the critical block. *)
Theorem using_the_allowance present total :
  0 < total ->
  3 * total <= 4 * present ->
  present <= 2 ^ 47 ->
  exists y,
    Binary64.calculate present total = Some (Secure, y) /\
    (forall k, 0 <= k <= y ->
       Binary64.calculate present (total + k) = Some (Secure, y - k)) /\
    exists x,
      Binary64.calculate present (total + (y + 1)) = Some (Critical, x) /\ 1 <= x.
Proof.
  intros Ht Hge Hp. exists ((4 * present - 3 * total) / 3).
  assert (H47 : 2 * 2 ^ 47 = 2 ^ 48) by reflexivity.
  pose proof (Z.div_mod (4 * present - 3 * total) 3 ltac:(lia)) as Hdm.
  pose proof (Z.mod_pos_bound (4 * present - 3 * total) 3 ltac:(lia)) as Hmod.
  set (y := (4 * present - 3 * total) / 3) in *.
  split; [apply calculate_secure_count; lia|]. split.
  - intros k Hk. rewrite calculate_secure_count by lia. do 2 f_equal.
    replace (4 * present - 3 * (total + k))
      with (4 * present - 3 * total + (- k) * 3) by lia.
    rewrite Z.div_add by lia. fold y. lia.
  - exists (3 * (total + (y + 1)) - 4 * present).
    split; [apply calculate_critical_count; lia | lia].
Qed.

Lemma using_the_allowance_witness :
  exists y x,
    Binary64.calculate 9 10 = Some (Secure, y) /\
    Binary64.calculate 9 (10 + (y + 1)) = Some (Critical, x).
Proof.
  assert (Ht : 0 < 10) by lia.
  assert (Hge : 3 * 10 <= 4 * 9) by lia.
  assert (Hp : 9 <= 2 ^ 47) by lia.
  destruct (using_the_allowance 9 10 Ht Hge Hp) as (y & Hy & _ & x & Hx & _).
  exists y, x. split; [exact Hy | exact Hx].
Defined.

(** Beyond these bounds the count can stay put when a lecture is
    missed. *)
Example allowance_stays_put :
  Binary64.calculate 9007199254740950 1 = Some (Secure, 12009599006321264) /\
  Binary64.calculate 9007199254740950 2 = Some (Secure, 12009599006321264).
Proof. split; vm_compute; reflexivity. Qed.
End Advice.

(** ** Statuses and messages of the loop *)


Section Messages.
Variable prevState : gmap string Entry.t.

Lemma statusIn_label c :
  statusIn prevState c <> Unchanged ->
  statusMap (statusIn prevState c) = Some (statusText (alertFor prevState c)).
Proof.
  intros Hch. unfold alertFor, calculateAttendanceMessage.
  destruct (belowThreshold _); cbn [statusText];
    destruct (statusIn prevState c); try reflexivity; destruct Hch; reflexivity.
Qed.

Lemma alertFor_fields c :
  courseLabel (alertFor prevState c) = courseName c /\
  msgPresent (alertFor prevState c) = Entry.present (fetched c) /\
  msgTotal (alertFor prevState c) = Entry.total (fetched c).
Proof.
  unfold alertFor, calculateAttendanceMessage, fetched.
  destruct (belowThreshold _); cbn; repeat split; reflexivity.
Qed.
End Messages.

(** X6. The loop logs and sends in step: the i-th logged line and the
    i-th message belong to the same course of the list; the message shows
    the name and the stored counters of that course, and its status line
    is the entry of [statusMap] for the logged status, never the fallback
    of the [||]. *)
Theorem alerts_match_log (prevState : gmap string Entry.t) (courses : list Course) :
  forallb hasComp courses = true ->
  exists w,
    diff prevState courses = (Ret tt, w) /\
    Forall2
      (fun line msg =>
         exists c,
           c ∈ courses /\
           line = (courseCode c, statusIn prevState c) /\
           statusIn prevState c <> Unchanged /\
           statusMap (statusIn prevState c) = Some (statusText msg) /\
           courseLabel msg = courseName c /\
           Entry.mk (msgPresent msg) (msgTotal msg) = fetched c)
      (logged w) (telegram w).
Proof.
  intros Hall. eexists. split; [apply diff_run; exact Hall|].
  cbn [logged telegram]. apply Forall2_fmap, Forall_Forall2_diag, Forall_forall.
  intros c Hc. apply list_elem_of_filter in Hc as [Hch Hc].
  destruct (alertFor_fields prevState c) as (Hl & Hp & Ht).
  exists c. split; [exact Hc|]. split; [reflexivity|]. split; [exact Hch|].
  split; [apply statusIn_label; exact Hch|]. split; [exact Hl|].
  rewrite Hp, Ht. destruct (fetched c); reflexivity.
Qed.

Lemma alerts_match_log_witness :
  exists w,
    diff examplePrev exampleCourses = (Ret tt, w) /\
    length (logged w) = length (telegram w).
Proof.
  assert (Hall : forallb hasComp exampleCourses = true) by reflexivity.
  destruct (alerts_match_log examplePrev exampleCourses Hall) as (w & Hrun & Hstep).
  exists w. split; [exact Hrun|]. exact (Forall2_length _ _ _ Hstep).
Defined.

(** ** Runs of the entry point *)

Section Runs.
Variables (env : gmap string string) (services : Services).

Lemma main_fetched session courses :
  login env services = inr session ->
  fetch_courses services (auth_pref session) (token session) = inr courses ->
  main env services =
    match diff (getAttendanceState services) courses with
    | (Ret _, w) =>
        mkOutcome (Alert <$> telegram w)
          (if bool_decide (0 < size (JsObject.own (newState w)))%nat
           then Some (JsObject.own (newState w)) else None)
    | (Throw e, w) =>
        mkOutcome ((Alert <$> telegram w) ++ [BotError (Uncaught e)]) None
    end.
Proof. intros Hl Hf. unfold main. rewrite Hl, Hf. reflexivity. Qed.

(** [Object.keys(newState).length > 0] after the loop: some course has a
    code other than ["__proto__"]. *)
Lemma stored_size courses :
  (0 < size (JsObject.own (stored ∅ courses)))%nat <->
  exists c, c ∈ courses /\ courseCode c <> "__proto__"%string.
Proof.
  split.
  - intros Hsize.
    destruct (map_choose (JsObject.own (stored ∅ courses))) as (code & entry & Hin).
    { intros Hempty. rewrite Hempty, map_size_empty in Hsize. lia. }
    assert (Hsome : is_Some (JsObject.own (stored ∅ courses) !! code))
      by (eexists; exact Hin).
    apply stored_is_Some in Hsome as [Hsome|[Hcode Hne]].
    + change (JsObject.own ∅) with (∅ : gmap string Entry.t) in Hsome.
      rewrite lookup_empty in Hsome. destruct Hsome as [? Hsome]. discriminate Hsome.
    + apply list_elem_of_fmap in Hcode as (c & -> & Hc). exists c. split; assumption.
  - intros (c & Hc & Hne).
    assert (Hin : is_Some (JsObject.own (stored ∅ courses) !! courseCode c)).
    { apply stored_is_Some. right. split; [|exact Hne].
      apply list_elem_of_fmap. exists c. split; [reflexivity | exact Hc]. }
    pose proof (map_size_ne_0_lookup_2 _ _ Hin). lia.
Qed.
End Runs.

(** X7. When the login or the course request fails, the run sends exactly
    one message, the bot error carrying the failure, and saves nothing;
    the failure is "Login failed", or "Session expired or invalid" exactly
    when the course request was answered with status 401, or "Failed to
    fetch courses". *)
Theorem failure_before_the_loop (env : gmap string string) (services : Services)
    (error : Failure) :
  login env services = inl error \/
  (exists session,
     login env services = inr session /\
     fetch_courses services (auth_pref session) (token session) = inl error) ->
  main env services = mkOutcome [BotError error] None /\
  (login env services = inl error -> error = Failed "Login failed") /\
  (forall session,
     login env services = inr session ->
     (error = Failed "Session expired or invalid" <->
        coursesGet services (auth_pref session +:+ token session)
        = inl (ErrorStatus 401)) /\
     (error <> Failed "Session expired or invalid" ->
        error = Failed "Failed to fetch courses")).
Proof.
  intros Hfail. split; [|split].
  - unfold main. destruct Hfail as [Hl | (session & Hl & Hf)].
    + rewrite Hl. reflexivity.
    + rewrite Hl, Hf. reflexivity.
  - unfold login. destruct (loginPost _ _ _); [|discriminate].
    intros [= <-]. reflexivity.
  - intros session Hl. destruct Hfail as [Hl' | (session' & Hl' & Hf)];
      [congruence|].
    assert (session' = session) as -> by congruence.
    unfold fetch_courses in Hf.
    destruct (coursesGet services _) as [[|status]|courses]; [| |discriminate].
    + injection Hf as <-. split; [split; discriminate | reflexivity].
    + destruct (decide (status = 401)) as [->|Hne].
      * injection Hf as <-. split; [split; reflexivity | congruence].
      * assert (error = Failed "Failed to fetch courses") as ->.
        { destruct status as [|p|p]; try (injection Hf as <-; reflexivity).
          repeat (destruct p as [p|p|]; try (injection Hf as <-; reflexivity)).
          destruct Hne. reflexivity. }
        split; [split; [discriminate | congruence] | reflexivity].
Qed.

Lemma failure_before_the_loop_witness :
  main exampleEnv
    (mkServices (fun _ _ => inr (mkSession "Bearer " "abc"))
       (fun _ => inl (ErrorStatus 401)) NoSnapshot)
  = mkOutcome [BotError (Failed "Session expired or invalid")] None.
Proof.
  apply (failure_before_the_loop exampleEnv _ (Failed "Session expired or invalid")).
  right. exists (mkSession "Bearer " "abc"). split; reflexivity.
Defined.

Lemma main_completes (env : gmap string string) (services : Services)
    (session : Session) (courses : list Course) :
  login env services = inr session ->
  fetch_courses services (auth_pref session) (token session) = inr courses ->
  forallb hasComp courses = true ->
  main env services =
    mkOutcome
      (Alert <$> (alertFor (getAttendanceState services)
                    <$> changedCourses (getAttendanceState services) courses))
      (if bool_decide (0 < size (JsObject.own (stored ∅ courses)))%nat
       then Some (JsObject.own (stored ∅ courses)) else None).
Proof.
  intros Hl Hf Hall.
  rewrite (main_fetched _ _ _ _ Hl Hf).
  rewrite (diff_run _ _ Hall). reflexivity.
Qed.

(** X8. When login and course request succeed and every course has a
    component, the run sends the alerts of the changed courses and
    nothing else, and it saves the rebuilt state exactly when some course
    has a code other than ["__proto__"]; the saved state holds the codes
    of the courses other than ["__proto__"]. *)
Theorem successful_run (env : gmap string string) (services : Services)
    (session : Session) (courses : list Course) :
  login env services = inr session ->
  fetch_courses services (auth_pref session) (token session) = inr courses ->
  forallb hasComp courses = true ->
  let prevState := getAttendanceState services in
  sent (main env services)
  = Alert <$> (alertFor prevState <$> changedCourses prevState courses) /\
  (forall error, BotError error ∉ sent (main env services)) /\
  (is_Some (saved (main env services))
   <-> exists c, c ∈ courses /\ courseCode c <> "__proto__"%string) /\
  (forall state,
     saved (main env services) = Some state ->
     state = JsObject.own (stored ∅ courses) /\
     forall code,
       is_Some (state !! code)
       <-> code ∈ courseCode <$> courses /\ code <> "__proto__"%string).
Proof.
  intros Hl Hf Hall prevState. subst prevState.
  rewrite (main_completes _ _ _ _ Hl Hf Hall). cbn [sent saved].
  split; [reflexivity|]. split; [|split].
  - intros error Hin. apply list_elem_of_fmap in Hin as (m & Heq & _). discriminate Heq.
  - rewrite <- stored_size. destruct (bool_decide _) eqn:E.
    + apply bool_decide_eq_true in E. split; [intros _; exact E | intros _; eexists; reflexivity].
    + apply bool_decide_eq_false in E. split; [|tauto].
      intros [? H]. discriminate H.
  - intros state Hsaved. destruct (bool_decide _); [|discriminate].
    injection Hsaved as <-. split; [reflexivity|].
    intros code. rewrite stored_is_Some.
    change (JsObject.own ∅) with (∅ : gmap string Entry.t).
    rewrite lookup_empty, is_Some_alt. tauto.
Qed.

Lemma successful_run_witness :
  is_Some (saved (main exampleEnv
                    (exampleServices exampleCourses (SnapshotVal examplePrev)))) /\
  ~ is_Some (saved (main exampleEnv
                      (exampleServices [mkCourse "__proto__" "Ethics" [mkComp 5 10]]
                         (SnapshotVal examplePrev)))).
Proof.
  split.
  - apply (proj1 (proj2 (proj2 (successful_run exampleEnv
             (exampleServices exampleCourses (SnapshotVal examplePrev))
             (mkSession "Bearer " "abc") exampleCourses
             eq_refl eq_refl eq_refl)))).
    exists (mkCourse "MA102" "Calculus" [mkComp 8 10; mkComp 1 2]).
    split; [|discriminate].
    apply elem_of_cons. right. apply elem_of_cons. left. reflexivity.
  - intros Hsaved.
    apply (proj1 (proj2 (proj2 (successful_run exampleEnv
             (exampleServices [mkCourse "__proto__" "Ethics" [mkComp 5 10]]
                (SnapshotVal examplePrev))
             (mkSession "Bearer " "abc") [mkCourse "__proto__" "Ethics" [mkComp 5 10]]
             eq_refl eq_refl eq_refl)))) in Hsaved.
    destruct Hsaved as (c & Hc & Hne).
    apply list_elem_of_singleton in Hc. subst c. apply Hne. reflexivity.
Defined.

(** X9. When a course of the list has no component, the alerts of the
    changed courses before it have been sent and stay sent, one bot error
    follows them, no course after it is looked at, and nothing is saved. *)
Theorem failure_inside_the_loop (env : gmap string string) (services : Services)
    (session : Session) (before : list Course) (c : Course) (after : list Course) :
  login env services = inr session ->
  fetch_courses services (auth_pref session) (token session)
  = inr (before ++ c :: after) ->
  forallb hasComp before = true ->
  hasComp c = false ->
  let prevState := getAttendanceState services in
  main env services =
    mkOutcome
      ((Alert <$> (alertFor prevState <$> changedCourses prevState before))
       ++ [BotError (Uncaught TypeError)])
      None.
Proof.
  intros Hl Hf Hall Hc prevState.
  rewrite (main_fetched _ _ _ _ Hl Hf). fold prevState. unfold diff.
  rewrite (processCourses_throw _ _ _ _ _ Hall Hc).
  rewrite (processCourses_run _ _ _ Hall). reflexivity.
Qed.

Lemma failure_inside_the_loop_witness :
  main exampleEnv
    (exampleServices
       [mkCourse "CS101" "Algorithms" [mkComp 9 10];
        mkCourse "MA102" "Calculus" [];
        mkCourse "PH100" "Physics" [mkComp 1 1]] NoSnapshot)
  = mkOutcome
      [Alert (calculateAttendanceMessage "Algorithms" 9 10 Present);
       BotError (Uncaught TypeError)]
      None.
Proof.
  rewrite (failure_inside_the_loop exampleEnv
             (exampleServices
                [mkCourse "CS101" "Algorithms" [mkComp 9 10];
                 mkCourse "MA102" "Calculus" [];
                 mkCourse "PH100" "Physics" [mkComp 1 1]] NoSnapshot)
             (mkSession "Bearer " "abc")
             [mkCourse "CS101" "Algorithms" [mkComp 9 10]]
             (mkCourse "MA102" "Calculus" [])
             [mkCourse "PH100" "Physics" [mkComp 1 1]]
             eq_refl eq_refl eq_refl eq_refl).
  vm_compute. reflexivity.
Defined.

Lemma changedCourses_none prevState courses :
  (forall c, c ∈ courses -> statusIn prevState c = Unchanged) ->
  changedCourses prevState courses = [].
Proof.
  intros Hall. unfold changedCourses.
  induction courses as [|c rest IH]; [reflexivity|].
  rewrite filter_cons. destruct (decide _) as [Hch|_].
  - destruct Hch. apply Hall. apply elem_of_cons. left. reflexivity.
  - apply IH. intros c' Hc'. apply Hall. apply elem_of_cons. right. exact Hc'.
Qed.

Lemma statusIn_stored courses :
  NoDup (courseCode <$> courses) ->
  "__proto__"%string ∉ courseCode <$> courses ->
  forall c, c ∈ courses ->
    statusIn (JsObject.own (stored ∅ courses)) c = Unchanged.
Proof.
  intros Hnd Hproto c Hc.
  assert (Hne : courseCode c <> "__proto__"%string).
  { intros Heq. apply Hproto. rewrite <- Heq. apply list_elem_of_fmap.
    exists c. split; [reflexivity | exact Hc]. }
  destruct (list_elem_of_split _ _ Hc) as (l1 & l2 & ->).
  rewrite fmap_app, fmap_cons in Hnd.
  apply NoDup_app in Hnd as (_ & _ & Hnd). apply NoDup_cons in Hnd as [Hnot _].
  unfold statusIn. rewrite (oldValue_own _ _ _ (stored_last _ _ _ _ Hne Hnot)).
  apply classify_Unchanged, changed_false. split; reflexivity.
Qed.

(** X10. A second run that reads the state saved by a run and is given
    the same courses sends nothing and saves the same state again,
    provided every course has a component, no course code occurs twice
    and no course has the code ["__proto__"]. *)
Theorem second_run_is_silent (env : gmap string string) (services : Services)
    (session : Session) (courses : list Course) (state : gmap string Entry.t) :
  login env services = inr session ->
  fetch_courses services (auth_pref session) (token session) = inr courses ->
  forallb hasComp courses = true ->
  NoDup (courseCode <$> courses) ->
  "__proto__"%string ∉ courseCode <$> courses ->
  saved (main env services) = Some state ->
  main env (mkServices (loginPost services) (coursesGet services) (SnapshotVal state))
  = mkOutcome [] (Some state).
Proof.
  intros Hl Hf Hall Hnd Hproto Hsaved.
  rewrite (main_completes _ _ _ _ Hl Hf Hall) in Hsaved. cbn [saved] in Hsaved.
  destruct (bool_decide (0 < size (JsObject.own (stored ∅ courses)))%nat) eqn:E;
    [|discriminate].
  injection Hsaved as <-.
  rewrite (main_completes env (mkServices _ _ _) session courses Hl Hf Hall).
  unfold getAttendanceState. cbn [attendanceGet].
  rewrite (changedCourses_none _ _ (statusIn_stored _ Hnd Hproto)).
  rewrite E. reflexivity.
Qed.

Lemma second_run_is_silent_witness :
  main exampleEnv
    (exampleServices
       [mkCourse "CS101" "Algorithms" [mkComp 5 11];
        mkCourse "MA102" "Calculus" [mkComp 8 10]]
       (SnapshotVal (<["MA102" := Entry.mk 8 10]> (<["CS101" := Entry.mk 5 11]> ∅))))
  = mkOutcome [] (Some (<["MA102" := Entry.mk 8 10]> (<["CS101" := Entry.mk 5 11]> ∅))).
Proof.
  assert (Hnd : NoDup (courseCode <$>
                         [mkCourse "CS101" "Algorithms" [mkComp 5 11];
                          mkCourse "MA102" "Calculus" [mkComp 8 10]])).
  { apply (bool_decide_unpack _). vm_compute. exact I. }
  assert (Hproto : "__proto__"%string ∉ courseCode <$>
                         [mkCourse "CS101" "Algorithms" [mkComp 5 11];
                          mkCourse "MA102" "Calculus" [mkComp 8 10]]).
  { apply (bool_decide_unpack _). vm_compute. exact I. }
  exact (second_run_is_silent exampleEnv
           (exampleServices
              [mkCourse "CS101" "Algorithms" [mkComp 5 11];
               mkCourse "MA102" "Calculus" [mkComp 8 10]]
              (SnapshotVal examplePrev))
           (mkSession "Bearer " "abc") _ _ eq_refl eq_refl eq_refl Hnd Hproto eq_refl).
Defined.

(** With a course code that occurs twice with different counters the
    earlier occurrence is reported again by every later run. *)
Example repeated_code_is_reported_again :
  sent (main exampleEnv
          (exampleServices exampleCourses
             (SnapshotVal (JsObject.own (stored ∅ exampleCourses)))))
  = [Alert (calculateAttendanceMessage "Algorithms" 5 11 Unknown)].
Proof. vm_compute. reflexivity. Qed.

(** A course with code ["__proto__"] is not in the saved state and is
    reported again by every later run, whatever its counters. *)
Example proto_course_is_reported_again :
  let courses :=
    [mkCourse "CS101" "Algorithms" [mkComp 5 11];
     mkCourse "__proto__" "Ethics" [mkComp 5 10]] in
  saved (main exampleEnv (exampleServices courses NoSnapshot))
  = Some (<["CS101" := Entry.mk 5 11]> ∅) /\
  sent (main exampleEnv
          (exampleServices courses (SnapshotVal (<["CS101" := Entry.mk 5 11]> ∅))))
  = [Alert (calculateAttendanceMessage "Ethics" 5 10 Unknown)].
Proof. split; vm_compute; reflexivity. Qed.

(** X11. When the stored state cannot be read, or does not exist, the run
    looks every course up in an empty object: it sends an alert for
    exactly the courses whose code names a member of [Object.prototype]
    or whose fetched counters are not both 0; the former are reported as
    "Unknown", the latter are classified against 0/0. *)
Theorem unreadable_state_reports_everything (env : gmap string string)
    (services : Services) (session : Session) (courses : list Course) :
  attendanceGet services = ReadFailed \/ attendanceGet services = NoSnapshot ->
  login env services = inr session ->
  fetch_courses services (auth_pref session) (token session) = inr courses ->
  forallb hasComp courses = true ->
  sent (main env services)
  = Alert <$> ((fun c =>
                  calculateAttendanceMessage (courseName c)
                    (Entry.present (fetched c)) (Entry.total (fetched c))
                    (if bool_decide (courseCode c ∈ prototypeMembers) then Unknown
                     else classify (Entry.mk 0 0)
                            (Entry.present (fetched c)) (Entry.total (fetched c))))
               <$> filter (fun c => courseCode c ∈ prototypeMembers
                                    \/ fetched c <> Entry.mk 0 0) courses).
Proof.
  intros Hread Hl Hf Hall.
  rewrite (main_completes _ _ _ _ Hl Hf Hall). cbn [sent].
  assert (Hprev : getAttendanceState services = ∅).
  { unfold getAttendanceState. destruct Hread as [-> | ->]; reflexivity. }
  rewrite Hprev. f_equal. unfold changedCourses.
  clear. induction courses as [|c rest IH]; [reflexivity|].
  rewrite !filter_cons.
  assert (Hst : statusIn ∅ c
                = if bool_decide (courseCode c ∈ prototypeMembers) then Unknown
                  else classify (Entry.mk 0 0)
                         (Entry.present (fetched c)) (Entry.total (fetched c))).
  { unfold statusIn, oldValue. rewrite lookup_empty.
    destruct (bool_decide (courseCode c ∈ prototypeMembers)); reflexivity. }
  assert (Hiff : statusIn ∅ c <> Unchanged
                 <-> courseCode c ∈ prototypeMembers \/ fetched c <> Entry.mk 0 0).
  { rewrite Hst. destruct (decide (courseCode c ∈ prototypeMembers)) as [Hin|Hnot].
    - rewrite bool_decide_eq_true_2 by assumption. split; [tauto | discriminate].
    - rewrite bool_decide_eq_false_2 by assumption.
      rewrite classify_Unchanged, changed_false. unfold fetched. cbn.
      split; intros H.
      + right. intros [= Hp Ht]. apply H. split; assumption.
      + intros [Hp Ht]. destruct H as [H|H]; [tauto|]. apply H. rewrite Hp, Ht. reflexivity. }
  destruct (decide (statusIn ∅ c <> Unchanged)) as [Hch|Hun],
           (decide (courseCode c ∈ prototypeMembers \/ fetched c <> Entry.mk 0 0))
             as [Hne|Heq];
    try (exfalso; tauto).
  - rewrite !fmap_cons, IH. unfold alertFor. rewrite Hst. reflexivity.
  - exact IH.
Qed.

Lemma unreadable_state_reports_everything_witness :
  sent (main exampleEnv
          (exampleServices
             [mkCourse "CS101" "Algorithms" [mkComp 5 10];
              mkCourse "MA102" "Calculus" [mkComp 0 0];
              mkCourse "toString" "Law" [mkComp 0 0]] ReadFailed))
  = [Alert (calculateAttendanceMessage "Algorithms" 5 10 Present);
     Alert (calculateAttendanceMessage "Law" 0 0 Unknown)].
Proof.
  rewrite (unreadable_state_reports_everything exampleEnv
             (exampleServices
                [mkCourse "CS101" "Algorithms" [mkComp 5 10];
                 mkCourse "MA102" "Calculus" [mkComp 0 0];
                 mkCourse "toString" "Law" [mkComp 0 0]] ReadFailed)
             (mkSession "Bearer " "abc") _ (or_introl eq_refl) eq_refl eq_refl eq_refl).
  vm_compute. reflexivity.
Defined.

(** ** The environment *)

Lemma falsy_false (value : option string) :
  falsy value = false <-> exists s, value = Some s /\ s <> ""%string.
Proof.
  unfold falsy. destruct value as [s|].
  - rewrite bool_decide_eq_false. split.
    + intros Hne. exists s. split; [reflexivity | exact Hne].
    + intros (s' & [= <-] & Hne). exact Hne.
  - split; [discriminate|]. intros (s & Hs & _). discriminate Hs.
Qed.

Lemma exitsAtStartup_false (env : gmap string string) :
  exitsAtStartup env = false <->
  forall varName, varName ∈ requiredEnvVars ->
    exists s, env !! varName = Some s /\ s <> ""%string.
Proof.
  unfold exitsAtStartup. rewrite bool_decide_eq_false. split.
  - intros Hlen varName Hin. apply falsy_false.
    destruct (falsy (env !! varName)) eqn:E; [|reflexivity].
    exfalso. apply Hlen.
    assert (Hm : varName ∈ missingVars env)
      by (apply list_elem_of_filter; split; assumption).
    destruct (missingVars env); [inversion Hm | cbn; lia].
  - intros Hall Hlen.
    destruct (missingVars env) as [|varName rest] eqn:E; [cbn in Hlen; lia|].
    assert (Hm : varName ∈ missingVars env) by (rewrite E; apply elem_of_cons; auto).
    apply list_elem_of_filter in Hm as [Hf Hin].
    apply Hall, falsy_false in Hin. congruence.
Qed.

(** X12. Loading the module goes on past the start-up check exactly when
    each of the eight required variables is set to a non-empty string; a
    variable set to the empty string counts as missing.  The reported
    names are the missing ones, in the order of [requiredEnvVars]. *)
Theorem startup_check (env : gmap string string) :
  (exitsAtStartup env = false <->
     forall varName, varName ∈ requiredEnvVars ->
       exists s, env !! varName = Some s /\ s <> ""%string) /\
  (forall varName, varName ∈ missingVars env <->
     varName ∈ requiredEnvVars /\
     (env !! varName = None \/ env !! varName = Some ""%string)) /\
  missingVars env `sublist_of` requiredEnvVars.
Proof.
  split; [apply exitsAtStartup_false|split].
  - intros varName. unfold missingVars. rewrite list_elem_of_filter.
    unfold falsy. destruct (env !! varName) as [s|].
    + rewrite bool_decide_eq_true. split.
      * intros [-> Hin]. split; [exact Hin | right; reflexivity].
      * intros [Hin [Hn | [= ->]]]; [discriminate | split; [reflexivity | exact Hin]].
    + split; intros [? ?]; split; auto.
  - apply sublist_filter.
Qed.

(** X13. In a process that got past the start-up check, [send_telegram]
    never returns early: every message of a run is posted, in order, to
    the bot URL built from [BOT_TOKEN], for the chat [CHAT_ID], with parse
    mode "Markdown". *)
Theorem checked_env_posts_everything (env : gmap string string) (outcome : Outcome) :
  exitsAtStartup env = false ->
  exists bot chat,
    env !! "BOT_TOKEN"%string = Some bot /\
    env !! "CHAT_ID"%string = Some chat /\
    posted env outcome
    = (fun msg =>
         mkTelegramRequest ("https://api.telegram.org/bot" +:+ bot +:+ "/sendMessage")
           chat msg "Markdown") <$> sent outcome.
Proof.
  intros Hok. rewrite exitsAtStartup_false in Hok.
  destruct (Hok "BOT_TOKEN"%string) as (bot & Hbot & Hbne).
  { apply (bool_decide_unpack _). vm_compute. exact I. }
  destruct (Hok "CHAT_ID"%string) as (chat & Hchat & Hcne).
  { apply (bool_decide_unpack _). vm_compute. exact I. }
  exists bot, chat. split; [exact Hbot|]. split; [exact Hchat|].
  unfold posted. induction (sent outcome) as [|msg rest IH]; [reflexivity|].
  cbn [omap list_omap]. unfold telegramRequest at 1. rewrite Hbot, Hchat.
  unfold falsy. rewrite !bool_decide_eq_false_2 by assumption. cbn.
  f_equal. exact IH.
Qed.

Lemma checked_env_posts_everything_witness :
  length (posted exampleEnv
            (main exampleEnv (exampleServices exampleCourses (SnapshotVal examplePrev))))
  = 3%nat.
Proof.
  assert (Hok : exitsAtStartup exampleEnv = false) by (vm_compute; reflexivity).
  destruct (checked_env_posts_everything exampleEnv
              (main exampleEnv (exampleServices exampleCourses (SnapshotVal examplePrev)))
              Hok) as (bot & chat & _ & _ & ->).
  rewrite length_fmap. vm_compute. reflexivity.
Defined.

(** ** What the saved state depends on *)

Lemma processCourses_cons prevState c rest w :
  processCourses prevState (c :: rest) w =
    match processCourse prevState c w with
    | (Ret _, w') => processCourses prevState rest w'
    | (Throw e, w') => (Throw e, w')
    end.
Proof. reflexivity. Qed.

Lemma processCourses_newState prev1 prev2 courses w1 w2 :
  newState w1 = newState w2 ->
  fst (processCourses prev1 courses w1) = fst (processCourses prev2 courses w2) /\
  newState (snd (processCourses prev1 courses w1))
  = newState (snd (processCourses prev2 courses w2)).
Proof.
  revert w1 w2. induction courses as [|c rest IH]; intros w1 w2 Hw.
  - split; [reflexivity | exact Hw].
  - rewrite !processCourses_cons. destruct (hasComp c) eqn:Hc.
    + rewrite !(processCourse_run _ c _ Hc). apply IH. cbn [newState].
      rewrite Hw. reflexivity.
    + rewrite !(processCourse_throw _ c _ Hc). split; [reflexivity | exact Hw].
Qed.

(** X14. What a run saves does not depend on the state it read: two runs
    that differ only in the stored state (or in whether it could be read)
    save the same, also when a course without component stops the loop.
    The previous state decides the alerts only. *)
Theorem saved_state_ignores_previous_state (env : gmap string string)
    (services : Services) (read : StateRead) :
  saved (main env (mkServices (loginPost services) (coursesGet services) read))
  = saved (main env services).
Proof.
  unfold main, login, fetch_courses. cbn [loginPost coursesGet].
  destruct (loginPost services _ _) as [?|session]; [reflexivity|].
  destruct (coursesGet services _) as [[|status]|courses]; try reflexivity.
  - destruct status as [|p|p]; try reflexivity.
    repeat (destruct p as [p|p|]; try reflexivity).
  - unfold diff.
    destruct (processCourses_newState
                (getAttendanceState
                   (mkServices (loginPost services) (coursesGet services) read))
                (getAttendanceState services) courses emptyWorld emptyWorld eq_refl)
      as [Hres Hnew].
    destruct (processCourses _ courses emptyWorld) as [[[]|e1] w1],
             (processCourses _ courses emptyWorld) as [[[]|e2] w2];
      cbn in Hres, Hnew; try discriminate Hres; cbn [saved].
    + rewrite Hnew. reflexivity.
    + reflexivity.
Qed.

Lemma assign_comm code1 entry1 code2 entry2 (obj : JsObject.t) :
  code1 <> code2 ->
  <[code1 := entry1]> (<[code2 := entry2]> obj)
  = <[code2 := entry2]> (<[code1 := entry1]> obj).
Proof.
  intros Hne. unfold insert, JsObject.insert_instance, JsObject.assign.
  destruct (decide (code1 = "__proto__"%string)) as [H1|H1],
           (decide (code2 = "__proto__"%string)) as [H2|H2];
    [congruence| | |].
  - rewrite (bool_decide_eq_true_2 _ H1), (bool_decide_eq_false_2 _ H2). reflexivity.
  - rewrite (bool_decide_eq_false_2 _ H1), (bool_decide_eq_true_2 _ H2). reflexivity.
  - rewrite (bool_decide_eq_false_2 _ H1), (bool_decide_eq_false_2 _ H2).
    cbn [JsObject.own JsObject.proto]. f_equal. apply insert_insert_ne. congruence.
Qed.

(** Assignments to distinct codes can be made in any order. *)
Lemma stored_permutation courses courses' :
  courses ≡ₚ courses' ->
  NoDup (courseCode <$> courses) ->
  forall obj, stored obj courses = stored obj courses'.
Proof.
  induction 1 as [|c l l' Hperm IH|c1 c2 l|l l' l'' Hperm1 IH1 Hperm2 IH2];
    intros Hnd obj.
  - reflexivity.
  - rewrite !stored_cons. apply IH.
    rewrite fmap_cons in Hnd. apply NoDup_cons in Hnd as [_ Hnd]. exact Hnd.
  - rewrite !stored_cons. f_equal. apply assign_comm.
    rewrite !fmap_cons in Hnd. apply NoDup_cons in Hnd as [Hnot _].
    intros Heq. apply Hnot. rewrite Heq. apply elem_of_cons. left. reflexivity.
  - rewrite (IH1 Hnd). apply IH2. rewrite <- Hperm1. exact Hnd.
Qed.

(** X15. When no course code occurs twice, the order of the fetched
    courses does not matter for the result: a reordered list gives the
    same [newState], and the same changed courses in the new order. *)
Theorem order_of_courses_is_immaterial (prevState : gmap string Entry.t)
    (courses courses' : list Course) :
  NoDup (courseCode <$> courses) ->
  courses ≡ₚ courses' ->
  forallb hasComp courses = true ->
  exists w w',
    diff prevState courses = (Ret tt, w) /\
    diff prevState courses' = (Ret tt, w') /\
    newState w = newState w' /\
    logged w ≡ₚ logged w' /\
    telegram w ≡ₚ telegram w' /\
    logged w' = logLine prevState <$> changedCourses prevState courses'.
Proof.
  intros Hnd Hperm Hall.
  assert (Hall' : forallb hasComp courses' = true).
  { apply forallb_forall. intros c Hc. rewrite forallb_forall in Hall.
    apply Hall. apply list_elem_of_In. rewrite Hperm. apply list_elem_of_In. exact Hc. }
  assert (Hnd' : NoDup (courseCode <$> courses')) by (rewrite <- Hperm; exact Hnd).
  do 2 eexists. split; [apply diff_run; exact Hall|].
  split; [apply diff_run; exact Hall'|].
  cbn [newState logged telegram]. unfold changedCourses.
  split; [|split; [rewrite Hperm; reflexivity|split; [rewrite Hperm; reflexivity|reflexivity]]].
  apply stored_permutation; assumption.
Qed.

Lemma order_of_courses_is_immaterial_witness :
  exists w w',
    diff examplePrev
      [mkCourse "CS101" "Algorithms" [mkComp 5 11];
       mkCourse "MA102" "Calculus" [mkComp 8 10]] = (Ret tt, w) /\
    diff examplePrev
      [mkCourse "MA102" "Calculus" [mkComp 8 10];
       mkCourse "CS101" "Algorithms" [mkComp 5 11]] = (Ret tt, w') /\
    newState w = newState w'.
Proof.
  assert (Hnd : NoDup (courseCode <$>
                         [mkCourse "CS101" "Algorithms" [mkComp 5 11];
                          mkCourse "MA102" "Calculus" [mkComp 8 10]])).
  { apply (bool_decide_unpack _). vm_compute. exact I. }
  destruct (order_of_courses_is_immaterial examplePrev _ _ Hnd
              (Permutation_swap (mkCourse "MA102" "Calculus" [mkComp 8 10])
                 (mkCourse "CS101" "Algorithms" [mkComp 5 11]) []) eq_refl)
    as (w & w' & Hrun & Hrun' & Hnew & _).
  exists w, w'. split; [exact Hrun|]. split; [exact Hrun'|]. exact Hnew.
Defined.
